(** * Server actions of the invoicing dashboard

    The development follows the layout of the action module: the pieces of
    the JavaScript runtime the actions call ([Number],
    [String.prototype.trim], [Date.prototype.toISOString],
    [String.prototype.split]), the schema validator, the SQL client with
    the two tables, the cache and navigation primitives, the sign-in
    call, and then the seven exported actions themselves.

    Strings are byte strings that hold UTF-8 (the values of a form are
    sequences of Unicode scalar values); a JavaScript number is an IEEE
    754 binary64 value, written out over [Z] with the Standard Library's
    [spec_float]. *)

From Stdlib Require Import ZArith Lia Bool List Ascii String.
From Stdlib Require Import Floats.SpecFloat.
Import ListNotations.

Local Open Scope string_scope.
Local Open Scope list_scope.
Local Open Scope Z_scope.

(* ================================================================== *)
(** * The JavaScript runtime *)
(* ================================================================== *)

Module JS.

(** ** Numbers: binary64 *)

Definition number : Type := spec_float.

Definition prec : Z := 53.
Definition emax : Z := 1024.

Definition NaN : number := S754_nan.
Definition of_Z (z : Z) : number := binary_normalize prec emax z 0 false.
Definition mul (x y : number) : number := SFmul prec emax x y.
(** [x <= y]; false as soon as one side is NaN *)
Definition le (x y : number) : bool := SFleb x y.

Definition isNaN (x : number) : bool :=
  match x with S754_nan => true | _ => false end.

(** The integer a number denotes, when it denotes one. *)
Definition to_Z (x : number) : option Z :=
  match x with
  | S754_zero _ => Some 0
  | S754_finite s m e =>
      let v := if s then Z.neg m else Z.pos m in
      if 0 <=? e then Some (v * 2 ^ e)
      else if (v mod 2 ^ (- e)) =? 0 then Some (v / 2 ^ (- e)) else None
  | _ => None
  end.

(** ** Characters and white space *)

Definition chars : Type := list ascii.

Definition code (c : ascii) : Z := Z.of_nat (nat_of_ascii c).

(** The white space and line terminators of ECMAScript, by code point:
    TAB, LF, VT, FF, CR, SPACE, U+00A0, U+1680, U+2000 to U+200A, U+2028,
    U+2029, U+202F, U+205F, U+3000 and U+FEFF. *)
Definition isWhiteSpace (cp : Z) : bool :=
  ((9 <=? cp) && (cp <=? 13)) || (cp =? 32) || (cp =? 160) || (cp =? 5760)
  || ((8192 <=? cp) && (cp <=? 8202)) || (cp =? 8232) || (cp =? 8233)
  || (cp =? 8239) || (cp =? 8287) || (cp =? 12288) || (cp =? 65279).

(** The code point that one, two or three bytes encode in UTF-8, and -1
    when they encode none. (No white space lies above U+FFFF, where the
    encodings of four bytes begin.) *)
Definition isContinuation (c : ascii) : bool :=
  (128 <=? code c) && (code c <=? 191).

Definition codePoint1 (a : ascii) : Z :=
  if code a <? 128 then code a else -1.

Definition codePoint2 (a b : ascii) : Z :=
  if (194 <=? code a) && (code a <=? 223) && isContinuation b
  then (code a - 192) * 64 + (code b - 128)
  else -1.

Definition codePoint3 (a b c : ascii) : Z :=
  let cp := (code a - 224) * 4096 + (code b - 128) * 64 + (code c - 128) in
  if (224 <=? code a) && (code a <=? 239) && isContinuation b
     && isContinuation c && (2048 <=? cp)
  then cp
  else -1.

Definition isSpace1 (a : ascii) : bool := isWhiteSpace (codePoint1 a).
Definition isSpace2 (a b : ascii) : bool := isWhiteSpace (codePoint2 a b).
Definition isSpace3 (a b c : ascii) : bool := isWhiteSpace (codePoint3 a b c).

Section Strip.

(** what tells that one, two or three bytes in a row are a white space
    character *)
Variable w1 : ascii -> bool.
Variable w2 : ascii -> ascii -> bool.
Variable w3 : ascii -> ascii -> ascii -> bool.

(** [s] without the white space characters it begins with *)
Fixpoint strip (s : chars) : chars :=
  match s with
  | [] => []
  | a :: r =>
      if w1 a then strip r
      else match r with
           | [] => s
           | b :: r' =>
               if w2 a b then strip r'
               else match r' with
                    | [] => s
                    | c :: r'' => if w3 a b c then strip r'' else s
                    end
           end
  end.

End Strip.

Definition trimStart (s : chars) : chars := strip isSpace1 isSpace2 isSpace3 s.

(** the same from the end: the bytes of a character are met last first *)
Definition trimEnd (s : chars) : chars :=
  rev (strip isSpace1 (fun b a => isSpace2 a b)
         (fun c b a => isSpace3 a b c) (rev s)).

(** [String.prototype.trim] *)
Definition trim (s : string) : string :=
  string_of_list_ascii (trimEnd (trimStart (list_ascii_of_string s))).

(** ** StringToNumber *)

Definition isDigit (c : ascii) : bool :=
  let n := code c in (48 <=? n) && (n <=? 57).

Definition digitValue (c : ascii) : Z := code c - 48.

(** value of a hexadecimal digit, if it is one *)
Definition hexValue (c : ascii) : option Z :=
  let n := code c in
  if (48 <=? n) && (n <=? 57) then Some (n - 48)
  else if (97 <=? n) && (n <=? 102) then Some (n - 87)
  else if (65 <=? n) && (n <=? 70) then Some (n - 55)
  else None.

(** longest prefix of decimal digits, and what follows it *)
Fixpoint spanDigits (s : chars) : chars * chars :=
  match s with
  | c :: r =>
      if isDigit c then let (d, t) := spanDigits r in (c :: d, t)
      else ([], s)
  | [] => ([], [])
  end.

Definition digitsValue (d : chars) : Z :=
  fold_left (fun acc c => 10 * acc + digitValue c) d 0.

(** digits of a literal in base [b], all of them below [b] *)
Fixpoint radixValue (b : Z) (acc : Z) (s : chars) : option Z :=
  match s with
  | [] => Some acc
  | c :: r =>
      match hexValue c with
      | Some v => if v <? b then radixValue b (b * acc + v) r else None
      | None => None
      end
  end.

(** The number nearest to [m * 10^e10] (ties to even), with sign [neg]. *)
Definition decimalToNumber (neg : bool) (m e10 : Z) : number :=
  match m with
  | Z.pos p =>
      if 0 <=? e10
      then binary_normalize prec emax
             ((if neg then Z.neg p else Z.pos p) * 10 ^ e10) 0 false
      else SFdiv prec emax (S754_finite neg p 0)
             (S754_finite false (Z.to_pos (10 ^ (- e10))) 0)
  | _ => S754_zero neg
  end.

(** ExponentPart, optional, up to the end of the literal *)
Definition exponentPart (s : chars) : option Z :=
  match s with
  | [] => Some 0
  | c :: r =>
      if (code c =? 101) || (code c =? 69) then
        let '(neg, r') :=
          match r with
          | s' :: t => if code s' =? 45 then (true, t)
                       else if code s' =? 43 then (false, t)
                       else (false, r)
          | [] => (false, r)
          end in
        match spanDigits r' with
        | (((_ :: _) as d), []) =>
            Some (if neg then - digitsValue d else digitsValue d)
        | _ => None
        end
      else None
  end.

(** StrUnsignedDecimalLiteral *)
Definition unsignedDecimal (neg : bool) (s : chars) : number :=
  if String.eqb (string_of_list_ascii s) "Infinity" then S754_infinity neg
  else
    let (ip, r1) := spanDigits s in
    let (fp, r2) :=
      match r1 with
      | c :: t => if code c =? 46 then spanDigits t else ([], r1)
      | [] => ([], r1)
      end in
    match ip ++ fp with
    | [] => NaN
    | ds =>
        match exponentPart r2 with
        | Some e => decimalToNumber neg (digitsValue ds)
                      (e - Z.of_nat (List.length fp))
        | None => NaN
        end
    end.

(** StrNumericLiteral, after the white space has been removed *)
Definition numericLiteral (s : chars) : number :=
  match s with
  | [] => S754_zero false
  | c0 :: c1 :: ((_ :: _) as r) =>
      let radix :=
        if code c0 =? 48 then
          if (code c1 =? 120) || (code c1 =? 88) then Some 16
          else if (code c1 =? 111) || (code c1 =? 79) then Some 8
          else if (code c1 =? 98) || (code c1 =? 66) then Some 2
          else None
        else None in
      match radix with
      | Some b => match radixValue b 0 r with
                  | Some v => of_Z v
                  | None => NaN
                  end
      | None =>
          if code c0 =? 45 then unsignedDecimal true (c1 :: r)
          else if code c0 =? 43 then unsignedDecimal false (c1 :: r)
          else unsignedDecimal false s
      end
  | c0 :: r =>
      if code c0 =? 45 then unsignedDecimal true r
      else if code c0 =? 43 then unsignedDecimal false r
      else unsignedDecimal false s
  end.

Definition StringToNumber (s : string) : number :=
  numericLiteral (trimEnd (trimStart (list_ascii_of_string s))).

(** ** Form entries *)

(** the value of a form entry: a string or a [File] *)
Inductive FormDataEntryValue : Type :=
| EntryString (s : string)
| EntryFile (name : string).

(** [Number(v)] for what [FormData.get] can return: [null], a string, or
    a [File] (an object, whose primitive value is the string
    "[object File]"). *)
Definition Number (v : option FormDataEntryValue) : number :=
  match v with
  | None => S754_zero false
  | Some (EntryString s) => StringToNumber s
  | Some (EntryFile _) => StringToNumber "[object File]"
  end.

(** ** FormData *)

Definition FormData : Type := list (string * FormDataEntryValue).

(** [formData.get(name)]: the first entry of that name, or [null]. *)
Fixpoint get (fd : FormData) (name : string) : option FormDataEntryValue :=
  match fd with
  | [] => None
  | (k, v) :: r => if String.eqb k name then Some v else get r name
  end.

(** ** Dates

    A [Date] is its time value: milliseconds since 1970-01-01T00:00Z. *)

Definition msPerDay : Z := 86400000.

(** year, month (1-12) and day of month of day number [z] (days since the
    epoch) in the proleptic Gregorian calendar *)
Definition civilFromDays (z : Z) : Z * Z * Z :=
  let z := z + 719468 in
  let era := z / 146097 in
  let doe := z - era * 146097 in
  let yoe := (doe - doe / 1460 + doe / 36524 - doe / 146096) / 365 in
  let doy := doe - (365 * yoe + yoe / 4 - yoe / 100) in
  let mp := (5 * doy + 2) / 153 in
  let d := doy - (153 * mp + 2) / 5 + 1 in
  let m := if mp <? 10 then mp + 3 else mp - 9 in
  (yoe + era * 400 + (if m <=? 2 then 1 else 0), m, d).

Definition digitChar (n : Z) : ascii := ascii_of_nat (Z.to_nat (48 + n mod 10)).

(** the last [w] decimal digits of [n], zero padded *)
Fixpoint padDigits (w : nat) (n : Z) : string :=
  match w with
  | O => ""
  | S w' => (padDigits w' (n / 10) ++ String (digitChar n) "")%string
  end.

(** four digits for the years 0 to 9999, a sign and six digits otherwise *)
Definition yearString (y : Z) : string :=
  if (0 <=? y) && (y <=? 9999) then padDigits 4 y
  else String (if y <? 0 then "-"%char else "+"%char) (padDigits 6 (Z.abs y)).

(** the calendar date of [toISOString]: YYYY-MM-DD *)
Definition isoDate (t : Z) : string :=
  let '(y, m, d) := civilFromDays (t / msPerDay) in
  (yearString y ++ "-" ++ padDigits 2 m ++ "-" ++ padDigits 2 d)%string.

(** the time of day of [toISOString]: HH:mm:ss.sssZ *)
Definition isoTime (t : Z) : string :=
  let ms := t mod msPerDay in
  (padDigits 2 (ms / 3600000) ++ ":" ++ padDigits 2 (ms / 60000 mod 60) ++ ":"
   ++ padDigits 2 (ms / 1000 mod 60) ++ "." ++ padDigits 3 (ms mod 1000)
   ++ "Z")%string.

(** [Date.prototype.toISOString] *)
Definition toISOString (t : Z) : string :=
  (isoDate t ++ "T" ++ isoTime t)%string.

(** [String.prototype.split] with a one-character separator *)
Fixpoint split (sep : ascii) (s : string) : list string :=
  match s with
  | EmptyString => [""]
  | String c r =>
      if Ascii.eqb c sep then "" :: split sep r
      else match split sep r with
           | h :: t => String c h :: t
           | [] => [String c ""]
           end
  end.

End JS.

(* ================================================================== *)
(** * The schema validator *)
(* ================================================================== *)

(** The part of zod (version 3) the two form schemas use: string schemas
    with their checks, a coerced number schema with its lower bound, an
    enumeration, and [safeParse] with [error.flatten().fieldErrors]. *)
Module Zod.

Import JS.

(** What parsing one field gives: the value, or the messages of the issues
    that were raised for it. *)
Inductive ParseReturn (A : Type) : Type :=
| OK (value : A)
| INVALID (issues : list string).
Arguments OK {A} value.
Arguments INVALID {A} issues.

(** the entry of a field in [fieldErrors]: absent when it has no issue *)
Definition fieldError {A} (r : ParseReturn A) : option (list string) :=
  match r with OK _ => None | INVALID i => Some i end.

(** the result of [safeParse]: [success] with [data], or the field errors
    of [error.flatten()] *)
Inductive SafeParseReturn (D E : Type) : Type :=
| Success (data : D)
| Failure (fieldErrors : E).
Arguments Success {D E} data.
Arguments Failure {D E} fieldErrors.

(** [typeof] names of the default messages *)
Definition parsedType (v : option FormDataEntryValue) : string :=
  match v with
  | None => "null"
  | Some (EntryString _) => "string"
  | Some (EntryFile _) => "object"
  end.

(** the message of an [invalid_type] issue: the schema's
    [invalid_type_error] when it has one, the default otherwise *)
Definition invalidType (invalid_type_error : option string)
    (expected received : string) : string :=
  match invalid_type_error with
  | Some m => m
  | None => ("Expected " ++ expected ++ ", received " ++ received)%string
  end.

(** ** Strings *)

Definition isLetter (c : ascii) : bool :=
  let n := code c in
  ((65 <=? n) && (n <=? 90)) || ((97 <=? n) && (n <=? 122)).

Definition isAlnum (c : ascii) : bool := isLetter c || isDigit c.

(** the class A-Z 0-9 _ and the range from + to . (which holds the comma
    and the hyphen too) *)
Definition isLocalChar (c : ascii) : bool :=
  isAlnum c || (code c =? 95) || ((43 <=? code c) && (code c <=? 46)).

(** the class A-Z 0-9 _ + - *)
Definition isLocalLast (c : ascii) : bool :=
  isAlnum c || (code c =? 95) || (code c =? 43) || (code c =? 45).

Fixpoint hasDotDot (s : chars) : bool :=
  match s with
  | a :: ((b :: _) as r) =>
      ((code a =? 46) && (code b =? 46)) || hasDotDot r
  | _ => false
  end.

(** the characters before the first [sep], and those after it *)
Fixpoint cut (sep : Z) (s : chars) : option (chars * chars) :=
  match s with
  | [] => None
  | c :: r =>
      if code c =? sep then Some ([], r)
      else match cut sep r with
           | Some (a, b) => Some (c :: a, b)
           | None => None
           end
  end.

(** a label: a letter or digit, then letters, digits and hyphens *)
Definition isLabel (l : chars) : bool :=
  match l with
  | c :: r => isAlnum c && forallb (fun x => isAlnum x || (code x =? 45)) r
  | [] => false
  end.

(** one or more labels, each followed by a dot, then two or more letters;
    [seen] tells that a label has been read already, [fuel] bounds the
    number of labels *)
Fixpoint isDomain (fuel : nat) (seen : bool) (d : chars) : bool :=
  match fuel with
  | O => false
  | S fuel' =>
      match cut 46 d with
      | Some (l, r) => isLabel l && isDomain fuel' true r
      | None => seen && (2 <=? Z.of_nat (List.length d)) && forallb isLetter d
      end
  end.

(** zod's pattern for [.email()], case insensitive: no leading dot and no
    two dots in a row anywhere; before the only [@], characters of
    [isLocalChar] ending in one of [isLocalLast]; after it, one or more
    labels, each followed by a dot, and then two or more letters. *)
Definition emailRegex (s : string) : bool :=
  let cs := list_ascii_of_string s in
  negb (hasDotDot cs)
  && match cs with c :: _ => negb (code c =? 46) | [] => true end
  && match cut 64 cs with
     | Some (c :: l, d) =>
         forallb isLocalChar (c :: l) && isLocalLast (last l c)
         && isDomain (S (List.length d)) false d
     | _ => false
     end.

Inductive StringCheck : Type :=
| trim
| min (value : nat) (message : string)
| email (message : string).

(** the loop over the checks of [ZodString._parse]: [trim] replaces the
    data, the others add an issue when they fail *)
Fixpoint stringChecks (cs : list StringCheck) (data : string)
    (issues : list string) : string * list string :=
  match cs with
  | [] => (data, issues)
  | trim :: r => stringChecks r (JS.trim data) issues
  | min n m :: r =>
      stringChecks r data
        (if (String.length data <? n)%nat then issues ++ [m] else issues)
  | email m :: r =>
      stringChecks r data (if emailRegex data then issues else issues ++ [m])
  end.

(** [z.string(...)] followed by its checks *)
Definition string_ (invalid_type_error : option string)
    (checks : list StringCheck) (input : option FormDataEntryValue)
    : ParseReturn string :=
  match input with
  | Some (EntryString s) =>
      match stringChecks checks s [] with
      | (data, []) => OK data
      | (_, issues) => INVALID issues
      end
  | _ => INVALID [invalidType invalid_type_error "string" (parsedType input)]
  end.

(** ** Numbers *)

(** [z.coerce.number().gt(value, { message })]: the input is replaced by
    [Number(input)]; NaN is not a number; the check of [gt] fails when
    [data <= value]. *)
Definition coerce_number_gt (value : number) (message : string)
    (input : option FormDataEntryValue) : ParseReturn number :=
  let data := Number input in
  if isNaN data then INVALID [invalidType None "number" "nan"]
  else if le data value then INVALID [message]
  else OK data.

(** ** Enumerations *)

Fixpoint joinValues (vs : list string) : string :=
  match vs with
  | [] => ""
  | [v] => ("'" ++ v ++ "'")%string
  | v :: r => ("'" ++ v ++ "' | " ++ joinValues r)%string
  end.

(** [z.enum(values, { invalid_type_error })] *)
Definition enum (values : list string) (invalid_type_error : option string)
    (input : option FormDataEntryValue) : ParseReturn string :=
  match input with
  | Some (EntryString s) =>
      if existsb (String.eqb s) values then OK s
      else INVALID [("Invalid enum value. Expected " ++ joinValues values
                     ++ ", received '" ++ s ++ "'")%string]
  | _ => INVALID [invalidType invalid_type_error (joinValues values)
                    (parsedType input)]
  end.

End Zod.

(* ================================================================== *)
(** * The relational store and the SQL client *)
(* ================================================================== *)

Module Sql.

Import JS.

(** Modelled from the spec: the layout of the two tables,
    [invoices(id, customer_id, amount, status, date)] and
    [customers(id, name, email, image_url)]. Their schema is not part of
    the action module, whose statements only name these columns. A column
    holds the value that was bound to it: the amount of an invoice is the
    number the action computed. *)
Record InvoiceRow : Type := {
  inv_id : string;
  inv_customer_id : string;
  inv_amount : number;
  inv_status : string;
  inv_date : string
}.

Record CustomerRow : Type := {
  cust_id : string;
  cust_name : string;
  cust_email : string;
  cust_image_url : string
}.

(** The identifier of an inserted row is not given by the statements: the
    store assigns it. [idSupply] is the sequence of identifiers it hands
    out and [assigned] the number of those already used. *)
Record Tables : Type := {
  invoices : list InvoiceRow;
  customers : list CustomerRow;
  idSupply : nat -> string;
  assigned : nat
}.

(** The nine statements of the action module, with their bound
    parameters. *)
Inductive Statement : Type :=
| INSERT_INTO_invoices (customer_id : string) (amount : number)
    (status date : string)
| UPDATE_invoices (customer_id : string) (amount : number) (status : string)
    (id : string)
| DELETE_FROM_invoices (id : string)
| INSERT_INTO_customers (name email : string)
| UPDATE_customers (name email : string) (id : string)
| DELETE_FROM_customers (id : string)
| SELECT_email_unused_except (email id : string)
| SELECT_email_unused (email : string)
| SELECT_assigned_to_invoice (id : string).

(** INSERT, UPDATE and DELETE, as opposed to the three queries *)
Definition isWrite (s : Statement) : bool :=
  match s with
  | SELECT_email_unused_except _ _ | SELECT_email_unused _
  | SELECT_assigned_to_invoice _ => false
  | _ => true
  end.

Definition neqb (a b : string) : bool := negb (String.eqb a b).

(** What a statement does to the tables, and the [case] column of the rows
    it returns (the three queries return one row, the others none). *)
Definition execute (s : Statement) (t : Tables) : Tables * list Z :=
  match s with
  | INSERT_INTO_invoices c a st d =>
      ({| invoices := invoices t ++
            [{| inv_id := idSupply t (assigned t); inv_customer_id := c;
                inv_amount := a; inv_status := st; inv_date := d |}];
          customers := customers t;
          idSupply := idSupply t; assigned := S (assigned t) |}, [])
  | UPDATE_invoices c a st id =>
      ({| invoices :=
            map (fun r => if String.eqb (inv_id r) id
                          then {| inv_id := inv_id r; inv_customer_id := c;
                                  inv_amount := a; inv_status := st;
                                  inv_date := inv_date r |}
                          else r) (invoices t);
          customers := customers t;
          idSupply := idSupply t; assigned := assigned t |}, [])
  | DELETE_FROM_invoices id =>
      ({| invoices := filter (fun r => neqb (inv_id r) id) (invoices t);
          customers := customers t;
          idSupply := idSupply t; assigned := assigned t |}, [])
  | INSERT_INTO_customers n e =>
      (* ON CONFLICT (id) DO NOTHING *)
      let id := idSupply t (assigned t) in
      ({| invoices := invoices t;
          customers :=
            if existsb (fun r => String.eqb (cust_id r) id) (customers t)
            then customers t
            else customers t ++
                   [{| cust_id := id; cust_name := n; cust_email := e;
                       cust_image_url := "" |}];
          idSupply := idSupply t; assigned := S (assigned t) |}, [])
  | UPDATE_customers n e id =>
      ({| invoices := invoices t;
          customers :=
            map (fun r => if String.eqb (cust_id r) id
                          then {| cust_id := cust_id r; cust_name := n;
                                  cust_email := e;
                                  cust_image_url := cust_image_url r |}
                          else r) (customers t);
          idSupply := idSupply t; assigned := assigned t |}, [])
  | DELETE_FROM_customers id =>
      ({| invoices := invoices t;
          customers := filter (fun r => neqb (cust_id r) id) (customers t);
          idSupply := idSupply t; assigned := assigned t |}, [])
  | SELECT_email_unused_except e id =>
      (t, [if existsb (fun r => String.eqb (cust_email r) e
                                && neqb (cust_id r) id) (customers t)
           then 0 else 1])
  | SELECT_email_unused e =>
      (t, [if existsb (fun r => String.eqb (cust_email r) e) (customers t)
           then 0 else 1])
  | SELECT_assigned_to_invoice id =>
      (t, [if existsb (fun r => String.eqb (inv_customer_id r) id)
                (invoices t)
           then 1 else 0])
  end.

End Sql.

(* ================================================================== *)
(** * Actions: state, exceptions and the trace of effects *)
(* ================================================================== *)

Module Effects.

Import JS Sql.

(** What can be thrown. [redirect] of next/navigation works by throwing;
    [AuthError] stands for the class of next-auth, with its [type]. *)
Inductive Error : Type :=
| NEXT_REDIRECT (url : string)
| DatabaseError (s : Statement)
| AuthError (type : string)
| TypeError (message : string)
| OtherError (message : string).

(** The effects an action has on its collaborators, in order. A SQL call
    and a sign-in can throw; [revalidatePath] and [new Date()] do not. *)
Inductive Event : Type :=
| Executed (s : Statement)        (* a SQL call that succeeded *)
| Rejected (s : Statement)        (* a SQL call that failed *)
| Revalidated (path : string)
| SignedIn (provider : string) (formData : FormData).

(** The environment of a request: the store; for the SQL calls to come, in
    order, whether each one fails ([true]; none fails once the list is
    used up); the clock; and what the authentication subsystem does with
    a sign-in ([None]: it returns). *)
Record World : Type := {
  tables : Tables;
  faults : list bool;
  clock : Z;
  auth : string -> FormData -> option Error
}.

Inductive Completion (A : Type) : Type :=
| Normal (value : A)
| Throw (e : Error).
Arguments Normal {A} value.
Arguments Throw {A} e.

Record Outcome (A : Type) : Type := {
  completion : Completion A;
  world : World;
  trace : list Event
}.
Arguments completion {A} o.
Arguments world {A} o.
Arguments trace {A} o.

(** An action is one request, run from its first statement to its last
    on its own: [bind] hands the store of one awaited call to the next as
    it is. What other requests may do to the store between two awaited
    calls is the subject of the module [Interleaved]. *)
Definition Action (A : Type) : Type := World -> Outcome A.

Definition ret {A} (a : A) : Action A :=
  fun w => {| completion := Normal a; world := w; trace := [] |}.

Definition throw {A} (e : Error) : Action A :=
  fun w => {| completion := Throw e; world := w; trace := [] |}.

Definition bind {A B} (m : Action A) (k : A -> Action B) : Action B :=
  fun w =>
    let o := m w in
    match completion o with
    | Normal a =>
        let o' := k a (world o) in
        {| completion := completion o'; world := world o';
           trace := trace o ++ trace o' |}
    | Throw e =>
        {| completion := Throw e; world := world o; trace := trace o |}
    end.

(** [try { m } catch (error) { handler error }] *)
Definition tryCatch {A} (m : Action A) (handler : Error -> Action A)
    : Action A :=
  fun w =>
    let o := m w in
    match completion o with
    | Normal _ => o
    | Throw e =>
        let o' := handler e (world o) in
        {| completion := completion o'; world := world o';
           trace := trace o ++ trace o' |}
    end.

Declare Scope action_scope.
Delimit Scope action_scope with action.
Notation "x <- m ;; k" := (bind m (fun x => k))
  (at level 100, m at next level, right associativity) : action_scope.
Notation "m ;;; k" := (bind m (fun _ => k))
  (at level 100, right associativity) : action_scope.

(** whether the SQL call to come is rejected *)
Definition nextFails (w : World) : bool := hd false (faults w).

(** the world after a SQL call that left the tables as [t] *)
Definition advance (t : Tables) (w : World) : World :=
  {| tables := t; faults := tl (faults w); clock := clock w; auth := auth w |}.

(** the [n] SQL calls to come are not rejected *)
Definition nextCallsSucceed (n : nat) (w : World) : Prop :=
  forall i, (i < n)%nat -> nth i (faults w) false = false.

(** [await sql`...`]: a rejected statement throws and leaves the tables as
    they were. *)
Definition sql (s : Statement) : Action (list Z) :=
  fun w =>
    if nextFails w then
      {| completion := Throw (DatabaseError s); world := advance (tables w) w;
         trace := [Rejected s] |}
    else
      let (t, rows) := execute s (tables w) in
      {| completion := Normal rows; world := advance t w;
         trace := [Executed s] |}.

(** [revalidatePath(path)] *)
Definition revalidatePath (path : string) : Action unit :=
  fun w => {| completion := Normal tt; world := w;
              trace := [Revalidated path] |}.

(** [redirect(path)]: never returns *)
Definition redirect {A} (path : string) : Action A :=
  throw (NEXT_REDIRECT path).

(** [new Date()] *)
Definition newDate : Action Z :=
  fun w => {| completion := Normal (clock w); world := w; trace := [] |}.

(** [await signIn(provider, formData)] *)
Definition signIn (provider : string) (formData : FormData) : Action unit :=
  fun w =>
    {| completion := match auth w provider formData with
                     | None => Normal tt
                     | Some e => Throw e
                     end;
       world := w; trace := [SignedIn provider formData] |}.

End Effects.

(* ================================================================== *)
(** * The action module *)
(* ================================================================== *)

Module Actions.

Import JS Zod Sql Effects.
Local Open Scope action_scope.

(** ** Schemas *)

(** the fields of [FormSchema] that [CreateInvoice] and [UpdateInvoice]
    keep ([id] and [date] are omitted) *)
Definition FormSchema_customerId :=
  Zod.string_ (Some "Please select a customer.") [].
Definition FormSchema_amount :=
  Zod.coerce_number_gt (of_Z 0) "Please enter an amount greater than $0.".
Definition FormSchema_status :=
  Zod.enum ["pending"; "paid"] (Some "Please select an invoice status.").

(** the fields of [CustomerFormSchema] that [CreateCustomer] and
    [UpdateCustomer] keep ([id] is omitted) *)
Definition CustomerFormSchema_name :=
  Zod.string_ None [Zod.trim; Zod.min 1 "Name is required"].
Definition CustomerFormSchema_email :=
  Zod.string_ None [Zod.trim; Zod.email "Invalid email address"].

Record InvoiceData : Type := {
  customerId : string;
  amount : number;
  status : string
}.

Record InvoiceErrors : Type := {
  err_customerId : option (list string);
  err_amount : option (list string);
  err_status : option (list string)
}.

Record State : Type := {
  errors : option InvoiceErrors;
  message : option string
}.

Record CustomerData : Type := {
  name : string;
  email : string
}.

Record CustomerErrors : Type := {
  err_name : option (list string);
  err_email : option (list string)
}.

Record CustomerState : Type := {
  c_errors : option CustomerErrors;
  c_message : option string
}.

(** [CreateInvoice.safeParse({ customerId, amount, status })] *)
Definition CreateInvoice_safeParse
    (customerId amount status : option FormDataEntryValue)
    : SafeParseReturn InvoiceData InvoiceErrors :=
  match FormSchema_customerId customerId, FormSchema_amount amount,
        FormSchema_status status with
  | OK c, OK a, OK s =>
      Success {| customerId := c; amount := a; status := s |}
  | rc, ra, rs =>
      Failure {| err_customerId := fieldError rc; err_amount := fieldError ra;
                 err_status := fieldError rs |}
  end.

Definition UpdateInvoice_safeParse := CreateInvoice_safeParse.

(** [CreateCustomer.safeParse({ name, email })] *)
Definition CreateCustomer_safeParse (name email : option FormDataEntryValue)
    : SafeParseReturn CustomerData CustomerErrors :=
  match CustomerFormSchema_name name, CustomerFormSchema_email email with
  | OK n, OK e => Success {| name := n; email := e |}
  | rn, re =>
      Failure {| err_name := fieldError rn; err_email := fieldError re |}
  end.

Definition UpdateCustomer_safeParse := CreateCustomer_safeParse.

(** ** Invoices *)

Definition createInvoice (prevState : State) (formData : FormData)
    : Action State :=
  match CreateInvoice_safeParse (get formData "customerId")
          (get formData "amount") (get formData "status") with
  | Failure fieldErrors =>
      ret {| errors := Some fieldErrors;
             message := Some "Missing Fields. Failed to Create Invoice." |}
  | Success data =>
      let amountInCents := mul (amount data) (of_Z 100) in
      now <- newDate ;;
      let date := nth 0 (split "T" (toISOString now)) "" in
      failed <-
        tryCatch
          (sql (INSERT_INTO_invoices (customerId data) amountInCents
                  (status data) date) ;;;
           ret None)
          (fun error =>
             ret (Some {| errors := None;
                          message :=
                            Some "Database Error: Failed to Create Invoice." |})) ;;
      match failed with
      | Some result => ret result
      | None =>
          revalidatePath "/dashboard/invoices" ;;;
          redirect "/dashboard/invoices"
      end
  end.

Definition updateInvoice (id : string) (prevState : State)
    (formData : FormData) : Action State :=
  match UpdateInvoice_safeParse (get formData "customerId")
          (get formData "amount") (get formData "status") with
  | Failure fieldErrors =>
      ret {| errors := Some fieldErrors;
             message := Some "Missing Fields. Failed to Update Invoice." |}
  | Success data =>
      let amountInCents := mul (amount data) (of_Z 100) in
      failed <-
        tryCatch
          (sql (UPDATE_invoices (customerId data) amountInCents (status data)
                  id) ;;;
           ret None)
          (fun error =>
             ret (Some {| errors := None;
                          message :=
                            Some "Database Error: Failed to Update Invoice." |})) ;;
      match failed with
      | Some result => ret result
      | None =>
          revalidatePath "/dashboard/invoices" ;;;
          redirect "/dashboard/invoices"
      end
  end.

Definition deleteInvoice (id : string) : Action State :=
  tryCatch
    (sql (DELETE_FROM_invoices id) ;;;
     revalidatePath "/dashboard/invoices" ;;;
     ret {| errors := None; message := Some "Deleted Invoice." |})
    (fun error =>
       ret {| errors := None;
              message := Some "Database Error: Failed to Delete Invoice." |}).

(** ** Customers *)

(** [if (customerId)]: an identifier was given and it is not the empty
    string. [result.rows[0].case === 1]; reading [case] of a missing row
    is a [TypeError]. *)
Definition isEmailUnique (email : string) (customerId : option string)
    : Action bool :=
  result <-
    match customerId with
    | Some id =>
        if String.eqb id "" then sql (SELECT_email_unused email)
        else sql (SELECT_email_unused_except email id)
    | None => sql (SELECT_email_unused email)
    end ;;
  match result with
  | row :: _ => ret (row =? 1)
  | [] => throw (TypeError "Cannot read properties of undefined")
  end.

Definition createCustomer (prevState : CustomerState) (formData : FormData)
    : Action CustomerState :=
  match CreateCustomer_safeParse (get formData "name")
          (get formData "email") with
  | Failure fieldErrors =>
      ret {| c_errors := Some fieldErrors;
             c_message := Some "Missing Fields. Failed to Create Customer." |}
  | Success data =>
      unique <- isEmailUnique (email data) None ;;
      if negb unique then
        ret {| c_errors :=
                 Some {| err_name := None;
                         err_email := Some ["Email is already is use."] |};
               c_message := Some "Missing Fields. Failed to Create Customer." |}
      else
        failed <-
          tryCatch
            (sql (INSERT_INTO_customers (name data) (email data)) ;;;
             ret None)
            (fun error =>
               ret (Some {| c_errors := None;
                            c_message :=
                              Some "Database Error: Failed to Create Customer." |})) ;;
        match failed with
        | Some result => ret result
        | None =>
            revalidatePath "/dashboard/customers" ;;;
            redirect "/dashboard/customers"
        end
  end.

Definition updateCustomer (id : string) (prevState : CustomerState)
    (formData : FormData) : Action CustomerState :=
  match UpdateCustomer_safeParse (get formData "name")
          (get formData "email") with
  | Failure fieldErrors =>
      ret {| c_errors := Some fieldErrors;
             c_message := Some "Missing Fields. Failed to Create Customer." |}
  | Success data =>
      unique <- isEmailUnique (email data) (Some id) ;;
      if negb unique then
        ret {| c_errors :=
                 Some {| err_name := None;
                         err_email := Some ["Email is already is use."] |};
               c_message := Some "Missing Fields. Failed to Create Customer." |}
      else
        failed <-
          tryCatch
            (sql (UPDATE_customers (name data) (email data) id) ;;;
             ret None)
            (fun error =>
               ret (Some {| c_errors := None;
                            c_message :=
                              Some "Database Error: Failed to Update Customer." |})) ;;
        match failed with
        | Some result => ret result
        | None =>
            revalidatePath "/dashboard/customers" ;;;
            redirect "/dashboard/customers"
        end
  end.

Definition deleteCustomer (id : string) : Action CustomerState :=
  tryCatch
    (isAssignedToAnyInvoice <- sql (SELECT_assigned_to_invoice id) ;;
     match isAssignedToAnyInvoice with
     | [] => throw (TypeError "Cannot read properties of undefined")
     | row :: _ =>
         if row =? 0 then
           sql (DELETE_FROM_customers id) ;;;
           revalidatePath "/dashboard/customers" ;;;
           ret {| c_errors := None; c_message := Some "Deleted Customer." |}
         else
           ret {| c_errors := None;
                  c_message :=
                    Some "Cannot delete Customer who is already assigned to any Invoice." |}
     end)
    (fun error =>
       ret {| c_errors := None;
              c_message := Some "Database Error: Failed to Delete Customer." |}).

(** ** Authentication *)

(** The result is a string or [undefined] ([None]). *)
Definition authenticate (prevState : option string) (formData : FormData)
    : Action (option string) :=
  tryCatch
    (signIn "credentials" formData ;;; ret None)
    (fun error =>
       match error with
       | AuthError type =>
           if String.eqb type "CredentialsSignin"
           then ret (Some "Invalid credentials.")
           else ret (Some "Something went wrong.")
       | _ => throw error
       end).

End Actions.

(* ================================================================== *)
(** * Other requests between the check and the write *)
(* ================================================================== *)

(** The customer actions await a query and then, separately, their write;
    they take no lock and open no transaction. Here they are again, with
    what the other requests do to the store in between. *)
Module Interleaved.

Import JS Zod Sql Effects Actions.
Local Open Scope action_scope.

(** the store the next awaited call meets is [others] of the store the
    last one left *)
Definition meanwhile (others : Tables -> Tables) : Action unit :=
  fun w => {| completion := Normal tt;
              world := {| tables := others (tables w); faults := faults w;
                          clock := clock w; auth := auth w |};
              trace := [] |}.

Definition createCustomer (others : Tables -> Tables)
    (prevState : CustomerState) (formData : FormData)
    : Action CustomerState :=
  match CreateCustomer_safeParse (get formData "name")
          (get formData "email") with
  | Failure fieldErrors =>
      ret {| c_errors := Some fieldErrors;
             c_message := Some "Missing Fields. Failed to Create Customer." |}
  | Success data =>
      unique <- isEmailUnique (email data) None ;;
      if negb unique then
        ret {| c_errors :=
                 Some {| err_name := None;
                         err_email := Some ["Email is already is use."] |};
               c_message := Some "Missing Fields. Failed to Create Customer." |}
      else
        meanwhile others ;;;
        failed <-
          tryCatch
            (sql (INSERT_INTO_customers (name data) (email data)) ;;;
             ret None)
            (fun error =>
               ret (Some {| c_errors := None;
                            c_message :=
                              Some "Database Error: Failed to Create Customer." |})) ;;
        match failed with
        | Some result => ret result
        | None =>
            revalidatePath "/dashboard/customers" ;;;
            redirect "/dashboard/customers"
        end
  end.

Definition updateCustomer (others : Tables -> Tables) (id : string)
    (prevState : CustomerState) (formData : FormData)
    : Action CustomerState :=
  match UpdateCustomer_safeParse (get formData "name")
          (get formData "email") with
  | Failure fieldErrors =>
      ret {| c_errors := Some fieldErrors;
             c_message := Some "Missing Fields. Failed to Create Customer." |}
  | Success data =>
      unique <- isEmailUnique (email data) (Some id) ;;
      if negb unique then
        ret {| c_errors :=
                 Some {| err_name := None;
                         err_email := Some ["Email is already is use."] |};
               c_message := Some "Missing Fields. Failed to Create Customer." |}
      else
        meanwhile others ;;;
        failed <-
          tryCatch
            (sql (UPDATE_customers (name data) (email data) id) ;;;
             ret None)
            (fun error =>
               ret (Some {| c_errors := None;
                            c_message :=
                              Some "Database Error: Failed to Update Customer." |})) ;;
        match failed with
        | Some result => ret result
        | None =>
            revalidatePath "/dashboard/customers" ;;;
            redirect "/dashboard/customers"
        end
  end.

Definition deleteCustomer (others : Tables -> Tables) (id : string)
    : Action CustomerState :=
  tryCatch
    (isAssignedToAnyInvoice <- sql (SELECT_assigned_to_invoice id) ;;
     match isAssignedToAnyInvoice with
     | [] => throw (TypeError "Cannot read properties of undefined")
     | row :: _ =>
         if row =? 0 then
           meanwhile others ;;;
           sql (DELETE_FROM_customers id) ;;;
           revalidatePath "/dashboard/customers" ;;;
           ret {| c_errors := None; c_message := Some "Deleted Customer." |}
         else
           ret {| c_errors := None;
                  c_message :=
                    Some "Cannot delete Customer who is already assigned to any Invoice." |}
     end)
    (fun error =>
       ret {| c_errors := None;
              c_message := Some "Database Error: Failed to Delete Customer." |}).

End Interleaved.

(* ================================================================== *)
(** * Vocabulary of the properties *)
(* ================================================================== *)

Import JS Zod Sql Effects Actions.

(** [c] does not occur in [s] *)
Fixpoint lacks (c : ascii) (s : string) : bool :=
  match s with
  | EmptyString => true
  | String a r => negb (Ascii.eqb a c) && lacks c r
  end.

(** what the invoice forms validate to *)
Definition invoiceForm (formData : FormData) :=
  CreateInvoice_safeParse (get formData "customerId")
    (get formData "amount") (get formData "status").

(** the statements the two actions send for validated data *)
Definition insertInvoice (data : InvoiceData) (w : World) : Statement :=
  INSERT_INTO_invoices (customerId data) (mul (amount data) (of_Z 100))
    (status data) (isoDate (clock w)).

Definition updateInvoiceStmt (id : string) (data : InvoiceData) : Statement :=
  UPDATE_invoices (customerId data) (mul (amount data) (of_Z 100))
    (status data) id.

(** what the customer forms validate to *)
Definition customerForm (formData : FormData) :=
  CreateCustomer_safeParse (get formData "name") (get formData "email").

(** the query [isEmailUnique] sends *)
Definition uniqueQuery (email : string) (customerId : option string)
    : Statement :=
  match customerId with
  | Some id => if String.eqb id "" then SELECT_email_unused email
               else SELECT_email_unused_except email id
  | None => SELECT_email_unused email
  end.

(** some customer row counted by that query holds [email] *)
Definition emailTaken (email : string) (customerId : option string)
    (t : Tables) : bool :=
  match customerId with
  | Some id =>
      if String.eqb id ""
      then existsb (fun r => String.eqb (cust_email r) email) (customers t)
      else existsb (fun r => String.eqb (cust_email r) email
                             && neqb (cust_id r) id) (customers t)
  | None => existsb (fun r => String.eqb (cust_email r) email) (customers t)
  end.

Definition emailInUse : CustomerState :=
  {| c_errors := Some {| err_name := None;
                         err_email := Some ["Email is already is use."] |};
     c_message := Some "Missing Fields. Failed to Create Customer." |}.

(** some invoice row references customer [id] *)
Definition referenced (id : string) (t : Tables) : bool :=
  existsb (fun r => String.eqb (inv_customer_id r) id) (invoices t).

Definition refusal : CustomerState :=
  {| c_errors := None;
     c_message :=
       Some "Cannot delete Customer who is already assigned to any Invoice." |}.

Definition deleteFailed : CustomerState :=
  {| c_errors := None;
     c_message := Some "Database Error: Failed to Delete Customer." |}.

(** an amount field that is not numeric, or at most zero, once coerced *)
Definition amountRefused (v : option FormDataEntryValue) : Prop :=
  isNaN (Number v) = true \/ le (Number v) (of_Z 0) = true.

(** a status field that is neither of the two values of the enumeration *)
Definition statusOutside (v : option FormDataEntryValue) : Prop :=
  v <> Some (EntryString "pending") /\ v <> Some (EntryString "paid").

(** row by row, [after] has the identifiers and the dates of [before], and
    the rows whose identifier is not [id] are the same *)
Definition keepsDates (id : string) (before after : list InvoiceRow) : Prop :=
  Forall2 (fun r r' => inv_id r' = inv_id r /\ inv_date r' = inv_date r
                       /\ (inv_id r <> id -> r' = r)) before after.

(** the run executed an INSERT, UPDATE or DELETE *)
Definition wrote {A} (o : Outcome A) : Prop :=
  exists s, isWrite s = true /\ In (Executed s) (trace o).

(** the last two effects of the run are a write that was executed and the
    invalidation of [path] *)
Definition wroteThenInvalidated {A} (path : string) (o : Outcome A) : Prop :=
  exists before s, isWrite s = true
    /\ trace o = before ++ [Executed s; Revalidated path].

(** the run had a SQL call rejected: any call, or a write *)
Definition callRejected {A} (o : Outcome A) : Prop :=
  exists s, In (Rejected s) (trace o).

Definition writeRejected {A} (o : Outcome A) : Prop :=
  exists s, isWrite s = true /\ In (Rejected s) (trace o).

(** the run returned a message that begins with "Database Error" and
    invalidated nothing *)
Definition reportsDatabaseError {A} (message : A -> option string)
    (o : Outcome A) : Prop :=
  (exists r m, completion o = Normal r /\ message r = Some m
               /\ String.prefix "Database Error" m = true)
  /\ forall path, ~ In (Revalidated path) (trace o).

Definition isAuthError (e : Error) : bool :=
  match e with AuthError _ => true | _ => false end.

(** ** Sample data *)

Module Sample.

Definition alice : CustomerRow :=
  {| cust_id := "9"; cust_name := "Alice"; cust_email := "a@x.com";
     cust_image_url := "" |}.

Definition bob : CustomerRow :=
  {| cust_id := "5"; cust_name := "Bob"; cust_email := "b@x.com";
     cust_image_url := "" |}.

Definition invoice1 : InvoiceRow :=
  {| inv_id := "i1"; inv_customer_id := "9"; inv_amount := of_Z 1500;
     inv_status := "paid"; inv_date := "2023-01-31" |}.

Definition store : Tables :=
  {| invoices := [invoice1]; customers := [alice; bob];
     idSupply := fun n => String (ascii_of_nat (97 + n)) "";
     assigned := 0 |}.

(** 2023-11-14T22:13:20Z; no sign-in fails *)
Definition env (faults : list bool) : World :=
  {| tables := store; faults := faults; clock := 1700000000000;
     auth := fun _ _ => None |}.

(** an authentication subsystem that fails every sign-in with [e] *)
Definition failing (e : Error) : World :=
  {| tables := store; faults := []; clock := 1700000000000;
     auth := fun _ _ => Some e |}.

Definition noState : State := {| errors := None; message := None |}.
Definition noCustomerState : CustomerState :=
  {| c_errors := None; c_message := None |}.

Definition invoiceFields (amount status : string) : FormData :=
  [("customerId", EntryString "c1"); ("amount", EntryString amount);
   ("status", EntryString status)].

Definition customerFields (name email : string) : FormData :=
  [("name", EntryString name); ("email", EntryString email)].

Definition credentials : FormData :=
  [("email", EntryString "user@nextmail.com");
   ("password", EntryString "123456")].

End Sample.

(** ** Vocabulary of the further properties *)

(** [0 < x] *)
Definition positive (x : number) : bool := SFltb (of_Z 0) x.

(** one of the two values of the status enumeration *)
Definition statusValid (s : string) : Prop := s = "pending" \/ s = "paid".

(** a field that is not a string: missing, or a file *)
Definition notString (v : option FormDataEntryValue) : Prop :=
  forall s, v <> Some (EntryString s).

(** a name field that is not a string, or is blank once trimmed *)
Definition nameRefused (v : option FormDataEntryValue) : Prop :=
  forall raw, v = Some (EntryString raw) -> JS.trim raw = "".

(** an email field that is not a string, or does not match the pattern
    once trimmed *)
Definition emailRefused (v : option FormDataEntryValue) : Prop :=
  forall raw, v = Some (EntryString raw) -> emailRegex (JS.trim raw) = false.

(** every invoice has one of the two statuses *)
Definition statusesValid (t : Tables) : Prop :=
  Forall (fun r => statusValid (inv_status r)) (invoices t).

(** no two customers share an email; no two customers share an id *)
Definition emailsUnique (t : Tables) : Prop :=
  NoDup (map cust_email (customers t)).

Definition idsUnique (t : Tables) : Prop :=
  NoDup (map cust_id (customers t)).

(** every invoice references a customer of the table *)
Definition referencesResolve (t : Tables) : Prop :=
  forall r, In r (invoices t) ->
  exists c, In c (customers t) /\ cust_id c = inv_customer_id r.

(** the number of SQL calls of a trace, and of those that are writes *)
Definition isCall (e : Event) : bool :=
  match e with Executed _ | Rejected _ => true | _ => false end.

Definition isWriteCall (e : Event) : bool :=
  match e with Executed s | Rejected s => isWrite s | _ => false end.

Definition calls (tr : list Event) : nat := List.length (filter isCall tr).
Definition writeCalls (tr : list Event) : nat :=
  List.length (filter isWriteCall tr).

(** the identifier the store gives to the row inserted next *)
Definition nextId (t : Tables) : string := idSupply t (assigned t).

(** the rows of an UPDATE of customers: identifiers and image_url kept *)
Definition updatedCustomer (n e id : string) (r : CustomerRow) : CustomerRow :=
  if String.eqb (cust_id r) id
  then {| cust_id := cust_id r; cust_name := n; cust_email := e;
          cust_image_url := cust_image_url r |}
  else r.

(** a date of the form YYYY-MM-DD, ten characters, from 1970 to 9999 *)
Definition isCalendarDate (s : string) : Prop :=
  String.length s = 10%nat
  /\ exists y m d,
       1970 <= y <= 9999 /\ 1 <= m <= 12 /\ 1 <= d <= 31
       /\ s = (padDigits 4 y ++ "-" ++ padDigits 2 m ++ "-"
               ++ padDigits 2 d)%string.

(** a string that [trim] leaves as it is *)
Definition trimmed (s : string) : Prop := JS.trim s = s.

(** a customer row as the form schema lets it in: a name that is not
    empty, an email that matches the pattern, both trimmed *)
Definition customerValid (r : CustomerRow) : Prop :=
  cust_name r <> "" /\ trimmed (cust_name r)
  /\ emailRegex (cust_email r) = true /\ trimmed (cust_email r).

Definition customersValid (t : Tables) : Prop :=
  Forall customerValid (customers t).

(** whether [s] begins with a white space character, as told by [w1],
    [w2] and [w3] *)
Definition headSpace (w1 : ascii -> bool) (w2 : ascii -> ascii -> bool)
    (w3 : ascii -> ascii -> ascii -> bool) (s : chars) : bool :=
  match s with
  | [] => false
  | a :: r =>
      w1 a
      || match r with
         | [] => false
         | b :: r' =>
             w2 a b
             || match r' with [] => false | c :: _ => w3 a b c end
         end
  end.

(** U+00A0, the no-break space, in UTF-8 *)
Definition nbsp : string :=
  String (ascii_of_nat 194) (String (ascii_of_nat 160) "").

(** U+FEFF, the byte order mark, and U+200B, the zero width space, in
    UTF-8: the first is white space to ECMAScript, the second is not *)
Definition bom : string :=
  String (ascii_of_nat 239) (String (ascii_of_nat 187)
    (String (ascii_of_nat 191) "")).

Definition zwsp : string :=
  String (ascii_of_nat 226) (String (ascii_of_nat 128)
    (String (ascii_of_nat 139) "")).

(** no other request changes the store between the check and the write *)
Definition isolated (others : Tables -> Tables) : Prop :=
  forall t, others t = t.

(** another request's statement, executed in between *)
Definition meanwhileExecuted (s : Statement) : Tables -> Tables :=
  fun t => fst (execute s t).

(** the next two identifiers of the store are new and differ *)
Definition nextIdsFresh (t : Tables) : Prop :=
  nextId t <> idSupply t (S (assigned t))
  /\ forall r, In r (customers t) ->
       cust_id r <> nextId t /\ cust_id r <> idSupply t (S (assigned t)).

(* ================================================================== *)
(** * The page that edits a customer *)
(* ================================================================== *)

Module EditCustomerPage.

(** an entry of the [breadcrumbs] given to the Breadcrumbs component;
    [active] is optional *)
Record Breadcrumb : Type := {
  label : string;
  href : string;
  active : option bool
}.

(** the [breadcrumbs] of the page for the customer [id] of the route *)
Definition breadcrumbs (id : string) : list Breadcrumb :=
  [ {| label := "Customers"; href := "/dashboard/customers";
       active := None |};
    {| label := "Edit Customer";
       href := ("/dashboard/customers/" ++ id ++ "edit")%string;
       active := Some true |} ].

(** the path the page is served at, given by the place of its file:
    app/dashboard/customers/[id]/edit/page.tsx *)
Definition route (id : string) : string :=
  ("/dashboard/customers/" ++ id ++ "/edit")%string.

End EditCustomerPage.

(* ================================================================== *)
(** * Properties *)
(* ================================================================== *)

(** ** The runtime on known values *)

Example Number_decimal :
  StringToNumber "49.99" = S754_finite false 7035467042882847 (-47).
Proof. vm_compute. reflexivity. Qed.

Example Number_forms :
  StringToNumber " 12 " = of_Z 12 /\ StringToNumber "" = S754_zero false
  /\ StringToNumber "1e3" = of_Z 1000 /\ StringToNumber "0x1F" = of_Z 31
  /\ StringToNumber "-0" = S754_zero true
  /\ StringToNumber "-Infinity" = S754_infinity true
  /\ StringToNumber "12px" = NaN /\ StringToNumber "1,5" = NaN
  /\ Number None = S754_zero false /\ Number (Some (EntryFile "a.pdf")) = NaN.
Proof. vm_compute. repeat split. Qed.

(** the product by 100 is rounded: 19.99 does not give 1999 *)
Example cents_19_99 :
  mul (StringToNumber "19.99") (of_Z 100)
  = S754_finite false 8791694975696895 (-42)
  /\ to_Z (mul (StringToNumber "19.99") (of_Z 100)) = None.
Proof. vm_compute. split; reflexivity. Qed.

Example toISOString_values :
  toISOString 0 = "1970-01-01T00:00:00.000Z"
  /\ toISOString 1700000000000 = "2023-11-14T22:13:20.000Z"
  /\ toISOString 1709251199999 = "2024-02-29T23:59:59.999Z"
  /\ toISOString (-1) = "1969-12-31T23:59:59.999Z"
  /\ toISOString 253402300800000 = "+010000-01-01T00:00:00.000Z".
Proof. vm_compute. repeat split. Qed.

Example split_values :
  split "T" "2023-11-14T22:13:20.000Z" = ["2023-11-14"; "22:13:20.000Z"]
  /\ split "T" "" = [""] /\ split "T" "aTbT" = ["a"; "b"; ""].
Proof. vm_compute. repeat split. Qed.

Example trim_values :
  JS.trim "  Ann Lee " = "Ann Lee" /\ JS.trim "   " = "".
Proof. vm_compute. split; reflexivity. Qed.

(** white space is the ECMAScript set, read from the UTF-8 bytes: U+00A0
    and U+FEFF are stripped by [trim] and by [Number], U+200B is not *)
Example white_space_values :
  JS.trim nbsp = ""
  /\ JS.trim (nbsp ++ "a@x.com" ++ nbsp)%string = "a@x.com"
  /\ StringToNumber (nbsp ++ "5")%string = of_Z 5
  /\ StringToNumber (bom ++ "5 ")%string = of_Z 5
  /\ JS.trim zwsp = zwsp
  /\ StringToNumber (zwsp ++ "5")%string = NaN.
Proof. vm_compute. repeat split; reflexivity. Qed.

Example white_space_forms :
  customerForm (Sample.customerFields nbsp "a@x.com")
  = Failure {| err_name := Some ["Name is required"]; err_email := None |}
  /\ customerForm
       (Sample.customerFields "Al" (nbsp ++ "a@x.com" ++ nbsp)%string)
     = Success {| name := "Al"; email := "a@x.com" |}
  /\ option_map amount
       (match invoiceForm
                (Sample.invoiceFields (nbsp ++ "5")%string "paid") with
        | Success d => Some d
        | Failure _ => None
        end)
     = Some (of_Z 5)
  /\ map inv_amount
       (invoices
          (tables
             (world (createInvoice Sample.noState
                       (Sample.invoiceFields (nbsp ++ "5")%string "paid")
                       (Sample.env [])))))
     = [of_Z 1500; of_Z 500].
Proof. vm_compute. repeat split; reflexivity. Qed.

Example emailRegex_values :
  map emailRegex ["a@x.com"; "A_b+c@sub.Example.ORG"; "a@x"; ".a@x.com";
                  "a..b@x.com"; "a.@x.com"; "a@b@c.com"; "a b@x.com"; ""]
  = [true; true; false; false; false; false; false; false; false].
Proof. vm_compute. reflexivity. Qed.

Example schema_messages :
  FormSchema_customerId None = INVALID ["Please select a customer."]
  /\ FormSchema_amount (Some (EntryString "abc"))
     = INVALID ["Expected number, received nan"]
  /\ FormSchema_amount (Some (EntryString "0"))
     = INVALID ["Please enter an amount greater than $0."]
  /\ FormSchema_status None = INVALID ["Please select an invoice status."]
  /\ CustomerFormSchema_name (Some (EntryString "  "))
     = INVALID ["Name is required"]
  /\ CustomerFormSchema_email (Some (EntryString " a@x.com "))
     = OK "a@x.com"
  /\ CustomerFormSchema_email (Some (EntryString "a.x.com"))
     = INVALID ["Invalid email address"].
Proof. vm_compute. repeat split. Qed.


(** ** The calendar date of an ISO time stamp *)

Lemma lacks_app c a b : lacks c (a ++ b)%string = lacks c a && lacks c b.
Proof.
  induction a as [|x a IH]; simpl; [reflexivity|].
  now rewrite IH, andb_assoc.
Qed.

Lemma split_first sep p r :
  lacks sep p = true ->
  split sep (p ++ String sep r)%string = p :: split sep r.
Proof.
  induction p as [|x p IH]; simpl.
  - intros _. now rewrite Ascii.eqb_refl.
  - intros H. apply andb_true_iff in H as [Hx Hp].
    apply negb_true_iff in Hx. rewrite Hx, (IH Hp). reflexivity.
Qed.

Lemma digitChar_not_T n : Ascii.eqb (digitChar n) "T" = false.
Proof.
  unfold digitChar.
  assert (H : 0 <= n mod 10 < 10) by (apply Z.mod_pos_bound; lia).
  assert (E : n mod 10 = 0 \/ n mod 10 = 1 \/ n mod 10 = 2 \/ n mod 10 = 3
              \/ n mod 10 = 4 \/ n mod 10 = 5 \/ n mod 10 = 6
              \/ n mod 10 = 7 \/ n mod 10 = 8 \/ n mod 10 = 9) by lia.
  repeat (destruct E as [E|E]; [rewrite E; reflexivity|]).
  rewrite E; reflexivity.
Qed.

Lemma lacks_padDigits w : forall n, lacks "T" (padDigits w n) = true.
Proof.
  induction w as [|w IH]; intros n; simpl; [reflexivity|].
  rewrite lacks_app, IH. simpl. now rewrite digitChar_not_T.
Qed.

Lemma lacks_yearString y : lacks "T" (yearString y) = true.
Proof.
  unfold yearString.
  destruct ((0 <=? y) && (y <=? 9999)); [apply lacks_padDigits|].
  destruct (y <? 0); cbn [lacks]; rewrite lacks_padDigits; reflexivity.
Qed.

Lemma lacks_isoDate t : lacks "T" (isoDate t) = true.
Proof.
  unfold isoDate. destruct (civilFromDays (t / msPerDay)) as [[y m] d].
  rewrite !lacks_app, lacks_yearString, !lacks_padDigits. reflexivity.
Qed.

(** [toISOString().split('T')[0]] is the calendar date. *)
Lemma split_toISOString t :
  nth 0 (split "T" (toISOString t)) "" = isoDate t.
Proof.
  unfold toISOString.
  change (isoDate t ++ "T" ++ isoTime t)%string
    with (isoDate t ++ String "T" (isoTime t))%string.
  rewrite split_first by apply lacks_isoDate. reflexivity.
Qed.

(** ** The SQL client *)

Lemma sql_executed s w :
  nextFails w = false ->
  sql s w = {| completion := Normal (snd (execute s (tables w)));
               world := advance (fst (execute s (tables w))) w;
               trace := [Executed s] |}.
Proof.
  intros H. unfold sql. rewrite H. now destruct (execute s (tables w)).
Qed.

Lemma sql_rejected s w :
  nextFails w = true ->
  sql s w = {| completion := Throw (DatabaseError s);
               world := advance (tables w) w; trace := [Rejected s] |}.
Proof. intros H. unfold sql. now rewrite H. Qed.

Lemma nextCallsSucceed_head n w :
  nextCallsSucceed (S n) w -> nextFails w = false.
Proof.
  intros H. specialize (H 0%nat (Nat.lt_0_succ n)).
  unfold nextFails. now destruct (faults w).
Qed.

Lemma nextCallsSucceed_advance n t w :
  nextCallsSucceed (S n) w -> nextCallsSucceed n (advance t w).
Proof.
  intros H i Hi. specialize (H (S i) (proj1 (Nat.succ_lt_mono i n) Hi)).
  unfold advance; simpl. destruct (faults w); [now destruct i | exact H].
Qed.

(** ** What each run of an invoice action is

    One equation per path through the action: validation failure, write
    rejected, write executed. *)

Ltac run_action :=
  unfold bind, tryCatch, ret, throw, redirect, revalidatePath, newDate;
  cbn [completion world trace app].

Lemma createInvoice_invalid prevState formData w fieldErrors :
  invoiceForm formData = Failure fieldErrors ->
  createInvoice prevState formData w =
  {| completion :=
       Normal {| errors := Some fieldErrors;
                 message := Some "Missing Fields. Failed to Create Invoice." |};
     world := w; trace := [] |}.
Proof.
  unfold invoiceForm, createInvoice. intros ->. reflexivity.
Qed.

Lemma createInvoice_rejected prevState formData w data :
  invoiceForm formData = Success data ->
  nextFails w = true ->
  createInvoice prevState formData w =
  {| completion :=
       Normal {| errors := None;
                 message := Some "Database Error: Failed to Create Invoice." |};
     world := advance (tables w) w;
     trace := [Rejected (insertInvoice data w)] |}.
Proof.
  unfold invoiceForm, createInvoice. intros -> Hf.
  run_action. rewrite split_toISOString, (sql_rejected _ _ Hf).
  reflexivity.
Qed.

Lemma createInvoice_executed prevState formData w data :
  invoiceForm formData = Success data ->
  nextFails w = false ->
  createInvoice prevState formData w =
  {| completion := Throw (NEXT_REDIRECT "/dashboard/invoices");
     world := advance (fst (execute (insertInvoice data w) (tables w))) w;
     trace := [Executed (insertInvoice data w);
               Revalidated "/dashboard/invoices"] |}.
Proof.
  unfold invoiceForm, createInvoice. intros -> Hf.
  run_action. rewrite split_toISOString, (sql_executed _ _ Hf).
  reflexivity.
Qed.

Lemma updateInvoice_invalid id prevState formData w fieldErrors :
  invoiceForm formData = Failure fieldErrors ->
  updateInvoice id prevState formData w =
  {| completion :=
       Normal {| errors := Some fieldErrors;
                 message := Some "Missing Fields. Failed to Update Invoice." |};
     world := w; trace := [] |}.
Proof.
  unfold invoiceForm, updateInvoice, UpdateInvoice_safeParse. intros ->.
  reflexivity.
Qed.

Lemma updateInvoice_rejected id prevState formData w data :
  invoiceForm formData = Success data ->
  nextFails w = true ->
  updateInvoice id prevState formData w =
  {| completion :=
       Normal {| errors := None;
                 message := Some "Database Error: Failed to Update Invoice." |};
     world := advance (tables w) w;
     trace := [Rejected (updateInvoiceStmt id data)] |}.
Proof.
  unfold invoiceForm, updateInvoice, UpdateInvoice_safeParse. intros -> Hf.
  run_action. rewrite (sql_rejected _ _ Hf). reflexivity.
Qed.

Lemma updateInvoice_executed id prevState formData w data :
  invoiceForm formData = Success data ->
  nextFails w = false ->
  updateInvoice id prevState formData w =
  {| completion := Throw (NEXT_REDIRECT "/dashboard/invoices");
     world := advance (fst (execute (updateInvoiceStmt id data) (tables w))) w;
     trace := [Executed (updateInvoiceStmt id data);
               Revalidated "/dashboard/invoices"] |}.
Proof.
  unfold invoiceForm, updateInvoice, UpdateInvoice_safeParse. intros -> Hf.
  run_action. rewrite (sql_executed _ _ Hf). reflexivity.
Qed.

Lemma deleteInvoice_rejected id w :
  nextFails w = true ->
  deleteInvoice id w =
  {| completion :=
       Normal {| errors := None;
                 message := Some "Database Error: Failed to Delete Invoice." |};
     world := advance (tables w) w;
     trace := [Rejected (DELETE_FROM_invoices id)] |}.
Proof.
  intros Hf. unfold deleteInvoice. run_action.
  rewrite (sql_rejected _ _ Hf). reflexivity.
Qed.

Lemma deleteInvoice_executed id w :
  nextFails w = false ->
  deleteInvoice id w =
  {| completion :=
       Normal {| errors := None; message := Some "Deleted Invoice." |};
     world := advance (fst (execute (DELETE_FROM_invoices id) (tables w))) w;
     trace := [Executed (DELETE_FROM_invoices id);
               Revalidated "/dashboard/invoices"] |}.
Proof.
  intros Hf. unfold deleteInvoice. run_action.
  rewrite (sql_executed _ _ Hf). reflexivity.
Qed.

(** ** What each run of a customer action is *)

Lemma isEmailUnique_rejected email customerId w :
  nextFails w = true ->
  isEmailUnique email customerId w =
  {| completion := Throw (DatabaseError (uniqueQuery email customerId));
     world := advance (tables w) w;
     trace := [Rejected (uniqueQuery email customerId)] |}.
Proof.
  intros Hf. unfold isEmailUnique, uniqueQuery. run_action.
  destruct customerId as [id|]; [destruct (String.eqb id "")|];
    rewrite (sql_rejected _ _ Hf); reflexivity.
Qed.

Lemma isEmailUnique_executed email customerId w :
  nextFails w = false ->
  isEmailUnique email customerId w =
  {| completion := Normal (negb (emailTaken email customerId (tables w)));
     world := advance (tables w) w;
     trace := [Executed (uniqueQuery email customerId)] |}.
Proof.
  intros Hf. unfold isEmailUnique, uniqueQuery, emailTaken. run_action.
  destruct customerId as [id|]; [destruct (String.eqb id "")|];
    rewrite (sql_executed _ _ Hf); cbn [execute fst snd completion world trace];
    match goal with |- context [existsb ?f ?l] => destruct (existsb f l) end;
    reflexivity.
Qed.

Section CustomerWrite.

(** [createCustomer] and [updateCustomer] differ by the identifier given
    to the uniqueness check, the statement and the database message. *)
Variables (prevState : CustomerState) (formData : FormData) (w : World).
Variable data : CustomerData.
Hypothesis valid : customerForm formData = Success data.

Let insert := INSERT_INTO_customers (name data) (email data).
Let update id := UPDATE_customers (name data) (email data) id.

Lemma createCustomer_query_rejected :
  nextFails w = true ->
  createCustomer prevState formData w =
  {| completion := Throw (DatabaseError (uniqueQuery (email data) None));
     world := advance (tables w) w;
     trace := [Rejected (uniqueQuery (email data) None)] |}.
Proof.
  intros Hf. unfold createCustomer. unfold customerForm in valid.
  rewrite valid. unfold bind at 1.
  rewrite (isEmailUnique_rejected _ _ _ Hf). reflexivity.
Qed.

Lemma createCustomer_taken :
  nextFails w = false ->
  emailTaken (email data) None (tables w) = true ->
  createCustomer prevState formData w =
  {| completion := Normal emailInUse; world := advance (tables w) w;
     trace := [Executed (uniqueQuery (email data) None)] |}.
Proof.
  intros Hf Ht. unfold createCustomer. unfold customerForm in valid.
  rewrite valid. unfold bind at 1.
  rewrite (isEmailUnique_executed _ _ _ Hf), Ht. reflexivity.
Qed.

Lemma createCustomer_rejected :
  nextFails w = false ->
  emailTaken (email data) None (tables w) = false ->
  nextFails (advance (tables w) w) = true ->
  createCustomer prevState formData w =
  {| completion :=
       Normal {| c_errors := None;
                 c_message :=
                   Some "Database Error: Failed to Create Customer." |};
     world := advance (tables w) (advance (tables w) w);
     trace := [Executed (uniqueQuery (email data) None); Rejected insert] |}.
Proof.
  intros Hf Ht Hf2. unfold createCustomer. unfold customerForm in valid.
  rewrite valid. unfold bind at 1.
  rewrite (isEmailUnique_executed _ _ _ Hf), Ht.
  cbn [completion world trace negb]. run_action.
  rewrite (sql_rejected _ _ Hf2). reflexivity.
Qed.

Lemma createCustomer_executed :
  nextFails w = false ->
  emailTaken (email data) None (tables w) = false ->
  nextFails (advance (tables w) w) = false ->
  createCustomer prevState formData w =
  {| completion := Throw (NEXT_REDIRECT "/dashboard/customers");
     world := advance (fst (execute insert (tables w)))
                (advance (tables w) w);
     trace := [Executed (uniqueQuery (email data) None); Executed insert;
               Revalidated "/dashboard/customers"] |}.
Proof.
  intros Hf Ht Hf2. unfold createCustomer. unfold customerForm in valid.
  rewrite valid. unfold bind at 1.
  rewrite (isEmailUnique_executed _ _ _ Hf), Ht.
  cbn [completion world trace negb]. run_action.
  rewrite (sql_executed _ _ Hf2). reflexivity.
Qed.

Variable id : string.

Lemma updateCustomer_query_rejected :
  nextFails w = true ->
  updateCustomer id prevState formData w =
  {| completion :=
       Throw (DatabaseError (uniqueQuery (email data) (Some id)));
     world := advance (tables w) w;
     trace := [Rejected (uniqueQuery (email data) (Some id))] |}.
Proof.
  intros Hf. unfold updateCustomer, UpdateCustomer_safeParse.
  unfold customerForm in valid.
  rewrite valid. unfold bind at 1.
  rewrite (isEmailUnique_rejected _ _ _ Hf). reflexivity.
Qed.

Lemma updateCustomer_taken :
  nextFails w = false ->
  emailTaken (email data) (Some id) (tables w) = true ->
  updateCustomer id prevState formData w =
  {| completion := Normal emailInUse; world := advance (tables w) w;
     trace := [Executed (uniqueQuery (email data) (Some id))] |}.
Proof.
  intros Hf Ht. unfold updateCustomer, UpdateCustomer_safeParse.
  unfold customerForm in valid.
  rewrite valid. unfold bind at 1.
  rewrite (isEmailUnique_executed _ _ _ Hf), Ht. reflexivity.
Qed.

Lemma updateCustomer_rejected :
  nextFails w = false ->
  emailTaken (email data) (Some id) (tables w) = false ->
  nextFails (advance (tables w) w) = true ->
  updateCustomer id prevState formData w =
  {| completion :=
       Normal {| c_errors := None;
                 c_message :=
                   Some "Database Error: Failed to Update Customer." |};
     world := advance (tables w) (advance (tables w) w);
     trace := [Executed (uniqueQuery (email data) (Some id));
               Rejected (update id)] |}.
Proof.
  intros Hf Ht Hf2. unfold updateCustomer, UpdateCustomer_safeParse.
  unfold customerForm in valid.
  rewrite valid. unfold bind at 1.
  rewrite (isEmailUnique_executed _ _ _ Hf), Ht.
  cbn [completion world trace negb]. run_action.
  rewrite (sql_rejected _ _ Hf2). reflexivity.
Qed.

Lemma updateCustomer_executed :
  nextFails w = false ->
  emailTaken (email data) (Some id) (tables w) = false ->
  nextFails (advance (tables w) w) = false ->
  updateCustomer id prevState formData w =
  {| completion := Throw (NEXT_REDIRECT "/dashboard/customers");
     world := advance (fst (execute (update id) (tables w)))
                (advance (tables w) w);
     trace := [Executed (uniqueQuery (email data) (Some id));
               Executed (update id);
               Revalidated "/dashboard/customers"] |}.
Proof.
  intros Hf Ht Hf2. unfold updateCustomer, UpdateCustomer_safeParse.
  unfold customerForm in valid.
  rewrite valid. unfold bind at 1.
  rewrite (isEmailUnique_executed _ _ _ Hf), Ht.
  cbn [completion world trace negb]. run_action.
  rewrite (sql_executed _ _ Hf2). reflexivity.
Qed.

End CustomerWrite.

Lemma createCustomer_invalid prevState formData w fieldErrors :
  customerForm formData = Failure fieldErrors ->
  createCustomer prevState formData w =
  {| completion :=
       Normal {| c_errors := Some fieldErrors;
                 c_message :=
                   Some "Missing Fields. Failed to Create Customer." |};
     world := w; trace := [] |}.
Proof.
  unfold customerForm, createCustomer. intros ->. reflexivity.
Qed.

Lemma updateCustomer_invalid id prevState formData w fieldErrors :
  customerForm formData = Failure fieldErrors ->
  updateCustomer id prevState formData w =
  {| completion :=
       Normal {| c_errors := Some fieldErrors;
                 c_message :=
                   Some "Missing Fields. Failed to Create Customer." |};
     world := w; trace := [] |}.
Proof.
  unfold customerForm, updateCustomer, UpdateCustomer_safeParse.
  intros ->. reflexivity.
Qed.

Lemma deleteCustomer_query_rejected id w :
  nextFails w = true ->
  deleteCustomer id w =
  {| completion := Normal deleteFailed; world := advance (tables w) w;
     trace := [Rejected (SELECT_assigned_to_invoice id)] |}.
Proof.
  intros Hf. unfold deleteCustomer. run_action.
  rewrite (sql_rejected _ _ Hf). reflexivity.
Qed.

Lemma deleteCustomer_referenced id w :
  nextFails w = false ->
  referenced id (tables w) = true ->
  deleteCustomer id w =
  {| completion := Normal refusal; world := advance (tables w) w;
     trace := [Executed (SELECT_assigned_to_invoice id)] |}.
Proof.
  intros Hf Hr. unfold deleteCustomer. run_action.
  rewrite (sql_executed _ _ Hf). unfold referenced in Hr.
  cbn [execute fst snd completion world trace]. rewrite Hr. reflexivity.
Qed.

Lemma deleteCustomer_rejected id w :
  nextFails w = false ->
  referenced id (tables w) = false ->
  nextFails (advance (tables w) w) = true ->
  deleteCustomer id w =
  {| completion := Normal deleteFailed;
     world := advance (tables w) (advance (tables w) w);
     trace := [Executed (SELECT_assigned_to_invoice id);
               Rejected (DELETE_FROM_customers id)] |}.
Proof.
  intros Hf Hr Hf2. unfold deleteCustomer. run_action.
  rewrite (sql_executed _ _ Hf). unfold referenced in Hr.
  cbn [execute fst snd completion world trace]. rewrite Hr.
  cbn [Z.eqb]. run_action. rewrite (sql_rejected _ _ Hf2). reflexivity.
Qed.

Lemma deleteCustomer_executed id w :
  nextFails w = false ->
  referenced id (tables w) = false ->
  nextFails (advance (tables w) w) = false ->
  deleteCustomer id w =
  {| completion :=
       Normal {| c_errors := None; c_message := Some "Deleted Customer." |};
     world := advance (fst (execute (DELETE_FROM_customers id) (tables w)))
                (advance (tables w) w);
     trace := [Executed (SELECT_assigned_to_invoice id);
               Executed (DELETE_FROM_customers id);
               Revalidated "/dashboard/customers"] |}.
Proof.
  intros Hf Hr Hf2. unfold deleteCustomer. run_action.
  rewrite (sql_executed _ _ Hf). unfold referenced in Hr.
  cbn [execute fst snd completion world trace]. rewrite Hr.
  cbn [Z.eqb]. run_action. rewrite (sql_executed _ _ Hf2). reflexivity.
Qed.

(** ** Authentication *)

Lemma authenticate_run prevState formData w :
  authenticate prevState formData w =
  {| completion :=
       match auth w "credentials" formData with
       | None => Normal None
       | Some (AuthError type) =>
           Normal (Some (if String.eqb type "CredentialsSignin"
                         then "Invalid credentials."
                         else "Something went wrong."))
       | Some e => Throw e
       end;
     world := w;
     trace := [SignedIn "credentials" formData] |}.
Proof.
  unfold authenticate, signIn. run_action.
  destruct (auth w "credentials" formData) as [[]|]; try reflexivity.
  cbn [completion world trace app]. destruct (String.eqb _ _); reflexivity.
Qed.

(** ** Case analysis of a run

    To prove [P] of every run of an action it is enough to prove it of the
    outcome of each path. *)

Lemma createInvoice_cases prevState formData w (P : Outcome State -> Prop) :
  (forall e, invoiceForm formData = Failure e ->
     P {| completion :=
            Normal {| errors := Some e;
                      message :=
                        Some "Missing Fields. Failed to Create Invoice." |};
          world := w; trace := [] |}) ->
  (forall d, invoiceForm formData = Success d -> nextFails w = true ->
     P {| completion :=
            Normal {| errors := None;
                      message :=
                        Some "Database Error: Failed to Create Invoice." |};
          world := advance (tables w) w;
          trace := [Rejected (insertInvoice d w)] |}) ->
  (forall d, invoiceForm formData = Success d -> nextFails w = false ->
     P {| completion := Throw (NEXT_REDIRECT "/dashboard/invoices");
          world := advance (fst (execute (insertInvoice d w) (tables w))) w;
          trace := [Executed (insertInvoice d w);
                    Revalidated "/dashboard/invoices"] |}) ->
  P (createInvoice prevState formData w).
Proof.
  intros Hi Hr He.
  destruct (invoiceForm formData) as [d|e] eqn:Hv.
  - destruct (nextFails w) eqn:Hf.
    + rewrite (createInvoice_rejected _ _ _ _ Hv Hf). now apply Hr.
    + rewrite (createInvoice_executed _ _ _ _ Hv Hf). now apply He.
  - rewrite (createInvoice_invalid _ _ _ _ Hv). now apply Hi.
Qed.

Lemma updateInvoice_cases id prevState formData w
    (P : Outcome State -> Prop) :
  (forall e, invoiceForm formData = Failure e ->
     P {| completion :=
            Normal {| errors := Some e;
                      message :=
                        Some "Missing Fields. Failed to Update Invoice." |};
          world := w; trace := [] |}) ->
  (forall d, invoiceForm formData = Success d -> nextFails w = true ->
     P {| completion :=
            Normal {| errors := None;
                      message :=
                        Some "Database Error: Failed to Update Invoice." |};
          world := advance (tables w) w;
          trace := [Rejected (updateInvoiceStmt id d)] |}) ->
  (forall d, invoiceForm formData = Success d -> nextFails w = false ->
     P {| completion := Throw (NEXT_REDIRECT "/dashboard/invoices");
          world :=
            advance (fst (execute (updateInvoiceStmt id d) (tables w))) w;
          trace := [Executed (updateInvoiceStmt id d);
                    Revalidated "/dashboard/invoices"] |}) ->
  P (updateInvoice id prevState formData w).
Proof.
  intros Hi Hr He.
  destruct (invoiceForm formData) as [d|e] eqn:Hv.
  - destruct (nextFails w) eqn:Hf.
    + rewrite (updateInvoice_rejected _ _ _ _ _ Hv Hf). now apply Hr.
    + rewrite (updateInvoice_executed _ _ _ _ _ Hv Hf). now apply He.
  - rewrite (updateInvoice_invalid _ _ _ _ _ Hv). now apply Hi.
Qed.

Lemma deleteInvoice_cases id w (P : Outcome State -> Prop) :
  (nextFails w = true ->
     P {| completion :=
            Normal {| errors := None;
                      message :=
                        Some "Database Error: Failed to Delete Invoice." |};
          world := advance (tables w) w;
          trace := [Rejected (DELETE_FROM_invoices id)] |}) ->
  (nextFails w = false ->
     P {| completion :=
            Normal {| errors := None; message := Some "Deleted Invoice." |};
          world :=
            advance (fst (execute (DELETE_FROM_invoices id) (tables w))) w;
          trace := [Executed (DELETE_FROM_invoices id);
                    Revalidated "/dashboard/invoices"] |}) ->
  P (deleteInvoice id w).
Proof.
  intros Hr He. destruct (nextFails w) eqn:Hf.
  - rewrite (deleteInvoice_rejected _ _ Hf). now apply Hr.
  - rewrite (deleteInvoice_executed _ _ Hf). now apply He.
Qed.

Lemma createCustomer_cases prevState formData w
    (P : Outcome CustomerState -> Prop) :
  (forall e, customerForm formData = Failure e ->
     P {| completion :=
            Normal {| c_errors := Some e;
                      c_message :=
                        Some "Missing Fields. Failed to Create Customer." |};
          world := w; trace := [] |}) ->
  (forall d, customerForm formData = Success d -> nextFails w = true ->
     P {| completion := Throw (DatabaseError (uniqueQuery (email d) None));
          world := advance (tables w) w;
          trace := [Rejected (uniqueQuery (email d) None)] |}) ->
  (forall d, customerForm formData = Success d -> nextFails w = false ->
     emailTaken (email d) None (tables w) = true ->
     P {| completion := Normal emailInUse; world := advance (tables w) w;
          trace := [Executed (uniqueQuery (email d) None)] |}) ->
  (forall d, customerForm formData = Success d -> nextFails w = false ->
     emailTaken (email d) None (tables w) = false ->
     nextFails (advance (tables w) w) = true ->
     P {| completion :=
            Normal {| c_errors := None;
                      c_message :=
                        Some "Database Error: Failed to Create Customer." |};
          world := advance (tables w) (advance (tables w) w);
          trace := [Executed (uniqueQuery (email d) None);
                    Rejected (INSERT_INTO_customers (name d) (email d))] |}) ->
  (forall d, customerForm formData = Success d -> nextFails w = false ->
     emailTaken (email d) None (tables w) = false ->
     nextFails (advance (tables w) w) = false ->
     P {| completion := Throw (NEXT_REDIRECT "/dashboard/customers");
          world :=
            advance
              (fst (execute (INSERT_INTO_customers (name d) (email d))
                      (tables w)))
              (advance (tables w) w);
          trace := [Executed (uniqueQuery (email d) None);
                    Executed (INSERT_INTO_customers (name d) (email d));
                    Revalidated "/dashboard/customers"] |}) ->
  P (createCustomer prevState formData w).
Proof.
  intros Hi Hq Ht Hr He.
  destruct (customerForm formData) as [d|e] eqn:Hv.
  - destruct (nextFails w) eqn:Hf.
    + rewrite (createCustomer_query_rejected _ _ _ _ Hv Hf). now apply Hq.
    + destruct (emailTaken (email d) None (tables w)) eqn:Hu.
      * rewrite (createCustomer_taken _ _ _ _ Hv Hf Hu). now apply Ht.
      * destruct (nextFails (advance (tables w) w)) eqn:Hf2.
        -- rewrite (createCustomer_rejected _ _ _ _ Hv Hf Hu Hf2).
           now apply Hr.
        -- rewrite (createCustomer_executed _ _ _ _ Hv Hf Hu Hf2).
           now apply He.
  - rewrite (createCustomer_invalid _ _ _ _ Hv). now apply Hi.
Qed.

Lemma updateCustomer_cases id prevState formData w
    (P : Outcome CustomerState -> Prop) :
  (forall e, customerForm formData = Failure e ->
     P {| completion :=
            Normal {| c_errors := Some e;
                      c_message :=
                        Some "Missing Fields. Failed to Create Customer." |};
          world := w; trace := [] |}) ->
  (forall d, customerForm formData = Success d -> nextFails w = true ->
     P {| completion :=
            Throw (DatabaseError (uniqueQuery (email d) (Some id)));
          world := advance (tables w) w;
          trace := [Rejected (uniqueQuery (email d) (Some id))] |}) ->
  (forall d, customerForm formData = Success d -> nextFails w = false ->
     emailTaken (email d) (Some id) (tables w) = true ->
     P {| completion := Normal emailInUse; world := advance (tables w) w;
          trace := [Executed (uniqueQuery (email d) (Some id))] |}) ->
  (forall d, customerForm formData = Success d -> nextFails w = false ->
     emailTaken (email d) (Some id) (tables w) = false ->
     nextFails (advance (tables w) w) = true ->
     P {| completion :=
            Normal {| c_errors := None;
                      c_message :=
                        Some "Database Error: Failed to Update Customer." |};
          world := advance (tables w) (advance (tables w) w);
          trace := [Executed (uniqueQuery (email d) (Some id));
                    Rejected (UPDATE_customers (name d) (email d) id)] |}) ->
  (forall d, customerForm formData = Success d -> nextFails w = false ->
     emailTaken (email d) (Some id) (tables w) = false ->
     nextFails (advance (tables w) w) = false ->
     P {| completion := Throw (NEXT_REDIRECT "/dashboard/customers");
          world :=
            advance
              (fst (execute (UPDATE_customers (name d) (email d) id)
                      (tables w)))
              (advance (tables w) w);
          trace := [Executed (uniqueQuery (email d) (Some id));
                    Executed (UPDATE_customers (name d) (email d) id);
                    Revalidated "/dashboard/customers"] |}) ->
  P (updateCustomer id prevState formData w).
Proof.
  intros Hi Hq Ht Hr He.
  destruct (customerForm formData) as [d|e] eqn:Hv.
  - destruct (nextFails w) eqn:Hf.
    + rewrite (updateCustomer_query_rejected _ _ _ _ Hv id Hf). now apply Hq.
    + destruct (emailTaken (email d) (Some id) (tables w)) eqn:Hu.
      * rewrite (updateCustomer_taken _ _ _ _ Hv id Hf Hu). now apply Ht.
      * destruct (nextFails (advance (tables w) w)) eqn:Hf2.
        -- rewrite (updateCustomer_rejected _ _ _ _ Hv id Hf Hu Hf2).
           now apply Hr.
        -- rewrite (updateCustomer_executed _ _ _ _ Hv id Hf Hu Hf2).
           now apply He.
  - rewrite (updateCustomer_invalid _ _ _ _ _ Hv). now apply Hi.
Qed.

Lemma deleteCustomer_cases id w (P : Outcome CustomerState -> Prop) :
  (nextFails w = true ->
     P {| completion := Normal deleteFailed; world := advance (tables w) w;
          trace := [Rejected (SELECT_assigned_to_invoice id)] |}) ->
  (nextFails w = false -> referenced id (tables w) = true ->
     P {| completion := Normal refusal; world := advance (tables w) w;
          trace := [Executed (SELECT_assigned_to_invoice id)] |}) ->
  (nextFails w = false -> referenced id (tables w) = false ->
     nextFails (advance (tables w) w) = true ->
     P {| completion := Normal deleteFailed;
          world := advance (tables w) (advance (tables w) w);
          trace := [Executed (SELECT_assigned_to_invoice id);
                    Rejected (DELETE_FROM_customers id)] |}) ->
  (nextFails w = false -> referenced id (tables w) = false ->
     nextFails (advance (tables w) w) = false ->
     P {| completion :=
            Normal {| c_errors := None;
                      c_message := Some "Deleted Customer." |};
          world :=
            advance (fst (execute (DELETE_FROM_customers id) (tables w)))
              (advance (tables w) w);
          trace := [Executed (SELECT_assigned_to_invoice id);
                    Executed (DELETE_FROM_customers id);
                    Revalidated "/dashboard/customers"] |}) ->
  P (deleteCustomer id w).
Proof.
  intros Hq Hg Hr He. destruct (nextFails w) eqn:Hf.
  - rewrite (deleteCustomer_query_rejected _ _ Hf). now apply Hq.
  - destruct (referenced id (tables w)) eqn:Hu.
    + rewrite (deleteCustomer_referenced _ _ Hf Hu). now apply Hg.
    + destruct (nextFails (advance (tables w) w)) eqn:Hf2.
      * rewrite (deleteCustomer_rejected _ _ Hf Hu Hf2). now apply Hr.
      * rewrite (deleteCustomer_executed _ _ Hf Hu Hf2). now apply He.
Qed.

(* ================================================================== *)
(** * The claims *)
(* ================================================================== *)

(** ** C1 *)

Lemma amount_49_99_in_cents :
  mul (StringToNumber "49.99") (of_Z 100) = of_Z 4999.
Proof. vm_compute. reflexivity. Qed.

(** C1. With the fields amount="49.99", status="pending" and
    customerId="c1", and an INSERT the store accepts, [createInvoice] adds
    one invoice row whose amount is the number 4999 (exactly the integer
    4999), whose date is the calendar date of the clock, and ends by
    redirecting to /dashboard/invoices, after having invalidated it. *)
Theorem createInvoice_stores_4999_cents :
  forall (prevState : State) (formData : FormData) (w : World),
    get formData "customerId" = Some (EntryString "c1") ->
    get formData "amount" = Some (EntryString "49.99") ->
    get formData "status" = Some (EntryString "pending") ->
    nextFails w = false ->
    let o := createInvoice prevState formData w in
    completion o = Throw (NEXT_REDIRECT "/dashboard/invoices")
    /\ In (Revalidated "/dashboard/invoices") (trace o)
    /\ exists row,
         invoices (tables (world o)) = invoices (tables w) ++ [row]
         /\ inv_customer_id row = "c1"
         /\ inv_amount row = of_Z 4999
         /\ to_Z (inv_amount row) = Some 4999
         /\ inv_status row = "pending"
         /\ inv_date row = isoDate (clock w).
Proof.
  intros prevState formData w Hc Ha Hs Hf o.
  assert (Hv : invoiceForm formData =
               Success {| customerId := "c1";
                          amount := StringToNumber "49.99";
                          status := "pending" |}).
  { unfold invoiceForm. rewrite Hc, Ha, Hs. vm_compute. reflexivity. }
  subst o. rewrite (createInvoice_executed _ _ _ _ Hv Hf).
  cbn [completion world trace]. split; [reflexivity|].
  split; [right; left; reflexivity|].
  unfold insertInvoice. cbn [customerId amount status].
  rewrite amount_49_99_in_cents.
  cbn [execute fst advance tables invoices].
  eexists. split; [reflexivity|].
  cbn [inv_customer_id inv_amount inv_status inv_date].
  repeat (split; [reflexivity|]). reflexivity.
Qed.

Lemma createInvoice_stores_4999_cents_witness :
  nextFails (Sample.env []) = false
  /\ completion (createInvoice Sample.noState
                   (Sample.invoiceFields "49.99" "pending") (Sample.env []))
     = Throw (NEXT_REDIRECT "/dashboard/invoices")
  /\ invoices (tables (world (createInvoice Sample.noState
                                (Sample.invoiceFields "49.99" "pending")
                                (Sample.env []))))
     = [Sample.invoice1;
        {| inv_id := "a"; inv_customer_id := "c1"; inv_amount := of_Z 4999;
           inv_status := "pending"; inv_date := "2023-11-14" |}].
Proof.
  split; [reflexivity|]. split; [|reflexivity].
  exact (proj1 (createInvoice_stores_4999_cents Sample.noState
                  (Sample.invoiceFields "49.99" "pending") (Sample.env [])
                  eq_refl eq_refl eq_refl eq_refl)).
Defined.

(** ** C4 *)

Lemma amountRefused_invalid v :
  amountRefused v -> exists m, FormSchema_amount v = INVALID [m].
Proof.
  unfold amountRefused, FormSchema_amount, coerce_number_gt.
  intros [H|H].
  - rewrite H. eauto.
  - destruct (isNaN (Number v)); [eauto|]. rewrite H. eauto.
Qed.

Lemma statusOutside_invalid v :
  statusOutside v -> exists m, FormSchema_status v = INVALID [m].
Proof.
  unfold statusOutside, FormSchema_status, enum. intros [Hp Hq].
  destruct v as [[s|f]|]; try (eexists; reflexivity).
  cbn [existsb].
  destruct (String.eqb_spec s "pending") as [->|_]; [now contradiction Hp|].
  destruct (String.eqb_spec s "paid") as [->|_]; [now contradiction Hq|].
  eexists; reflexivity.
Qed.

(** as soon as one field is invalid, [safeParse] fails with the errors of
    all three *)
Lemma invoiceForm_Failure formData :
  (exists i, FormSchema_amount (get formData "amount") = INVALID i)
  \/ (exists i, FormSchema_status (get formData "status") = INVALID i) ->
  invoiceForm formData =
  Failure {| err_customerId :=
               fieldError (FormSchema_customerId (get formData "customerId"));
             err_amount := fieldError (FormSchema_amount (get formData "amount"));
             err_status :=
               fieldError (FormSchema_status (get formData "status")) |}.
Proof.
  unfold invoiceForm, CreateInvoice_safeParse.
  intros [[i H]|[i H]]; rewrite H;
    destruct (FormSchema_customerId _); try reflexivity;
    destruct (FormSchema_amount _); reflexivity.
Qed.

(** C4. When the amount field is not numeric or at most zero once coerced,
    or the status field is outside pending/paid, [createInvoice] and
    [updateInvoice] return normally the field errors with their generic
    message, the entry of each offending field holding a message; the run
    has no effect at all: no SQL call, the world as it was. *)
Theorem invoice_validation_refuses :
  forall (id : string) (prevState : State) (formData : FormData) (w : World),
    amountRefused (get formData "amount")
    \/ statusOutside (get formData "status") ->
    exists fieldErrors,
      createInvoice prevState formData w =
        {| completion :=
             Normal {| errors := Some fieldErrors;
                       message :=
                         Some "Missing Fields. Failed to Create Invoice." |};
           world := w; trace := [] |}
      /\ updateInvoice id prevState formData w =
        {| completion :=
             Normal {| errors := Some fieldErrors;
                       message :=
                         Some "Missing Fields. Failed to Update Invoice." |};
           world := w; trace := [] |}
      /\ (amountRefused (get formData "amount") ->
          exists m, err_amount fieldErrors = Some [m])
      /\ (statusOutside (get formData "status") ->
          exists m, err_status fieldErrors = Some [m]).
Proof.
  intros id prevState formData w H.
  assert (Hv := invoiceForm_Failure formData).
  eexists. split; [|split; [|split]].
  - apply createInvoice_invalid, Hv.
    destruct H as [H|H]; [left; destruct (amountRefused_invalid _ H)
                         | right; destruct (statusOutside_invalid _ H)]; eauto.
  - apply updateInvoice_invalid, Hv.
    destruct H as [H|H]; [left; destruct (amountRefused_invalid _ H)
                         | right; destruct (statusOutside_invalid _ H)]; eauto.
  - intros Ha. destruct (amountRefused_invalid _ Ha) as [m Hm].
    cbn [err_amount]. rewrite Hm. exists m. reflexivity.
  - intros Hs. destruct (statusOutside_invalid _ Hs) as [m Hm].
    cbn [err_status]. rewrite Hm. exists m. reflexivity.
Qed.

Lemma invoice_validation_refuses_witness :
  amountRefused (get (Sample.invoiceFields "-5" "overdue") "amount")
  /\ statusOutside (get (Sample.invoiceFields "-5" "overdue") "status")
  /\ exists fieldErrors,
       createInvoice Sample.noState (Sample.invoiceFields "-5" "overdue")
         (Sample.env []) =
         {| completion :=
              Normal {| errors := Some fieldErrors;
                        message :=
                          Some "Missing Fields. Failed to Create Invoice." |};
            world := Sample.env []; trace := [] |}.
Proof.
  assert (Ha : amountRefused (get (Sample.invoiceFields "-5" "overdue") "amount"))
    by (right; reflexivity).
  assert (Hs : statusOutside (get (Sample.invoiceFields "-5" "overdue") "status"))
    by (split; discriminate).
  split; [exact Ha|]. split; [exact Hs|].
  destruct (invoice_validation_refuses "i1" Sample.noState
              (Sample.invoiceFields "-5" "overdue") (Sample.env [])
              (or_introl Ha)) as [e [Hc _]].
  exists e. exact Hc.
Defined.

(** ** C8 *)

Lemma keepsDates_refl id l : keepsDates id l l.
Proof.
  unfold keepsDates. induction l; constructor; auto.
Qed.

Lemma UPDATE_invoices_keepsDates c a st id t :
  keepsDates id (invoices t)
    (invoices (fst (execute (UPDATE_invoices c a st id) t))).
Proof.
  cbn [execute fst invoices]. unfold keepsDates.
  induction (invoices t) as [|r l IH]; cbn [map]; constructor; [|exact IH].
  destruct (String.eqb_spec (inv_id r) id) as [E|E];
    cbn [inv_id inv_date]; repeat split; auto.
  intros N. contradiction.
Qed.

(** C8. Whatever the form and whether or not the store accepts the
    statement, [updateInvoice] leaves, row by row, the identifier and the
    date of every invoice as they were, every row with another identifier
    exactly as it was, and the customers untouched. A date enters the
    table with the rows [createInvoice] appends, which carry the calendar
    date of the clock, the earlier rows staying as they were;
    [deleteInvoice] only removes rows, and the customer actions do not
    touch the invoices. *)
Theorem updateInvoice_keeps_dates :
  forall (id : string) (prevState : State) (cState : CustomerState)
         (formData : FormData) (w : World),
    (keepsDates id (invoices (tables w))
       (invoices (tables (world (updateInvoice id prevState formData w))))
     /\ customers (tables (world (updateInvoice id prevState formData w)))
        = customers (tables w))
    /\ (exists new,
          invoices (tables (world (createInvoice prevState formData w)))
          = invoices (tables w) ++ new
          /\ Forall (fun r => inv_date r = isoDate (clock w)) new)
    /\ (forall r, In r (invoices (tables (world (deleteInvoice id w)))) ->
                  In r (invoices (tables w)))
    /\ invoices (tables (world (createCustomer cState formData w)))
       = invoices (tables w)
    /\ invoices (tables (world (updateCustomer id cState formData w)))
       = invoices (tables w)
    /\ invoices (tables (world (deleteCustomer id w))) = invoices (tables w).
Proof.
  intros id prevState cState formData w.
  split; [|split; [|split; [|split; [|split]]]].
  - apply updateInvoice_cases; intros; cbn [world advance tables];
      (split; [|reflexivity]);
      [apply keepsDates_refl | apply keepsDates_refl
      | apply UPDATE_invoices_keepsDates].
  - apply createInvoice_cases; intros; cbn [world advance tables].
    + exists []. now rewrite app_nil_r.
    + exists []. now rewrite app_nil_r.
    + unfold insertInvoice. cbn [execute fst invoices].
      eexists. split; [reflexivity|]. repeat constructor.
  - apply deleteInvoice_cases; intros _ r; cbn [world advance tables];
      [trivial|].
    cbn [execute fst invoices]. intros H. now apply filter_In in H.
  - apply createCustomer_cases; intros; reflexivity.
  - apply updateCustomer_cases; intros; reflexivity.
  - apply deleteCustomer_cases; intros; reflexivity.
Qed.

Lemma updateInvoice_keeps_dates_witness :
  map inv_date
    (invoices (tables (world (updateInvoice "i1" Sample.noState
                                (Sample.invoiceFields "20" "pending")
                                (Sample.env [])))))
  = ["2023-01-31"]
  /\ keepsDates "i1" (invoices (tables (Sample.env [])))
       (invoices (tables (world (updateInvoice "i1" Sample.noState
                                   (Sample.invoiceFields "20" "pending")
                                   (Sample.env []))))).
Proof.
  split; [reflexivity|].
  exact (proj1 (proj1 (updateInvoice_keeps_dates "i1" Sample.noState
                         Sample.noCustomerState
                         (Sample.invoiceFields "20" "pending")
                         (Sample.env [])))).
Defined.

(** ** C3 *)

Lemma referenced_true id t :
  referenced id t = true <->
  exists r, In r (invoices t) /\ inv_customer_id r = id.
Proof.
  unfold referenced. rewrite existsb_exists.
  split; intros [r [Hin H]]; exists r; split; auto;
    now apply String.eqb_eq.
Qed.

Lemma referenced_false id t :
  referenced id t = false <->
  forall r, In r (invoices t) -> inv_customer_id r <> id.
Proof.
  rewrite <- not_true_iff_false, referenced_true. split.
  - intros N r Hin E. apply N. now exists r.
  - intros H [r [Hin E]]. now apply (H r).
Qed.

(** C3. When the store accepts the statements: for a customer id some
    invoice references, [deleteCustomer] returns the refusal message
    after the guard query alone (no DELETE is sent) and the tables are as
    they were, so the customer row is still there; for a customer id no
    invoice references, it sends the DELETE, which removes exactly the
    rows with that id, invalidates /dashboard/customers and returns
    "Deleted Customer.". *)
Theorem deleteCustomer_guard :
  forall (id : string) (w : World),
    nextCallsSucceed 2 w ->
    ((exists r, In r (invoices (tables w)) /\ inv_customer_id r = id) ->
       completion (deleteCustomer id w) = Normal refusal
       /\ trace (deleteCustomer id w) = [Executed (SELECT_assigned_to_invoice id)]
       /\ tables (world (deleteCustomer id w)) = tables w)
    /\ ((forall r, In r (invoices (tables w)) -> inv_customer_id r <> id) ->
       completion (deleteCustomer id w)
       = Normal {| c_errors := None; c_message := Some "Deleted Customer." |}
       /\ trace (deleteCustomer id w)
          = [Executed (SELECT_assigned_to_invoice id);
             Executed (DELETE_FROM_customers id);
             Revalidated "/dashboard/customers"]
       /\ customers (tables (world (deleteCustomer id w)))
          = filter (fun r => neqb (cust_id r) id) (customers (tables w))
       /\ (forall r, In r (customers (tables (world (deleteCustomer id w))))
                     <-> In r (customers (tables w)) /\ cust_id r <> id)).
Proof.
  intros id w Hok.
  assert (Hf := nextCallsSucceed_head _ _ Hok).
  assert (Hf2 := nextCallsSucceed_head _ _
                   (nextCallsSucceed_advance _ (tables w) _ Hok)).
  split.
  - intros Hr. apply referenced_true in Hr.
    rewrite (deleteCustomer_referenced _ _ Hf Hr). now repeat split.
  - intros Hr. apply referenced_false in Hr.
    rewrite (deleteCustomer_executed _ _ Hf Hr Hf2).
    cbn [completion trace world advance tables execute fst customers].
    repeat (split; [reflexivity|]).
    intros r. rewrite filter_In. unfold neqb.
    rewrite negb_true_iff, String.eqb_neq. reflexivity.
Qed.

Lemma deleteCustomer_guard_witness :
  nextCallsSucceed 2 (Sample.env [])
  /\ completion (deleteCustomer "9" (Sample.env [])) = Normal refusal
  /\ customers (tables (world (deleteCustomer "5" (Sample.env []))))
     = [Sample.alice].
Proof.
  assert (Hok : nextCallsSucceed 2 (Sample.env [])).
  { intros i _. destruct i as [|[|i]]; reflexivity. }
  split; [exact Hok|]. split.
  - apply (proj1 (deleteCustomer_guard "9" (Sample.env []) Hok)).
    exists Sample.invoice1. split; [left|]; reflexivity.
  - destruct (proj2 (deleteCustomer_guard "5" (Sample.env []) Hok))
      as [_ [_ [Hc _]]].
    + intros r [<-|[]]. discriminate.
    + rewrite Hc. reflexivity.
Defined.

(** ** C5 *)

(** C5. When the sign-in fails: with an [AuthError] of type
    CredentialsSignin, [authenticate] returns "Invalid credentials."; with
    an error that is not an [AuthError], it throws that same error again;
    with an [AuthError] of any other type, it returns "Something went
    wrong.". *)
Theorem authenticate_on_failure :
  forall (prevState : option string) (formData : FormData) (w : World)
         (e : Error),
    auth w "credentials" formData = Some e ->
    (e = AuthError "CredentialsSignin" ->
       completion (authenticate prevState formData w)
       = Normal (Some "Invalid credentials."))
    /\ (isAuthError e = false ->
       completion (authenticate prevState formData w) = Throw e)
    /\ (forall type, e = AuthError type -> type <> "CredentialsSignin" ->
       completion (authenticate prevState formData w)
       = Normal (Some "Something went wrong.")).
Proof.
  intros prevState formData w e He.
  rewrite authenticate_run, He. cbn [completion].
  split; [|split].
  - intros ->. reflexivity.
  - destruct e; [reflexivity..|discriminate|reflexivity|reflexivity].
  - intros type -> N. apply String.eqb_neq in N. now rewrite N.
Qed.

Lemma authenticate_on_failure_witness :
  completion (authenticate None Sample.credentials
                (Sample.failing (AuthError "CredentialsSignin")))
  = Normal (Some "Invalid credentials.")
  /\ completion (authenticate None Sample.credentials
                   (Sample.failing (OtherError "fetch failed")))
     = Throw (OtherError "fetch failed")
  /\ completion (authenticate None Sample.credentials
                   (Sample.failing (AuthError "CallbackRouteError")))
     = Normal (Some "Something went wrong.").
Proof.
  split; [|split].
  - exact (proj1 (authenticate_on_failure None Sample.credentials
                    (Sample.failing (AuthError "CredentialsSignin")) _
                    eq_refl) eq_refl).
  - exact (proj1 (proj2 (authenticate_on_failure None Sample.credentials
                    (Sample.failing (OtherError "fetch failed")) _
                    eq_refl)) eq_refl).
  - apply (proj2 (proj2 (authenticate_on_failure None Sample.credentials
                    (Sample.failing (AuthError "CallbackRouteError")) _
                    eq_refl)) "CallbackRouteError" eq_refl).
    discriminate.
Defined.

(** ** C9 *)

(** C9. When the sign-in returns without throwing, [authenticate] returns
    [undefined]: no string at all. *)
Theorem authenticate_on_success :
  forall (prevState : option string) (formData : FormData) (w : World),
    auth w "credentials" formData = None ->
    completion (authenticate prevState formData w) = Normal None.
Proof.
  intros prevState formData w H. now rewrite authenticate_run, H.
Qed.

Lemma authenticate_on_success_witness :
  auth (Sample.env []) "credentials" Sample.credentials = None
  /\ completion (authenticate None Sample.credentials (Sample.env []))
     = Normal None.
Proof.
  split; [reflexivity|].
  exact (authenticate_on_success None Sample.credentials (Sample.env [])
           eq_refl).
Defined.

(** ** C10 *)

(** C10. When the form does not validate, and when it validates but the
    uniqueness check answers that the email is in use, the message
    [updateCustomer] returns is "Missing Fields. Failed to Create
    Customer.": it says Create although the action updates. *)
Theorem updateCustomer_says_Create :
  forall (id : string) (prevState : CustomerState) (formData : FormData)
         (w : World),
    (forall fieldErrors,
       UpdateCustomer_safeParse (get formData "name") (get formData "email")
       = Failure fieldErrors ->
       completion (updateCustomer id prevState formData w)
       = Normal {| c_errors := Some fieldErrors;
                   c_message :=
                     Some "Missing Fields. Failed to Create Customer." |})
    /\ (forall data,
       UpdateCustomer_safeParse (get formData "name") (get formData "email")
       = Success data ->
       completion (isEmailUnique (email data) (Some id) w) = Normal false ->
       completion (updateCustomer id prevState formData w)
       = Normal {| c_errors :=
                     Some {| err_name := None;
                             err_email := Some ["Email is already is use."] |};
                   c_message :=
                     Some "Missing Fields. Failed to Create Customer." |}).
Proof.
  intros id prevState formData w. split.
  - intros e He. now rewrite (updateCustomer_invalid _ _ _ _ _ He).
  - intros data Hv Hu. destruct (nextFails w) eqn:Hf.
    + rewrite (isEmailUnique_rejected _ _ _ Hf) in Hu. discriminate.
    + rewrite (isEmailUnique_executed _ _ _ Hf) in Hu. cbn [completion] in Hu.
      assert (Ht : emailTaken (email data) (Some id) (tables w) = true).
      { destruct (emailTaken _ _ _); [reflexivity|discriminate]. }
      now rewrite (updateCustomer_taken _ _ _ _ Hv id Hf Ht).
Qed.

Lemma updateCustomer_says_Create_witness :
  c_message
    (match completion (updateCustomer "5" Sample.noCustomerState
                         (Sample.customerFields "" "b@x.com") (Sample.env []))
     with Normal r => r | Throw _ => Sample.noCustomerState end)
  = Some "Missing Fields. Failed to Create Customer."
  /\ completion (updateCustomer "5" Sample.noCustomerState
                   (Sample.customerFields "Bob" "a@x.com") (Sample.env []))
     = Normal emailInUse.
Proof.
  split.
  - rewrite (proj1 (updateCustomer_says_Create "5" Sample.noCustomerState
                      (Sample.customerFields "" "b@x.com") (Sample.env []))
               _ eq_refl).
    reflexivity.
  - exact (proj2 (updateCustomer_says_Create "5" Sample.noCustomerState
                    (Sample.customerFields "Bob" "a@x.com") (Sample.env []))
             {| name := "Bob"; email := "a@x.com" |} eq_refl eq_refl).
Defined.

(** ** C7 *)

Lemma isWrite_uniqueQuery email customerId :
  isWrite (uniqueQuery email customerId) = false.
Proof.
  unfold uniqueQuery.
  destruct customerId as [id|]; [destruct (String.eqb id "")|]; reflexivity.
Qed.

(** closes a path on which no write was executed *)
Ltac no_write H :=
  let s := fresh "s" in
  let Hw := fresh "Hw" in
  let Hin := fresh "Hin" in
  destruct H as [s [Hw Hin]]; cbn [trace In] in Hin;
  repeat (destruct Hin as [Hin|Hin];
          [ try discriminate Hin; injection Hin as <-;
            try rewrite isWrite_uniqueQuery in Hw; try discriminate Hw;
            match type of Hw with
            | context [String.eqb ?a ?b] => destruct (String.eqb a b)
            end; discriminate Hw | ]);
  contradiction.

(** closes a path that ends with a write and the invalidation *)
Ltac wrote_last before s :=
  split; [reflexivity | exists before, s; split; reflexivity].

(** C7. Whenever a mutation has executed its INSERT, UPDATE or DELETE, the
    effect that follows is the invalidation of the listing path, and it is
    the last one; the create and update actions then end by the redirect
    to that path, which is thrown and so never returns to the caller,
    while [deleteInvoice] and [deleteCustomer] return their message. *)
Theorem successful_write_invalidates :
  forall (id : string) (prevState : State) (cState : CustomerState)
         (formData : FormData) (w : World),
    (wrote (createInvoice prevState formData w) ->
       completion (createInvoice prevState formData w)
       = Throw (NEXT_REDIRECT "/dashboard/invoices")
       /\ wroteThenInvalidated "/dashboard/invoices"
            (createInvoice prevState formData w))
    /\ (wrote (updateInvoice id prevState formData w) ->
       completion (updateInvoice id prevState formData w)
       = Throw (NEXT_REDIRECT "/dashboard/invoices")
       /\ wroteThenInvalidated "/dashboard/invoices"
            (updateInvoice id prevState formData w))
    /\ (wrote (createCustomer cState formData w) ->
       completion (createCustomer cState formData w)
       = Throw (NEXT_REDIRECT "/dashboard/customers")
       /\ wroteThenInvalidated "/dashboard/customers"
            (createCustomer cState formData w))
    /\ (wrote (updateCustomer id cState formData w) ->
       completion (updateCustomer id cState formData w)
       = Throw (NEXT_REDIRECT "/dashboard/customers")
       /\ wroteThenInvalidated "/dashboard/customers"
            (updateCustomer id cState formData w))
    /\ (wrote (deleteInvoice id w) ->
       completion (deleteInvoice id w)
       = Normal {| errors := None; message := Some "Deleted Invoice." |}
       /\ wroteThenInvalidated "/dashboard/invoices" (deleteInvoice id w))
    /\ (wrote (deleteCustomer id w) ->
       completion (deleteCustomer id w)
       = Normal {| c_errors := None; c_message := Some "Deleted Customer." |}
       /\ wroteThenInvalidated "/dashboard/customers" (deleteCustomer id w)).
Proof.
  intros id prevState cState formData w.
  split; [|split; [|split; [|split; [|split]]]].
  - apply createInvoice_cases; intros d Hv; [|intros Hf..]; intros H;
      [no_write H | no_write H |].
    wrote_last (@nil Event) (insertInvoice d w).
  - apply updateInvoice_cases; intros d Hv; [|intros Hf..]; intros H;
      [no_write H | no_write H |].
    wrote_last (@nil Event) (updateInvoiceStmt id d).
  - apply createCustomer_cases; intros d Hv;
      [|intros Hf|intros Hf Ht|intros Hf Ht Hf2..]; intros H;
      [no_write H | no_write H | no_write H | no_write H |].
    wrote_last [Executed (uniqueQuery (email d) None)]
      (INSERT_INTO_customers (name d) (email d)).
  - apply updateCustomer_cases; intros d Hv;
      [|intros Hf|intros Hf Ht|intros Hf Ht Hf2..]; intros H;
      [no_write H | no_write H | no_write H | no_write H |].
    wrote_last [Executed (uniqueQuery (email d) (Some id))]
      (UPDATE_customers (name d) (email d) id).
  - apply deleteInvoice_cases; intros Hf H; [no_write H|].
    wrote_last (@nil Event) (DELETE_FROM_invoices id).
  - apply deleteCustomer_cases;
      [intros Hf|intros Hf Hr|intros Hf Hr Hf2..]; intros H;
      [no_write H | no_write H | no_write H |].
    wrote_last [Executed (SELECT_assigned_to_invoice id)]
      (DELETE_FROM_customers id).
Qed.

Lemma successful_write_invalidates_witness :
  wrote (deleteInvoice "i1" (Sample.env []))
  /\ completion (deleteInvoice "i1" (Sample.env []))
     = Normal {| errors := None; message := Some "Deleted Invoice." |}
  /\ wrote (updateInvoice "i1" Sample.noState
              (Sample.invoiceFields "20" "paid") (Sample.env []))
  /\ completion (updateInvoice "i1" Sample.noState
                   (Sample.invoiceFields "20" "paid") (Sample.env []))
     = Throw (NEXT_REDIRECT "/dashboard/invoices").
Proof.
  assert (Hd : wrote (deleteInvoice "i1" (Sample.env []))).
  { exists (DELETE_FROM_invoices "i1"). split; [reflexivity|left; reflexivity]. }
  assert (Hu : wrote (updateInvoice "i1" Sample.noState
                        (Sample.invoiceFields "20" "paid") (Sample.env []))).
  { exists (UPDATE_invoices "c1" (of_Z 2000) "paid" "i1").
    split; [reflexivity|left; vm_compute; reflexivity]. }
  split; [exact Hd|]. split; [|split; [exact Hu|]].
  - apply (successful_write_invalidates "i1" Sample.noState
             Sample.noCustomerState [] (Sample.env [])), Hd.
  - apply (successful_write_invalidates "i1" Sample.noState
             Sample.noCustomerState (Sample.invoiceFields "20" "paid")
             (Sample.env [])), Hu.
Defined.

(** ** C2 *)

Lemma emailTaken_create email t :
  emailTaken email None t = true <->
  exists r, In r (customers t) /\ cust_email r = email.
Proof.
  unfold emailTaken. rewrite existsb_exists.
  split; intros [r [Hin H]]; exists r; split; auto; now apply String.eqb_eq.
Qed.

Lemma emailTaken_by_other email id t :
  (exists r, In r (customers t) /\ cust_email r = email /\ cust_id r <> id) ->
  emailTaken email (Some id) t = true.
Proof.
  intros [r [Hin [He Hn]]]. unfold emailTaken.
  destruct (String.eqb id ""); apply existsb_exists; exists r;
    (split; [exact Hin|]).
  - now apply String.eqb_eq.
  - apply andb_true_iff. split; [now apply String.eqb_eq|].
    unfold neqb. now apply negb_true_iff, String.eqb_neq.
Qed.

Lemma emailTaken_own email id t :
  id <> "" ->
  (forall r, In r (customers t) -> cust_email r = email -> cust_id r = id) ->
  emailTaken email (Some id) t = false.
Proof.
  intros Hid Hown. unfold emailTaken.
  apply String.eqb_neq in Hid. rewrite Hid.
  apply not_true_iff_false. intros H.
  apply existsb_exists in H as [r [Hin H]].
  apply andb_true_iff in H as [He Hn].
  apply String.eqb_eq in He. unfold neqb in Hn.
  apply negb_true_iff, String.eqb_neq in Hn.
  now apply Hn, Hown.
Qed.

(** C2, as amended. For a form that validates, and a store that accepts
    the statements: when the validated email is held by some customer,
    [createCustomer] returns the field error "Email is already is use."
    after the uniqueness query alone, the tables being as they were; so
    does [updateCustomer] when the email is held by a customer with
    another id; and when the id given to [updateCustomer] is not empty
    and every customer holding the email has that id, the check passes:
    the UPDATE is executed and the action redirects. *)
Theorem email_uniqueness_rule :
  forall (id : string) (prevState : CustomerState) (formData : FormData)
         (w : World) (data : CustomerData),
    customerForm formData = Success data ->
    nextCallsSucceed 2 w ->
    ((exists r, In r (customers (tables w)) /\ cust_email r = email data) ->
       completion (createCustomer prevState formData w) = Normal emailInUse
       /\ trace (createCustomer prevState formData w)
          = [Executed (SELECT_email_unused (email data))]
       /\ tables (world (createCustomer prevState formData w)) = tables w)
    /\ ((exists r, In r (customers (tables w)) /\ cust_email r = email data
                   /\ cust_id r <> id) ->
       completion (updateCustomer id prevState formData w) = Normal emailInUse
       /\ trace (updateCustomer id prevState formData w)
          = [Executed (uniqueQuery (email data) (Some id))]
       /\ tables (world (updateCustomer id prevState formData w)) = tables w)
    /\ (id <> "" ->
        (forall r, In r (customers (tables w)) -> cust_email r = email data ->
                   cust_id r = id) ->
       completion (updateCustomer id prevState formData w)
       = Throw (NEXT_REDIRECT "/dashboard/customers")
       /\ trace (updateCustomer id prevState formData w)
          = [Executed (SELECT_email_unused_except (email data) id);
             Executed (UPDATE_customers (name data) (email data) id);
             Revalidated "/dashboard/customers"]).
Proof.
  intros id prevState formData w data Hv Hok.
  assert (Hf := nextCallsSucceed_head _ _ Hok).
  assert (Hf2 := nextCallsSucceed_head _ _
                   (nextCallsSucceed_advance _ (tables w) _ Hok)).
  split; [|split].
  - intros H. apply emailTaken_create in H.
    rewrite (createCustomer_taken _ _ _ _ Hv Hf H). now repeat split.
  - intros H. apply emailTaken_by_other in H.
    rewrite (updateCustomer_taken _ _ _ _ Hv id Hf H). now repeat split.
  - intros Hid Hown.
    rewrite (updateCustomer_executed _ _ _ _ Hv id Hf
               (emailTaken_own _ _ _ Hid Hown) Hf2).
    cbn [completion trace uniqueQuery].
    apply String.eqb_neq in Hid. rewrite Hid. now split.
Qed.

Lemma email_uniqueness_rule_witness :
  customerForm (Sample.customerFields "Bob" "a@x.com")
  = Success {| name := "Bob"; email := "a@x.com" |}
  /\ completion (updateCustomer "5" Sample.noCustomerState
                   (Sample.customerFields "Bob" "a@x.com") (Sample.env []))
     = Normal emailInUse
  /\ completion (updateCustomer "5" Sample.noCustomerState
                   (Sample.customerFields "Robert" " b@x.com ") (Sample.env []))
     = Throw (NEXT_REDIRECT "/dashboard/customers").
Proof.
  assert (Hok : nextCallsSucceed 2 (Sample.env [])).
  { intros i _. destruct i as [|[|i]]; reflexivity. }
  split; [reflexivity|]. split.
  - apply (email_uniqueness_rule "5" Sample.noCustomerState
             (Sample.customerFields "Bob" "a@x.com") (Sample.env [])
             {| name := "Bob"; email := "a@x.com" |} eq_refl Hok).
    exists Sample.alice. split; [left; reflexivity|]. split; [reflexivity|].
    discriminate.
  - apply (email_uniqueness_rule "5" Sample.noCustomerState
             (Sample.customerFields "Robert" " b@x.com ") (Sample.env [])
             {| name := "Robert"; email := "b@x.com" |} eq_refl Hok).
    + discriminate.
    + intros r [<-|[<-|[]]]; [discriminate|reflexivity].
Defined.

(** The claim as first stated fails in two places. With the empty string
    as id, the check excludes nothing: the email of the very record being
    updated, held by no other customer, is refused. And a form that does
    not validate is answered with the errors of the validation, whatever
    its email: here the name is missing, and the email, although held by
    customer 9, gets no error. *)
Lemma email_uniqueness_counterexample :
  let own := {| cust_id := ""; cust_name := "Ann"; cust_email := "a@x.com";
                cust_image_url := "" |} in
  let w := {| tables := {| invoices := []; customers := [own];
                           idSupply := idSupply Sample.store;
                           assigned := 0 |};
              faults := []; clock := 0; auth := fun _ _ => None |} in
  (forall r, In r (customers (tables w)) -> cust_email r = "a@x.com" ->
             cust_id r = "")
  /\ completion (updateCustomer "" Sample.noCustomerState
                   (Sample.customerFields "Ann" "a@x.com") w)
     = Normal emailInUse
  /\ completion (updateCustomer "5" Sample.noCustomerState
                   (Sample.customerFields "" "a@x.com") (Sample.env []))
     = Normal {| c_errors := Some {| err_name := Some ["Name is required"];
                                     err_email := None |};
                 c_message :=
                   Some "Missing Fields. Failed to Create Customer." |}.
Proof.
  cbv zeta. split; [|split].
  - intros r [<-|[]] _. reflexivity.
  - reflexivity.
  - reflexivity.
Qed.

(** ** C6 *)

(** C6. The uniqueness query of [createCustomer] and [updateCustomer] is
    awaited outside their try block: when the store rejects it, the two
    actions throw the database error instead of returning a message, and
    nothing else happens. *)
Theorem customer_uniqueness_query_failure_is_thrown :
  completion (createCustomer Sample.noCustomerState
                (Sample.customerFields "Carol" "c@x.com") (Sample.env [true]))
  = Throw (DatabaseError (SELECT_email_unused "c@x.com"))
  /\ trace (createCustomer Sample.noCustomerState
              (Sample.customerFields "Carol" "c@x.com") (Sample.env [true]))
     = [Rejected (SELECT_email_unused "c@x.com")]
  /\ completion (updateCustomer "5" Sample.noCustomerState
                   (Sample.customerFields "Bob" "b@x.com") (Sample.env [true]))
     = Throw (DatabaseError (SELECT_email_unused_except "b@x.com" "5")).
Proof. repeat split. Qed.

(** closes a path on which no call, or no write, was rejected *)
Ltac no_rejection H :=
  let s := fresh "s" in
  let Hin := fresh "Hin" in
  first [ destruct H as [s [_ Hin]] | destruct H as [s Hin] ];
  cbn [trace In] in Hin;
  repeat (destruct Hin as [Hin|Hin]; [discriminate Hin|]);
  contradiction.

(** closes a path that returned the database message *)
Ltac database_error :=
  split;
  [ eexists; eexists; split; [reflexivity | split; reflexivity]
  | intros path Hin; cbn [trace In] in Hin;
    repeat (destruct Hin as [Hin|Hin]; [discriminate Hin|]);
    contradiction ].

(** What does hold of storage failures: a write the store rejects is
    reported by every mutation as a message, and so is, by the two delete
    actions, any call the store rejects. *)
Lemma rejected_write_is_reported :
  forall (id : string) (prevState : State) (cState : CustomerState)
         (formData : FormData) (w : World),
    (writeRejected (createInvoice prevState formData w) ->
       reportsDatabaseError message (createInvoice prevState formData w))
    /\ (writeRejected (updateInvoice id prevState formData w) ->
       reportsDatabaseError message (updateInvoice id prevState formData w))
    /\ (callRejected (deleteInvoice id w) ->
       reportsDatabaseError message (deleteInvoice id w))
    /\ (writeRejected (createCustomer cState formData w) ->
       reportsDatabaseError c_message (createCustomer cState formData w))
    /\ (writeRejected (updateCustomer id cState formData w) ->
       reportsDatabaseError c_message (updateCustomer id cState formData w))
    /\ (callRejected (deleteCustomer id w) ->
       reportsDatabaseError c_message (deleteCustomer id w)).
Proof.
  intros id prevState cState formData w.
  split; [|split; [|split; [|split; [|split]]]].
  - apply createInvoice_cases; intros d Hv; [|intros Hf..]; intros H;
      [no_rejection H | database_error | no_rejection H].
  - apply updateInvoice_cases; intros d Hv; [|intros Hf..]; intros H;
      [no_rejection H | database_error | no_rejection H].
  - apply deleteInvoice_cases; intros Hf H;
      [database_error | no_rejection H].
  - apply createCustomer_cases; intros d Hv;
      [|intros Hf|intros Hf Ht|intros Hf Ht Hf2..]; intros H;
      [no_rejection H | | no_rejection H | database_error | no_rejection H].
    destruct H as [s [Hw [Hin|[]]]].
    assert (E : s = uniqueQuery (email d) None) by congruence.
    rewrite E, isWrite_uniqueQuery in Hw. discriminate.
  - apply updateCustomer_cases; intros d Hv;
      [|intros Hf|intros Hf Ht|intros Hf Ht Hf2..]; intros H;
      [no_rejection H | | no_rejection H | database_error | no_rejection H].
    destruct H as [s [Hw [Hin|[]]]].
    assert (E : s = uniqueQuery (email d) (Some id)) by congruence.
    rewrite E, isWrite_uniqueQuery in Hw. discriminate.
  - apply deleteCustomer_cases;
      [intros Hf|intros Hf Hr|intros Hf Hr Hf2..]; intros H;
      [database_error | no_rejection H | database_error | no_rejection H].
Qed.

(* ================================================================== *)
(** * Further properties of the actions *)
(* ================================================================== *)

(** ** Validation of the invoice form *)

Lemma positive_iff x :
  positive x = true <-> isNaN x = false /\ le x (of_Z 0) = false.
Proof.
  unfold positive, le, SFltb, SFleb. change (of_Z 0) with (S754_zero false).
  destruct x as [s|[|]| |[|] m e]; cbn; intuition congruence.
Qed.

Lemma FormSchema_customerId_OK v c :
  FormSchema_customerId v = OK c <-> v = Some (EntryString c).
Proof.
  unfold FormSchema_customerId, string_.
  destruct v as [[s|f]|]; cbn [stringChecks]; split; intros H;
    try discriminate; congruence.
Qed.

Lemma FormSchema_amount_OK v a :
  FormSchema_amount v = OK a <-> a = Number v /\ positive a = true.
Proof.
  unfold FormSchema_amount, coerce_number_gt. rewrite positive_iff. split.
  - destruct (isNaN (Number v)) eqn:En; [discriminate|].
    destruct (le (Number v) (of_Z 0)) eqn:El; [discriminate|].
    intros H. injection H as <-. auto.
  - intros [-> [En El]]. now rewrite En, El.
Qed.

Lemma FormSchema_status_OK v s :
  FormSchema_status v = OK s <->
  v = Some (EntryString s) /\ statusValid s.
Proof.
  unfold FormSchema_status, enum, statusValid. cbn [existsb].
  destruct v as [[x|f]|]; try (split; [discriminate|intros [H _]; discriminate]).
  destruct (String.eqb_spec x "pending") as [->|Np].
  - cbn [orb]. split; [intros H; injection H as <-; auto|].
    intros [H _]. congruence.
  - destruct (String.eqb_spec x "paid") as [->|Nq]; cbn [orb].
    + split; [intros H; injection H as <-; auto|]. intros [H _]. congruence.
    + split; [discriminate|]. intros [H [E|E]]; congruence.
Qed.

Lemma invoiceForm_Success formData d :
  invoiceForm formData = Success d <->
  FormSchema_customerId (get formData "customerId") = OK (customerId d)
  /\ FormSchema_amount (get formData "amount") = OK (amount d)
  /\ FormSchema_status (get formData "status") = OK (status d).
Proof.
  unfold invoiceForm, CreateInvoice_safeParse.
  destruct (FormSchema_customerId _) as [c|ic];
    destruct (FormSchema_amount _) as [a|ia];
    destruct (FormSchema_status _) as [s|is_]; destruct d as [dc da ds];
    cbn [customerId amount status]; split; intros H;
    try discriminate H; try (decompose [and] H; discriminate).
  - injection H as <- <- <-. auto.
  - destruct H as [H1 [H2 H3]]. congruence.
Qed.

(** X1. The invoice form validates exactly when the customerId field is a
    string (the empty string included), the amount field coerces to a
    number above zero, and the status field is the string pending or
    paid; the validated data are that string, that number and that
    status. *)
Theorem invoice_form_accepted_iff :
  forall (formData : FormData) (d : InvoiceData),
    invoiceForm formData = Success d <->
    get formData "customerId" = Some (EntryString (customerId d))
    /\ amount d = Number (get formData "amount")
    /\ positive (amount d) = true
    /\ get formData "status" = Some (EntryString (status d))
    /\ statusValid (status d).
Proof.
  intros formData d.
  rewrite invoiceForm_Success, FormSchema_customerId_OK,
    FormSchema_amount_OK, FormSchema_status_OK.
  tauto.
Qed.

Lemma invoice_form_accepted_iff_witness :
  invoiceForm (Sample.invoiceFields "0.5" "paid")
  = Success {| customerId := "c1"; amount := StringToNumber "0.5";
               status := "paid" |}
  /\ positive (StringToNumber "0.5") = true.
Proof.
  split; [reflexivity|].
  exact (proj1 (proj2 (proj2
           (proj1 (invoice_form_accepted_iff
                     (Sample.invoiceFields "0.5" "paid")
                     {| customerId := "c1"; amount := StringToNumber "0.5";
                        status := "paid" |}) eq_refl)))).
Defined.

(** X2. When the customerId field is missing or is a file, [createInvoice]
    and [updateInvoice] return the field error "Please select a
    customer." with their generic message, and the run has no effect: no
    SQL call, the world as it was. *)
Theorem invoice_without_customer_refused :
  forall (id : string) (prevState : State) (formData : FormData) (w : World),
    notString (get formData "customerId") ->
    exists fieldErrors,
      err_customerId fieldErrors = Some ["Please select a customer."]
      /\ createInvoice prevState formData w =
        {| completion :=
             Normal {| errors := Some fieldErrors;
                       message :=
                         Some "Missing Fields. Failed to Create Invoice." |};
           world := w; trace := [] |}
      /\ updateInvoice id prevState formData w =
        {| completion :=
             Normal {| errors := Some fieldErrors;
                       message :=
                         Some "Missing Fields. Failed to Update Invoice." |};
           world := w; trace := [] |}.
Proof.
  intros id prevState formData w H.
  assert (Hc : FormSchema_customerId (get formData "customerId")
               = INVALID ["Please select a customer."]).
  { unfold FormSchema_customerId, string_.
    destruct (get formData "customerId") as [[s|f]|]; try reflexivity.
    now contradiction (H s). }
  assert (Hv : invoiceForm formData =
    Failure {| err_customerId := Some ["Please select a customer."];
               err_amount :=
                 fieldError (FormSchema_amount (get formData "amount"));
               err_status :=
                 fieldError (FormSchema_status (get formData "status")) |}).
  { unfold invoiceForm, CreateInvoice_safeParse. rewrite Hc. reflexivity. }
  eexists. split; [|split].
  2: apply createInvoice_invalid, Hv.
  2: apply updateInvoice_invalid, Hv.
  reflexivity.
Qed.

Lemma invoice_without_customer_refused_witness :
  notString (get [("amount", EntryString "12"); ("status", EntryString "paid")]
               "customerId")
  /\ exists fieldErrors,
       err_customerId fieldErrors = Some ["Please select a customer."]
       /\ completion (createInvoice Sample.noState
                        [("amount", EntryString "12");
                         ("status", EntryString "paid")] (Sample.env []))
          = Normal {| errors := Some fieldErrors;
                      message :=
                        Some "Missing Fields. Failed to Create Invoice." |}.
Proof.
  assert (H : notString (get [("amount", EntryString "12");
                              ("status", EntryString "paid")] "customerId"))
    by (intros s; discriminate).
  split; [exact H|].
  destruct (invoice_without_customer_refused "i1" Sample.noState
              [("amount", EntryString "12"); ("status", EntryString "paid")]
              (Sample.env []) H) as [e [He [Hc _]]].
  exists e. split; [exact He|]. now rewrite Hc.
Defined.

(** ** Validation of the customer form *)

Lemma CustomerFormSchema_name_OK v n :
  CustomerFormSchema_name v = OK n <->
  exists raw, v = Some (EntryString raw) /\ n = JS.trim raw /\ n <> "".
Proof.
  unfold CustomerFormSchema_name, string_.
  destruct v as [[raw|f]|];
    try (split; [discriminate|intros [r [H _]]; discriminate]).
  cbn [stringChecks app].
  destruct (JS.trim raw) as [|c t] eqn:E; cbn [String.length Nat.ltb Nat.leb].
  - split; [discriminate|]. intros [r [H [-> N]]].
    injection H as <-. now rewrite E in N.
  - split.
    + intros H. injection H as <-. exists raw. now rewrite E.
    + intros [r [H [-> _]]]. injection H as <-. now rewrite E.
Qed.

Lemma CustomerFormSchema_email_OK v e :
  CustomerFormSchema_email v = OK e <->
  exists raw, v = Some (EntryString raw) /\ e = JS.trim raw
              /\ emailRegex e = true.
Proof.
  unfold CustomerFormSchema_email, string_.
  destruct v as [[raw|f]|];
    try (split; [discriminate|intros [r [H _]]; discriminate]).
  cbn [stringChecks app].
  destruct (emailRegex (JS.trim raw)) eqn:E.
  - split.
    + intros H. injection H as <-. now exists raw.
    + intros [r [H [-> _]]]. now injection H as <-.
  - split; [discriminate|]. intros [r [H [-> R]]].
    injection H as <-. congruence.
Qed.

Lemma customerForm_Success formData d :
  customerForm formData = Success d <->
  CustomerFormSchema_name (get formData "name") = OK (name d)
  /\ CustomerFormSchema_email (get formData "email") = OK (email d).
Proof.
  unfold customerForm, CreateCustomer_safeParse.
  destruct (CustomerFormSchema_name _) as [n|i];
    destruct (CustomerFormSchema_email _) as [e|j]; destruct d as [dn de];
    cbn [name email]; split; intros H;
    try discriminate H; try (decompose [and] H; discriminate).
  - injection H as <- <-. auto.
  - destruct H. congruence.
Qed.

(** X3. The customer form validates exactly when the name field is a
    string that is not blank and the email field is a string that matches
    the email pattern, both once trimmed; the validated name and email
    are the trimmed strings. *)
Theorem customer_form_accepted_iff :
  forall (formData : FormData) (d : CustomerData),
    customerForm formData = Success d <->
    exists rawName rawEmail,
      get formData "name" = Some (EntryString rawName)
      /\ get formData "email" = Some (EntryString rawEmail)
      /\ name d = JS.trim rawName /\ name d <> ""
      /\ email d = JS.trim rawEmail /\ emailRegex (email d) = true.
Proof.
  intros formData d.
  rewrite customerForm_Success, CustomerFormSchema_name_OK,
    CustomerFormSchema_email_OK.
  split.
  - intros [[rn [Hn [En Nn]]] [re [He [Ee Re]]]]. exists rn, re. tauto.
  - intros [rn [re [Hn [He [En [Nn [Ee Re]]]]]]].
    split; [exists rn | exists re]; tauto.
Qed.

Lemma customer_form_accepted_iff_witness :
  customerForm (Sample.customerFields "  Ann Lee " " ann@x.com")
  = Success {| name := "Ann Lee"; email := "ann@x.com" |}.
Proof.
  apply (proj2 (customer_form_accepted_iff
                  (Sample.customerFields "  Ann Lee " " ann@x.com")
                  {| name := "Ann Lee"; email := "ann@x.com" |})).
  exists "  Ann Lee ", " ann@x.com".
  repeat (split; [reflexivity|]). split; [discriminate|].
  split; reflexivity.
Defined.

Lemma nameRefused_invalid v :
  nameRefused v -> exists m, CustomerFormSchema_name v = INVALID [m].
Proof.
  unfold nameRefused, CustomerFormSchema_name, string_. intros H.
  destruct v as [[raw|f]|]; try (eexists; reflexivity).
  cbn [stringChecks app]. rewrite (H raw eq_refl). eexists; reflexivity.
Qed.

Lemma emailRefused_invalid v :
  emailRefused v -> exists m, CustomerFormSchema_email v = INVALID [m].
Proof.
  unfold emailRefused, CustomerFormSchema_email, string_. intros H.
  destruct v as [[raw|f]|]; try (eexists; reflexivity).
  cbn [stringChecks app]. rewrite (H raw eq_refl). eexists; reflexivity.
Qed.

Lemma customerForm_Failure formData :
  (exists i, CustomerFormSchema_name (get formData "name") = INVALID i)
  \/ (exists i, CustomerFormSchema_email (get formData "email") = INVALID i) ->
  customerForm formData =
  Failure {| err_name :=
               fieldError (CustomerFormSchema_name (get formData "name"));
             err_email :=
               fieldError (CustomerFormSchema_email (get formData "email")) |}.
Proof.
  unfold customerForm, CreateCustomer_safeParse.
  intros [[i H]|[i H]]; rewrite H;
    destruct (CustomerFormSchema_name _); reflexivity.
Qed.

(** X4. When the name field is not a string or is blank once trimmed, or
    the email field is not a string or does not match the pattern once
    trimmed, [createCustomer] and [updateCustomer] return the field
    errors with their message and have no effect: not even the
    uniqueness query is sent. A blank name gets "Name is required", an
    email that does not match gets "Invalid email address"; the errors
    of both fields are reported together. *)
Theorem customer_validation_refuses :
  forall (id : string) (prevState : CustomerState) (formData : FormData)
         (w : World),
    nameRefused (get formData "name")
    \/ emailRefused (get formData "email") ->
    exists fieldErrors,
      createCustomer prevState formData w =
        {| completion :=
             Normal {| c_errors := Some fieldErrors;
                       c_message :=
                         Some "Missing Fields. Failed to Create Customer." |};
           world := w; trace := [] |}
      /\ updateCustomer id prevState formData w =
        {| completion :=
             Normal {| c_errors := Some fieldErrors;
                       c_message :=
                         Some "Missing Fields. Failed to Create Customer." |};
           world := w; trace := [] |}
      /\ (nameRefused (get formData "name") ->
          exists m, err_name fieldErrors = Some [m])
      /\ (emailRefused (get formData "email") ->
          exists m, err_email fieldErrors = Some [m])
      /\ (forall raw, get formData "name" = Some (EntryString raw) ->
          JS.trim raw = "" ->
          err_name fieldErrors = Some ["Name is required"])
      /\ (forall raw, get formData "email" = Some (EntryString raw) ->
          emailRegex (JS.trim raw) = false ->
          err_email fieldErrors = Some ["Invalid email address"]).
Proof.
  intros id prevState formData w H.
  assert (Hv : customerForm formData = _) by
    (apply customerForm_Failure;
     destruct H as [H|H];
       [left; destruct (nameRefused_invalid _ H)
       | right; destruct (emailRefused_invalid _ H)]; eauto).
  eexists. split; [|split; [|split; [|split; [|split]]]].
  - apply createCustomer_invalid, Hv.
  - apply updateCustomer_invalid, Hv.
  - intros Hn. destruct (nameRefused_invalid _ Hn) as [m Hm].
    cbn [err_name]. rewrite Hm. exists m. reflexivity.
  - intros He. destruct (emailRefused_invalid _ He) as [m Hm].
    cbn [err_email]. rewrite Hm. exists m. reflexivity.
  - intros raw Hg Hb. cbn [err_name]. rewrite Hg.
    unfold CustomerFormSchema_name, string_. cbn [stringChecks app].
    rewrite Hb. reflexivity.
  - intros raw Hg Hb. cbn [err_email]. rewrite Hg.
    unfold CustomerFormSchema_email, string_. cbn [stringChecks app].
    rewrite Hb. reflexivity.
Qed.

Lemma customer_validation_refuses_witness :
  nameRefused (get (Sample.customerFields "   " "not-an-email") "name")
  /\ emailRefused (get (Sample.customerFields "   " "not-an-email") "email")
  /\ createCustomer Sample.noCustomerState
       (Sample.customerFields "   " "not-an-email") (Sample.env []) =
     {| completion :=
          Normal {| c_errors :=
                      Some {| err_name := Some ["Name is required"];
                              err_email := Some ["Invalid email address"] |};
                    c_message :=
                      Some "Missing Fields. Failed to Create Customer." |};
        world := Sample.env []; trace := [] |}.
Proof.
  assert (Hn : nameRefused
                 (get (Sample.customerFields "   " "not-an-email") "name")).
  { intros raw H. injection H as <-. reflexivity. }
  assert (He : emailRefused
                 (get (Sample.customerFields "   " "not-an-email") "email")).
  { intros raw H. injection H as <-. reflexivity. }
  split; [exact Hn|]. split; [exact He|].
  destruct (customer_validation_refuses "5" Sample.noCustomerState
              (Sample.customerFields "   " "not-an-email") (Sample.env [])
              (or_introl Hn)) as [e [Hc [_ [_ [_ [Hbn Hbe]]]]]].
  rewrite Hc.
  specialize (Hbn "   " eq_refl eq_refl).
  specialize (Hbe "not-an-email" eq_refl eq_refl).
  destruct e as [en ee]. cbn [err_name err_email] in Hbn, Hbe.
  now rewrite Hbn, Hbe.
Defined.

(** ** What the customer actions do to the table *)

Lemma nextCallsSucceed_le n m w :
  (m <= n)%nat -> nextCallsSucceed n w -> nextCallsSucceed m w.
Proof. intros Hle H i Hi. apply H. lia. Qed.

Lemma emailTaken_create_false email t :
  emailTaken email None t = false <->
  forall r, In r (customers t) -> cust_email r <> email.
Proof.
  rewrite <- not_true_iff_false, emailTaken_create. split.
  - intros N r Hin E. apply N. now exists r.
  - intros H [r [Hin E]]. now apply (H r).
Qed.

(** when the check of an update passes, the customers that hold the email
    are among those being updated *)
Lemma emailTaken_update_false email id t :
  emailTaken email (Some id) t = false ->
  forall r, In r (customers t) -> cust_email r = email -> cust_id r = id.
Proof.
  unfold emailTaken. intros H r Hin He.
  destruct (String.eqb_spec (cust_id r) id) as [E|N]; [exact E|].
  exfalso. apply not_true_iff_false in H. apply H.
  destruct (String.eqb id ""); apply existsb_exists; exists r;
    (split; [exact Hin|]).
  - now apply String.eqb_eq.
  - apply andb_true_iff. split; [now apply String.eqb_eq|].
    unfold neqb. now apply negb_true_iff, String.eqb_neq.
Qed.

Lemma existsb_id_false id l :
  existsb (fun r => String.eqb (cust_id r) id) l = false <->
  forall r, In r l -> cust_id r <> id.
Proof.
  rewrite <- not_true_iff_false, existsb_exists. split.
  - intros N r Hin E. apply N. exists r. split; [exact Hin|].
    now apply String.eqb_eq.
  - intros H [r [Hin E]]. apply String.eqb_eq in E. now apply (H r).
Qed.

(** X5. For a name and an email that validate, an email no customer
    holds, an identifier the store has not used and a store that accepts
    the two statements, [createCustomer] appends one customer row with
    the trimmed name, the trimmed email and the empty image_url, leaves
    the earlier rows and the invoices as they were, and redirects to
    /dashboard/customers. *)
Theorem createCustomer_appends_trimmed_row :
  forall (prevState : CustomerState) (formData : FormData) (w : World)
         (rawName rawEmail : string),
    get formData "name" = Some (EntryString rawName) ->
    get formData "email" = Some (EntryString rawEmail) ->
    JS.trim rawName <> "" ->
    emailRegex (JS.trim rawEmail) = true ->
    (forall r, In r (customers (tables w)) ->
               cust_email r <> JS.trim rawEmail) ->
    (forall r, In r (customers (tables w)) ->
               cust_id r <> nextId (tables w)) ->
    nextCallsSucceed 2 w ->
    completion (createCustomer prevState formData w)
    = Throw (NEXT_REDIRECT "/dashboard/customers")
    /\ customers (tables (world (createCustomer prevState formData w)))
       = customers (tables w) ++
         [{| cust_id := nextId (tables w); cust_name := JS.trim rawName;
             cust_email := JS.trim rawEmail; cust_image_url := "" |}]
    /\ invoices (tables (world (createCustomer prevState formData w)))
       = invoices (tables w).
Proof.
  intros prevState formData w rawName rawEmail Hn He Nn Re Hfree Hid Hok.
  assert (Hv : customerForm formData
               = Success {| name := JS.trim rawName;
                            email := JS.trim rawEmail |}).
  { apply customerForm_Success. cbn [name email]. split.
    - apply CustomerFormSchema_name_OK. now exists rawName.
    - apply CustomerFormSchema_email_OK. now exists rawEmail. }
  assert (Hf := nextCallsSucceed_head _ _ Hok).
  assert (Hf2 := nextCallsSucceed_head _ _
                   (nextCallsSucceed_advance _ (tables w) _ Hok)).
  apply emailTaken_create_false in Hfree.
  rewrite (createCustomer_executed _ _ _ _ Hv Hf Hfree Hf2).
  cbn [completion world advance tables execute fst customers invoices
       name email].
  apply existsb_id_false in Hid. unfold nextId in Hid. rewrite Hid.
  repeat split.
Qed.

Lemma createCustomer_appends_trimmed_row_witness :
  customers (tables (world (createCustomer Sample.noCustomerState
                              (Sample.customerFields " Carol " "c@x.com ")
                              (Sample.env []))))
  = [Sample.alice; Sample.bob;
     {| cust_id := "a"; cust_name := "Carol"; cust_email := "c@x.com";
        cust_image_url := "" |}].
Proof.
  refine (proj1 (proj2 (createCustomer_appends_trimmed_row
            Sample.noCustomerState
            (Sample.customerFields " Carol " "c@x.com ") (Sample.env [])
            " Carol " "c@x.com " eq_refl eq_refl _ eq_refl _ _ _))).
  - discriminate.
  - intros r [<-|[<-|[]]]; discriminate.
  - intros r [<-|[<-|[]]]; discriminate.
  - intros i _. destruct i as [|[|i]]; reflexivity.
Defined.

(** X6. Submitting the same email twice: after a first [createCustomer],
    a second one whose email trims to the same string is answered with
    "Email is already is use." and writes nothing, whether the first
    inserted its row or was itself refused. (The store accepts the
    statements and hands out an identifier it has not used.) *)
Theorem createCustomer_twice_refused :
  forall (prev1 prev2 : CustomerState) (form1 form2 : FormData) (w : World)
         (d1 d2 : CustomerData),
    customerForm form1 = Success d1 ->
    customerForm form2 = Success d2 ->
    email d2 = email d1 ->
    (forall r, In r (customers (tables w)) ->
               cust_id r <> nextId (tables w)) ->
    nextCallsSucceed 3 w ->
    completion (createCustomer prev2 form2
                  (world (createCustomer prev1 form1 w)))
    = Normal emailInUse
    /\ tables (world (createCustomer prev2 form2
                        (world (createCustomer prev1 form1 w))))
       = tables (world (createCustomer prev1 form1 w)).
Proof.
  intros prev1 prev2 form1 form2 w d1 d2 Hv1 Hv2 He Hid Hok.
  assert (Hf := nextCallsSucceed_head _ _ Hok).
  assert (Hok1 := nextCallsSucceed_advance _ (tables w) _ Hok).
  assert (Hf2 := nextCallsSucceed_head _ _ Hok1).
  destruct (emailTaken (email d1) None (tables w)) eqn:Ht.
  - rewrite (createCustomer_taken _ _ _ _ Hv1 Hf Ht). cbn [world].
    rewrite (createCustomer_taken _ _ _ _ Hv2 Hf2);
      [now split | cbn [advance tables]; now rewrite He].
  - rewrite (createCustomer_executed _ _ _ _ Hv1 Hf Ht Hf2). cbn [world].
    set (t1 := fst (execute (INSERT_INTO_customers (name d1) (email d1))
                      (tables w))).
    assert (Hf3 : nextFails (advance t1 (advance (tables w) w)) = false).
    { apply (nextCallsSucceed_head 0).
      apply (nextCallsSucceed_advance 1 t1).
      exact Hok1. }
    rewrite (createCustomer_taken _ _ _ _ Hv2 Hf3); [now split|].
    cbn [advance tables]. rewrite He. apply emailTaken_create.
    subst t1. cbn [execute fst customers].
    apply existsb_id_false in Hid. unfold nextId in Hid. rewrite Hid.
    eexists. split; [apply in_or_app; right; left; reflexivity|].
    reflexivity.
Qed.

Lemma createCustomer_twice_refused_witness :
  completion (createCustomer Sample.noCustomerState
                (Sample.customerFields "Caroline" " c@x.com")
                (world (createCustomer Sample.noCustomerState
                          (Sample.customerFields "Carol" "c@x.com")
                          (Sample.env []))))
  = Normal emailInUse.
Proof.
  refine (proj1 (createCustomer_twice_refused
            Sample.noCustomerState Sample.noCustomerState
            (Sample.customerFields "Carol" "c@x.com")
            (Sample.customerFields "Caroline" " c@x.com") (Sample.env [])
            {| name := "Carol"; email := "c@x.com" |}
            {| name := "Caroline"; email := "c@x.com" |}
            eq_refl eq_refl eq_refl _ _)).
  - intros r [<-|[<-|[]]]; discriminate.
  - intros i _. destruct i as [|[|[|i]]]; reflexivity.
Defined.

(** ** Invariants of the tables *)

Lemma NoDup_snoc {A} (l : list A) (x : A) :
  NoDup l -> ~ In x l -> NoDup (l ++ [x]).
Proof.
  induction l as [|a l IH]; cbn [app]; intros Hnd Hin.
  - constructor; [intros []|constructor].
  - inversion Hnd as [|? ? Ha Hl]; subst. constructor.
    + intros Hc. apply in_app_or in Hc as [Hc|[Hc|[]]]; [contradiction|].
      subst. apply Hin. now left.
    + apply IH; [exact Hl|]. intros Hc. apply Hin. now right.
Qed.

(** removing rows keeps a column free of duplicates *)
Lemma filter_keeps_NoDup {Row Key} (column : Row -> Key) (keep : Row -> bool) :
  forall rows, NoDup (map column rows) ->
               NoDup (map column (filter keep rows)).
Proof.
  intros rows. induction rows as [|a l IH]; cbn [map filter]; intros Hnd;
    [constructor|].
  inversion Hnd as [|? ? Ha Hl]; subst.
  destruct (keep a); cbn [map]; [|now apply IH].
  constructor; [|now apply IH].
  intros Hc. apply Ha. apply in_map_iff in Hc as [x [Hx Hin]].
  apply filter_In in Hin as [Hin _]. apply in_map_iff. now exists x.
Qed.

Lemma updatedCustomer_id n e id r :
  cust_id (updatedCustomer n e id r) = cust_id r.
Proof. unfold updatedCustomer. now destruct (String.eqb (cust_id r) id). Qed.

Lemma UPDATE_customers_ids n e id l :
  map cust_id (map (updatedCustomer n e id) l) = map cust_id l.
Proof.
  induction l as [|r l IH]; cbn [map]; [reflexivity|].
  now rewrite updatedCustomer_id, IH.
Qed.

Lemma UPDATE_customers_absent n e id l :
  (forall r, In r l -> cust_id r <> id) ->
  map (updatedCustomer n e id) l = l.
Proof.
  induction l as [|r l IH]; cbn [map]; intros H; [reflexivity|].
  rewrite IH by (intros x Hx; apply H; now right).
  unfold updatedCustomer.
  destruct (String.eqb_spec (cust_id r) id) as [E|_]; [|reflexivity].
  exfalso. apply (H r); [now left|exact E].
Qed.

Lemma UPDATE_customers_emails n e id l :
  NoDup (map cust_id l) -> NoDup (map cust_email l) ->
  (forall r, In r l -> cust_email r = e -> cust_id r = id) ->
  NoDup (map cust_email (map (updatedCustomer n e id) l)).
Proof.
  induction l as [|r l IH]; cbn [map]; intros Hid Hem Hown; [constructor|].
  inversion Hid as [|? ? Hi Hil]; inversion Hem as [|? ? He Hel]; subst.
  assert (Hown' : forall x, In x l -> cust_email x = e -> cust_id x = id)
    by (intros x Hx; apply Hown; now right).
  unfold updatedCustomer at 1.
  destruct (String.eqb_spec (cust_id r) id) as [E|N]; cbn [cust_email].
  - assert (Habs : forall x, In x l -> cust_id x <> id).
    { intros x Hx Ex. apply Hi. apply in_map_iff. exists x. split; congruence. }
    rewrite (UPDATE_customers_absent _ _ _ _ Habs).
    constructor; [|exact Hel].
    intros Hc. apply in_map_iff in Hc as [x [Ex Hx]].
    now apply (Habs x Hx), Hown'.
  - constructor; [|now apply IH].
    intros Hc. apply in_map_iff in Hc as [y [Ey Hy]].
    apply in_map_iff in Hy as [x [<- Hx]].
    unfold updatedCustomer in Ey.
    destruct (String.eqb_spec (cust_id x) id) as [Ex|Nx];
      cbn [cust_email] in Ey.
    + apply N. apply Hown; [now left|congruence].
    + apply He. apply in_map_iff. now exists x.
Qed.

(** ** The customer actions among other requests *)

Lemma meanwhile_isolated others w :
  isolated others ->
  Interleaved.meanwhile others w
  = {| completion := Normal tt; world := w; trace := [] |}.
Proof. intros H. unfold Interleaved.meanwhile. rewrite H. now destruct w. Qed.

Lemma bind_meanwhile_isolated others {A} (k : Action A) w :
  isolated others ->
  bind (Interleaved.meanwhile others) (fun _ => k) w = k w.
Proof.
  intros H. unfold bind. rewrite (meanwhile_isolated _ _ H).
  cbn [completion world trace app]. now destruct (k w).
Qed.

Lemma bind_ext {A B} (m : Action A) (k k' : A -> Action B) w :
  (forall a w', k a w' = k' a w') -> bind m k w = bind m k' w.
Proof.
  intros H. unfold bind. destruct (completion (m w)); [now rewrite H|reflexivity].
Qed.

Lemma tryCatch_ext {A} (m m' : Action A) handler w :
  m w = m' w -> tryCatch m handler w = tryCatch m' handler w.
Proof. intros H. unfold tryCatch. now rewrite H. Qed.

Lemma createCustomer_isolated others prevState formData w :
  isolated others ->
  Interleaved.createCustomer others prevState formData w
  = createCustomer prevState formData w.
Proof.
  intros H. unfold Interleaved.createCustomer, createCustomer.
  destruct (CreateCustomer_safeParse _ _); [|reflexivity].
  apply bind_ext. intros unique w'. destruct (negb unique); [reflexivity|].
  now apply bind_meanwhile_isolated.
Qed.

Lemma updateCustomer_isolated others id prevState formData w :
  isolated others ->
  Interleaved.updateCustomer others id prevState formData w
  = updateCustomer id prevState formData w.
Proof.
  intros H. unfold Interleaved.updateCustomer, updateCustomer.
  destruct (UpdateCustomer_safeParse _ _); [|reflexivity].
  apply bind_ext. intros unique w'. destruct (negb unique); [reflexivity|].
  now apply bind_meanwhile_isolated.
Qed.

Lemma deleteCustomer_isolated others id w :
  isolated others ->
  Interleaved.deleteCustomer others id w = deleteCustomer id w.
Proof.
  intros H. unfold Interleaved.deleteCustomer, deleteCustomer.
  apply tryCatch_ext, bind_ext. intros [|row rows] w'; [reflexivity|].
  destruct (row =? 0); [|reflexivity].
  now apply bind_meanwhile_isolated.
Qed.

Lemma createCustomer_interleaved_executed others prevState formData w data :
  customerForm formData = Success data ->
  nextCallsSucceed 2 w ->
  emailTaken (email data) None (tables w) = false ->
  completion (Interleaved.createCustomer others prevState formData w)
  = Throw (NEXT_REDIRECT "/dashboard/customers")
  /\ tables (world (Interleaved.createCustomer others prevState formData w))
     = fst (execute (INSERT_INTO_customers (name data) (email data))
              (others (tables w))).
Proof.
  intros valid Hok Ht.
  pose proof (nextCallsSucceed_head _ _ Hok) as Hf.
  pose proof (nextCallsSucceed_head _ _
                (nextCallsSucceed_advance _ (tables w) _ Hok)) as Hf2.
  assert (E : exists w' tr,
             Interleaved.createCustomer others prevState formData w
             = {| completion := Throw (NEXT_REDIRECT "/dashboard/customers");
                  world :=
                    advance
                      (fst (execute
                              (INSERT_INTO_customers (name data) (email data))
                              (others (tables w)))) w';
                  trace := tr |}).
  { eexists _, _.
    unfold Interleaved.createCustomer. unfold customerForm in valid.
    rewrite valid. unfold bind at 1.
    rewrite (isEmailUnique_executed _ _ _ Hf), Ht.
    cbn [completion world trace negb].
    unfold bind, tryCatch, ret, throw, redirect, revalidatePath,
      Interleaved.meanwhile.
    cbn [completion world trace app].
    rewrite sql_executed by exact Hf2. reflexivity. }
  destruct E as (w' & tr & ->). split; reflexivity.
Qed.

Lemma deleteCustomer_interleaved_executed others id w :
  nextCallsSucceed 2 w ->
  referenced id (tables w) = false ->
  completion (Interleaved.deleteCustomer others id w)
  = Normal {| c_errors := None; c_message := Some "Deleted Customer." |}
  /\ tables (world (Interleaved.deleteCustomer others id w))
     = fst (execute (DELETE_FROM_customers id) (others (tables w))).
Proof.
  intros Hok Hr.
  pose proof (nextCallsSucceed_head _ _ Hok) as Hf.
  pose proof (nextCallsSucceed_head _ _
                (nextCallsSucceed_advance _ (tables w) _ Hok)) as Hf2.
  assert (E : exists w' tr,
             Interleaved.deleteCustomer others id w
             = {| completion :=
                    Normal {| c_errors := None;
                              c_message := Some "Deleted Customer." |};
                  world :=
                    advance
                      (fst (execute (DELETE_FROM_customers id)
                              (others (tables w)))) w';
                  trace := tr |}).
  { eexists _, _.
    unfold Interleaved.deleteCustomer.
    unfold bind, tryCatch, ret, throw, redirect, revalidatePath.
    cbn [completion world trace app].
    rewrite (sql_executed _ _ Hf). unfold referenced in Hr.
    cbn [execute fst snd completion world trace]. rewrite Hr.
    cbn [Z.eqb]. unfold Interleaved.meanwhile.
    cbn [completion world trace app].
    rewrite sql_executed by exact Hf2. reflexivity. }
  destruct E as (w' & tr & ->). split; reflexivity.
Qed.

(** X7. When no other request changes the store between the uniqueness
    query and the write, [createCustomer] and [updateCustomer] keep the
    emails of the customers pairwise distinct, whatever the form and
    whether or not the store accepts the statements; for
    [updateCustomer] this needs the identifiers to be pairwise distinct,
    since its UPDATE writes the email to every row with the identifier.
    [deleteCustomer] keeps them in any case. The code takes no lock, so
    the condition is not the code's to give: X24 is what happens
    without it. *)
Theorem customer_actions_keep_emails_unique :
  forall (others : Tables -> Tables) (id : string)
         (prevState : CustomerState) (formData : FormData) (w : World),
    isolated others ->
    emailsUnique (tables w) ->
    emailsUnique
      (tables (world (Interleaved.createCustomer others prevState formData w)))
    /\ (idsUnique (tables w) ->
        emailsUnique
          (tables (world (Interleaved.updateCustomer others id prevState
                            formData w))))
    /\ emailsUnique (tables (world (deleteCustomer id w))).
Proof.
  intros others id prevState formData w Hi Hu.
  rewrite (createCustomer_isolated _ _ _ _ Hi),
    (updateCustomer_isolated _ _ _ _ _ Hi).
  unfold emailsUnique in *.
  split; [|split].
  - apply createCustomer_cases; intros; cbn [world advance tables]; trivial.
    cbn [execute fst customers].
    destruct (existsb _ (customers (tables w))); [exact Hu|].
    rewrite map_app. apply NoDup_snoc; [exact Hu|]. cbn [map cust_email].
    intros Hc. apply in_map_iff in Hc as [r [Er Hr]].
    match goal with
    | H : emailTaken _ None _ = false |- _ =>
        apply (proj1 (emailTaken_create_false _ _) H r Hr Er)
    end.
  - intros Hid. apply updateCustomer_cases; intros;
      cbn [world advance tables]; trivial.
    cbn [execute fst customers].
    apply UPDATE_customers_emails; [exact Hid|exact Hu|].
    now apply emailTaken_update_false.
  - apply deleteCustomer_cases; intros; cbn [world advance tables]; trivial.
    cbn [execute fst customers]. now apply filter_keeps_NoDup.
Qed.

Lemma customer_actions_keep_emails_unique_witness :
  isolated (fun t => t)
  /\ emailsUnique (tables (Sample.env []))
  /\ emailsUnique
       (tables (world (Interleaved.updateCustomer (fun t => t) "5"
                         Sample.noCustomerState
                         (Sample.customerFields "Bob" "bobby@x.com")
                         (Sample.env [])))).
Proof.
  assert (Hi : isolated (fun t => t)) by (intros t; reflexivity).
  assert (Hu : emailsUnique (tables (Sample.env []))).
  { repeat constructor; cbn; intuition discriminate. }
  split; [exact Hi|]. split; [exact Hu|].
  apply (customer_actions_keep_emails_unique (fun t => t) "5"
           Sample.noCustomerState
           (Sample.customerFields "Bob" "bobby@x.com") (Sample.env [])
           Hi Hu).
  repeat constructor; cbn; intuition discriminate.
Defined.

(** X8. The three customer actions keep the identifiers of the customers
    pairwise distinct: the INSERT does nothing when the identifier is
    already there, the UPDATE keeps every identifier, the DELETE only
    removes rows. *)
Theorem customer_actions_keep_ids_unique :
  forall (id : string) (prevState : CustomerState) (formData : FormData)
         (w : World),
    idsUnique (tables w) ->
    idsUnique (tables (world (createCustomer prevState formData w)))
    /\ idsUnique (tables (world (updateCustomer id prevState formData w)))
    /\ idsUnique (tables (world (deleteCustomer id w))).
Proof.
  intros id prevState formData w Hu. unfold idsUnique in *.
  split; [|split].
  - apply createCustomer_cases; intros; cbn [world advance tables]; trivial.
    cbn [execute fst customers].
    destruct (existsb _ (customers (tables w))) eqn:Ex; [exact Hu|].
    rewrite map_app. apply NoDup_snoc; [exact Hu|]. cbn [map cust_id].
    intros Hc. apply in_map_iff in Hc as [r [Er Hr]].
    apply (proj1 (existsb_id_false _ _) Ex r Hr Er).
  - apply updateCustomer_cases; intros; cbn [world advance tables]; trivial.
    cbn [execute fst customers].
    change (NoDup (map cust_id
                     (map (updatedCustomer (name d) (email d) id)
                        (customers (tables w))))).
    now rewrite UPDATE_customers_ids.
  - apply deleteCustomer_cases; intros; cbn [world advance tables]; trivial.
    cbn [execute fst customers]. now apply filter_keeps_NoDup.
Qed.

Lemma customer_actions_keep_ids_unique_witness :
  idsUnique (tables (Sample.env []))
  /\ idsUnique
       (tables (world (createCustomer Sample.noCustomerState
                         (Sample.customerFields "Carol" "c@x.com")
                         (Sample.env [])))).
Proof.
  assert (Hu : idsUnique (tables (Sample.env []))).
  { repeat constructor; cbn; intuition discriminate. }
  split; [exact Hu|].
  apply (customer_actions_keep_ids_unique "5" Sample.noCustomerState
           (Sample.customerFields "Carol" "c@x.com") (Sample.env []) Hu).
Defined.

Lemma customer_actions_keep_invoices id prevState formData w :
  invoices (tables (world (createCustomer prevState formData w)))
  = invoices (tables w)
  /\ invoices (tables (world (updateCustomer id prevState formData w)))
     = invoices (tables w)
  /\ invoices (tables (world (deleteCustomer id w))) = invoices (tables w).
Proof.
  split; [|split].
  - apply createCustomer_cases; intros; reflexivity.
  - apply updateCustomer_cases; intros; reflexivity.
  - apply deleteCustomer_cases; intros; reflexivity.
Qed.

Lemma invoice_actions_keep_customers id prevState formData w :
  customers (tables (world (createInvoice prevState formData w)))
  = customers (tables w)
  /\ customers (tables (world (updateInvoice id prevState formData w)))
     = customers (tables w)
  /\ customers (tables (world (deleteInvoice id w))) = customers (tables w).
Proof.
  split; [|split].
  - apply createInvoice_cases; intros; reflexivity.
  - apply updateInvoice_cases; intros; reflexivity.
  - apply deleteInvoice_cases; intros; reflexivity.
Qed.

(** X9. When no other request changes the store between the two
    awaited calls of a customer action, and every invoice references a
    customer of the table, it still does after [deleteCustomer], on every
    path: the DELETE is sent only when no invoice references the id. The
    same holds after [createCustomer] and [updateCustomer], and after
    [deleteInvoice], which is one call. The code takes no lock, so the
    condition is not the code's to give: X25 is what happens without
    it. *)
Theorem references_still_resolve :
  forall (others : Tables -> Tables) (id : string)
         (prevState : CustomerState) (formData : FormData) (w : World),
    isolated others ->
    referencesResolve (tables w) ->
    referencesResolve (tables (world (Interleaved.deleteCustomer others id w)))
    /\ referencesResolve
         (tables (world (Interleaved.createCustomer others prevState
                           formData w)))
    /\ referencesResolve
         (tables (world (Interleaved.updateCustomer others id prevState
                           formData w)))
    /\ referencesResolve (tables (world (deleteInvoice id w))).
Proof.
  intros others id prevState formData w Hi Hr.
  rewrite (deleteCustomer_isolated _ _ _ Hi),
    (createCustomer_isolated _ _ _ _ Hi),
    (updateCustomer_isolated _ _ _ _ _ Hi).
  split; [|split; [|split]].
  - apply deleteCustomer_cases; intros; cbn [world advance tables]; trivial.
    unfold referencesResolve in *.
    cbn [execute fst customers invoices]. intros r Hin.
    destruct (Hr r Hin) as [c [Hc Ec]]. exists c. split; [|exact Ec].
    apply filter_In. split; [exact Hc|].
    unfold neqb. apply negb_true_iff, String.eqb_neq. rewrite Ec.
    match goal with
    | H : referenced id (tables w) = false |- _ =>
        apply (proj1 (referenced_false _ _) H r Hin)
    end.
  - apply createCustomer_cases; intros; cbn [world advance tables]; trivial.
    unfold referencesResolve in *.
    cbn [execute fst customers invoices]. intros r Hin.
    destruct (Hr r Hin) as [c [Hc Ec]]. exists c. split; [|exact Ec].
    destruct (existsb _ (customers (tables w))); [exact Hc|].
    apply in_or_app. now left.
  - apply updateCustomer_cases; intros; cbn [world advance tables]; trivial.
    unfold referencesResolve in *.
    cbn [execute fst customers invoices]. intros r Hin.
    destruct (Hr r Hin) as [c [Hc Ec]].
    exists (updatedCustomer (name d) (email d) id c). split.
    + apply (in_map (updatedCustomer (name d) (email d) id)), Hc.
    + now rewrite updatedCustomer_id.
  - apply deleteInvoice_cases; intros; cbn [world advance tables]; trivial.
    unfold referencesResolve in *.
    cbn [execute fst customers invoices]. intros r Hin.
    apply filter_In in Hin as [Hin _]. exact (Hr r Hin).
Qed.

Lemma references_still_resolve_witness :
  isolated (fun t => t)
  /\ referencesResolve (tables (Sample.env []))
  /\ referencesResolve
       (tables (world (Interleaved.deleteCustomer (fun t => t) "9"
                         (Sample.env []))))
  /\ referencesResolve
       (tables (world (Interleaved.deleteCustomer (fun t => t) "5"
                         (Sample.env [])))).
Proof.
  assert (Hi : isolated (fun t => t)) by (intros t; reflexivity).
  assert (Hr : referencesResolve (tables (Sample.env []))).
  { intros r [<-|[]]. exists Sample.alice. split; [now left|reflexivity]. }
  split; [exact Hi|]. split; [exact Hr|]. split.
  - apply (references_still_resolve (fun t => t) "9" Sample.noCustomerState
             [] (Sample.env []) Hi Hr).
  - apply (references_still_resolve (fun t => t) "5" Sample.noCustomerState
             [] (Sample.env []) Hi Hr).
Defined.

(** X10. If every invoice has the status pending or paid, it still does
    after each of the six mutations, on every path: the rows
    [createInvoice] appends and [updateInvoice] rewrites carry a
    validated status. *)
Theorem statuses_stay_valid :
  forall (id : string) (prevState : State) (cState : CustomerState)
         (formData : FormData) (w : World),
    statusesValid (tables w) ->
    statusesValid (tables (world (createInvoice prevState formData w)))
    /\ statusesValid (tables (world (updateInvoice id prevState formData w)))
    /\ statusesValid (tables (world (deleteInvoice id w)))
    /\ statusesValid (tables (world (createCustomer cState formData w)))
    /\ statusesValid (tables (world (updateCustomer id cState formData w)))
    /\ statusesValid (tables (world (deleteCustomer id w))).
Proof.
  intros id prevState cState formData w Hs.
  destruct (customer_actions_keep_invoices id cState formData w)
    as [Ec [Eu Ed]].
  unfold statusesValid in *. rewrite Ec, Eu, Ed.
  split; [|split; [|split; [|repeat split; exact Hs]]].
  - apply createInvoice_cases; intros d Hv; intros;
      cbn [world advance tables]; trivial.
    unfold insertInvoice. cbn [execute fst invoices].
    apply Forall_app. split; [exact Hs|]. constructor; [|constructor].
    cbn [inv_status].
    apply invoiceForm_Success in Hv as [_ [_ Hv]].
    now apply FormSchema_status_OK in Hv.
  - apply updateInvoice_cases; intros d Hv; intros;
      cbn [world advance tables]; trivial.
    unfold updateInvoiceStmt. cbn [execute fst invoices].
    apply invoiceForm_Success in Hv as [_ [_ Hv]].
    apply FormSchema_status_OK in Hv as [_ Hv].
    revert Hs. generalize (invoices (tables w)). intros l Hs.
    induction Hs as [|r l Hr Hl IH]; cbn [map]; constructor; [|exact IH].
    destruct (String.eqb (inv_id r) id); [exact Hv|exact Hr].
  - apply deleteInvoice_cases; intros; cbn [world advance tables]; trivial.
    cbn [execute fst invoices]. apply Forall_forall. intros r Hin.
    apply filter_In in Hin as [Hin _].
    exact (proj1 (Forall_forall _ _) Hs r Hin).
Qed.

Lemma statuses_stay_valid_witness :
  statusesValid (tables (Sample.env []))
  /\ statusesValid
       (tables (world (createInvoice Sample.noState
                         (Sample.invoiceFields "12.5" "pending")
                         (Sample.env [])))).
Proof.
  assert (Hs : statusesValid (tables (Sample.env []))).
  { constructor; [right; reflexivity|constructor]. }
  split; [exact Hs|].
  apply (statuses_stay_valid "i1" Sample.noState Sample.noCustomerState
           (Sample.invoiceFields "12.5" "pending") (Sample.env []) Hs).
Defined.

(** ** Deleting and updating rows *)

Lemma filter_filter {A} (p : A -> bool) (l : list A) :
  filter p (filter p l) = filter p l.
Proof.
  induction l as [|a l IH]; cbn [filter]; [reflexivity|].
  destruct (p a) eqn:E; cbn [filter]; [rewrite E|]; now rewrite IH.
Qed.

Lemma filter_all {A} (p : A -> bool) (l : list A) :
  (forall a, In a l -> p a = true) -> filter p l = l.
Proof.
  induction l as [|a l IH]; cbn [filter]; intros H; [reflexivity|].
  rewrite (H a) by now left. rewrite IH; [reflexivity|].
  intros x Hx. apply H. now right.
Qed.

(** X11. When the store accepts the DELETE, [deleteInvoice] returns
    "Deleted Invoice.", removes exactly the invoices with the given id
    and leaves the customers alone; deleting the same id again changes
    nothing more. *)
Theorem deleteInvoice_removes_exactly :
  forall (id : string) (w : World),
    nextCallsSucceed 2 w ->
    completion (deleteInvoice id w)
    = Normal {| errors := None; message := Some "Deleted Invoice." |}
    /\ (forall r, In r (invoices (tables (world (deleteInvoice id w))))
                  <-> In r (invoices (tables w)) /\ inv_id r <> id)
    /\ customers (tables (world (deleteInvoice id w))) = customers (tables w)
    /\ tables (world (deleteInvoice id (world (deleteInvoice id w))))
       = tables (world (deleteInvoice id w)).
Proof.
  intros id w Hok.
  assert (Hf := nextCallsSucceed_head _ _ Hok).
  assert (Hf2 := nextCallsSucceed_head _ _
                   (nextCallsSucceed_advance _
                      (fst (execute (DELETE_FROM_invoices id) (tables w)))
                      _ Hok)).
  rewrite (deleteInvoice_executed _ _ Hf). cbn [completion world].
  rewrite (deleteInvoice_executed _ _ Hf2).
  cbn [world advance tables execute fst invoices customers idSupply assigned].
  split; [reflexivity|]. split; [|split; [reflexivity|]].
  - intros r. rewrite filter_In. unfold neqb.
    rewrite negb_true_iff, String.eqb_neq. reflexivity.
  - now rewrite filter_filter.
Qed.

Lemma deleteInvoice_removes_exactly_witness :
  invoices (tables (world (deleteInvoice "i1" (Sample.env [])))) = []
  /\ completion (deleteInvoice "i1" (Sample.env []))
     = Normal {| errors := None; message := Some "Deleted Invoice." |}.
Proof.
  split; [reflexivity|].
  refine (proj1 (deleteInvoice_removes_exactly "i1" (Sample.env []) _)).
  intros i _. destruct i as [|[|i]]; reflexivity.
Defined.

(** X12. When the form validates and the store accepts the UPDATE,
    [updateInvoice] leaves as many invoices as there were, and every
    invoice with the given id then carries the customer id of the form,
    its amount times one hundred and its status. *)
Theorem updateInvoice_rewrites_rows :
  forall (id : string) (prevState : State) (formData : FormData) (w : World)
         (d : InvoiceData),
    invoiceForm formData = Success d ->
    nextFails w = false ->
    List.length (invoices (tables (world (updateInvoice id prevState formData w))))
    = List.length (invoices (tables w))
    /\ forall r,
         In r (invoices (tables (world (updateInvoice id prevState formData w)))) ->
         inv_id r = id ->
         inv_customer_id r = customerId d
         /\ inv_amount r = mul (amount d) (of_Z 100)
         /\ inv_status r = status d.
Proof.
  intros id prevState formData w d Hv Hf.
  rewrite (updateInvoice_executed _ _ _ _ _ Hv Hf).
  unfold updateInvoiceStmt.
  cbn [world advance tables execute fst invoices].
  split; [apply length_map|].
  intros r Hin Hid. apply in_map_iff in Hin as [x [Ex Hx]].
  destruct (String.eqb_spec (inv_id x) id) as [E|N]; subst r.
  - cbn [inv_customer_id inv_amount inv_status]. auto.
  - contradiction.
Qed.

Lemma updateInvoice_rewrites_rows_witness :
  invoices (tables (world (updateInvoice "i1" Sample.noState
                             (Sample.invoiceFields "49.99" "pending")
                             (Sample.env []))))
  = [{| inv_id := "i1"; inv_customer_id := "c1"; inv_amount := of_Z 4999;
        inv_status := "pending"; inv_date := "2023-01-31" |}]
  /\ List.length
       (invoices (tables (world (updateInvoice "i1" Sample.noState
                                   (Sample.invoiceFields "49.99" "pending")
                                   (Sample.env [])))))
     = 1%nat.
Proof.
  split; [reflexivity|].
  exact (proj1 (updateInvoice_rewrites_rows "i1" Sample.noState
                  (Sample.invoiceFields "49.99" "pending") (Sample.env [])
                  {| customerId := "c1"; amount := StringToNumber "49.99";
                     status := "pending" |} eq_refl eq_refl)).
Defined.

(** X13. When the form validates, the id is not empty, no customer with
    another id holds the email and the store accepts the two statements,
    [updateCustomer] redirects and leaves the identifiers and the
    image_url of the customers as they were, row by row; every customer
    with the given id then carries the trimmed name and email of the
    form, and every other customer is as it was. *)
Theorem updateCustomer_rewrites_rows :
  forall (id : string) (prevState : CustomerState) (formData : FormData)
         (w : World) (d : CustomerData),
    customerForm formData = Success d ->
    id <> "" ->
    (forall r, In r (customers (tables w)) -> cust_email r = email d ->
               cust_id r = id) ->
    nextCallsSucceed 2 w ->
    completion (updateCustomer id prevState formData w)
    = Throw (NEXT_REDIRECT "/dashboard/customers")
    /\ Forall2 (fun r r' =>
                  cust_id r' = cust_id r
                  /\ cust_image_url r' = cust_image_url r
                  /\ (cust_id r = id ->
                      cust_name r' = name d /\ cust_email r' = email d)
                  /\ (cust_id r <> id -> r' = r))
         (customers (tables w))
         (customers (tables (world (updateCustomer id prevState formData w)))).
Proof.
  intros id prevState formData w d Hv Hid Hown Hok.
  assert (Hf := nextCallsSucceed_head _ _ Hok).
  assert (Hf2 := nextCallsSucceed_head _ _
                   (nextCallsSucceed_advance _ (tables w) _ Hok)).
  rewrite (updateCustomer_executed _ _ _ _ Hv id Hf
             (emailTaken_own _ _ _ Hid Hown) Hf2).
  cbn [completion world advance tables execute fst customers].
  split; [reflexivity|]. clear.
  induction (customers (tables w)) as [|r l IH]; cbn [map]; constructor;
    [|exact IH].
  destruct (String.eqb_spec (cust_id r) id) as [E|N];
    cbn [cust_id cust_name cust_email cust_image_url];
    repeat split; auto; contradiction.
Qed.

Lemma updateCustomer_rewrites_rows_witness :
  customers (tables (world (updateCustomer "5" Sample.noCustomerState
                              (Sample.customerFields " Robert " "rob@x.com")
                              (Sample.env []))))
  = [Sample.alice;
     {| cust_id := "5"; cust_name := "Robert"; cust_email := "rob@x.com";
        cust_image_url := "" |}]
  /\ completion (updateCustomer "5" Sample.noCustomerState
                   (Sample.customerFields " Robert " "rob@x.com")
                   (Sample.env []))
     = Throw (NEXT_REDIRECT "/dashboard/customers").
Proof.
  split; [reflexivity|].
  refine (proj1 (updateCustomer_rewrites_rows "5" Sample.noCustomerState
                   (Sample.customerFields " Robert " "rob@x.com")
                   (Sample.env [])
                   {| name := "Robert"; email := "rob@x.com" |}
                   eq_refl _ _ _)).
  - discriminate.
  - intros r [<-|[<-|[]]]; discriminate.
  - intros i _. destruct i as [|[|i]]; reflexivity.
Defined.




(** ** Effects of a run *)

(** X15. A run that executed no INSERT, UPDATE or DELETE leaves the store
    exactly as it was: this covers, for the six mutations, every
    validation failure, refusal and rejected statement. *)
Theorem no_write_no_change :
  forall (id : string) (prevState : State) (cState : CustomerState)
         (formData : FormData) (w : World),
    (~ wrote (createInvoice prevState formData w) ->
       tables (world (createInvoice prevState formData w)) = tables w)
    /\ (~ wrote (updateInvoice id prevState formData w) ->
       tables (world (updateInvoice id prevState formData w)) = tables w)
    /\ (~ wrote (deleteInvoice id w) ->
       tables (world (deleteInvoice id w)) = tables w)
    /\ (~ wrote (createCustomer cState formData w) ->
       tables (world (createCustomer cState formData w)) = tables w)
    /\ (~ wrote (updateCustomer id cState formData w) ->
       tables (world (updateCustomer id cState formData w)) = tables w)
    /\ (~ wrote (deleteCustomer id w) ->
       tables (world (deleteCustomer id w)) = tables w).
Proof.
  intros id prevState cState formData w.
  assert (Hw : forall A (o : Outcome A) s,
             isWrite s = true -> In (Executed s) (trace o) -> ~ wrote o ->
             forall P : Prop, P).
  { intros A o s Hs Hin N P. exfalso. apply N. now exists s. }
  split; [|split; [|split; [|split; [|split]]]].
  - apply createInvoice_cases; intros; try reflexivity.
    match goal with H : ~ wrote ?o |- _ =>
      apply (Hw _ o (insertInvoice d w)); [reflexivity|now left|exact H] end.
  - apply updateInvoice_cases; intros; try reflexivity.
    match goal with H : ~ wrote ?o |- _ =>
      apply (Hw _ o (updateInvoiceStmt id d));
        [reflexivity|now left|exact H] end.
  - apply deleteInvoice_cases; intros; try reflexivity.
    match goal with H : ~ wrote ?o |- _ =>
      apply (Hw _ o (DELETE_FROM_invoices id));
        [reflexivity|now left|exact H] end.
  - apply createCustomer_cases; intros; try reflexivity.
    match goal with H : ~ wrote ?o |- _ =>
      apply (Hw _ o (INSERT_INTO_customers (name d) (email d)));
        [reflexivity|right; now left|exact H] end.
  - apply updateCustomer_cases; intros; try reflexivity.
    match goal with H : ~ wrote ?o |- _ =>
      apply (Hw _ o (UPDATE_customers (name d) (email d) id));
        [reflexivity|right; now left|exact H] end.
  - apply deleteCustomer_cases; intros; try reflexivity.
    match goal with H : ~ wrote ?o |- _ =>
      apply (Hw _ o (DELETE_FROM_customers id));
        [reflexivity|right; now left|exact H] end.
Qed.

Lemma no_write_no_change_witness :
  ~ wrote (deleteCustomer "9" (Sample.env []))
  /\ tables (world (deleteCustomer "9" (Sample.env []))) = tables (Sample.env []).
Proof.
  assert (N : ~ wrote (deleteCustomer "9" (Sample.env []))).
  { intros [s [Hs [Hin|[]]]]. injection Hin as <-. discriminate Hs. }
  split; [exact N|].
  apply (no_write_no_change "9" Sample.noState Sample.noCustomerState []
           (Sample.env [])), N.
Defined.

(** closes the count of the calls of one path *)
Ltac count_calls :=
  intros; unfold calls, writeCalls, insertInvoice, updateInvoiceStmt;
  cbn [trace filter isCall isWriteCall isWrite];
  rewrite ?isWrite_uniqueQuery;
  cbn [filter isCall isWriteCall isWrite List.length];
  lia.

(** X16. No run sends more than one INSERT, UPDATE or DELETE. An invoice
    action makes at most one SQL call, a customer action at most two (the
    query of its check, then its write), and [authenticate] none. *)
Theorem at_most_one_write :
  forall (id : string) (prevState : State) (cState : CustomerState)
         (aState : option string) (formData : FormData) (w : World),
    (calls (trace (createInvoice prevState formData w)) <= 1)%nat
    /\ (calls (trace (updateInvoice id prevState formData w)) <= 1)%nat
    /\ (calls (trace (deleteInvoice id w)) <= 1)%nat
    /\ (calls (trace (createCustomer cState formData w)) <= 2
        /\ writeCalls (trace (createCustomer cState formData w)) <= 1)%nat
    /\ (calls (trace (updateCustomer id cState formData w)) <= 2
        /\ writeCalls (trace (updateCustomer id cState formData w)) <= 1)%nat
    /\ (calls (trace (deleteCustomer id w)) <= 2
        /\ writeCalls (trace (deleteCustomer id w)) <= 1)%nat
    /\ calls (trace (authenticate aState formData w)) = 0%nat.
Proof.
  intros id prevState cState aState formData w.
  split; [|split; [|split; [|split; [|split; [|split]]]]].
  - apply createInvoice_cases; count_calls.
  - apply updateInvoice_cases; count_calls.
  - apply deleteInvoice_cases; count_calls.
  - apply createCustomer_cases; count_calls.
  - apply updateCustomer_cases; count_calls.
  - apply deleteCustomer_cases; count_calls.
  - rewrite authenticate_run. reflexivity.
Qed.

(** ** The uniqueness check *)

(** X17. When the store answers its query, [isEmailUnique] returns
    without touching the tables. Without an id, or with the empty string
    as id, it answers true exactly when no customer holds the email; with
    a non-empty id, exactly when every customer that holds the email has
    that id. When the store rejects the query, it throws. *)
Theorem isEmailUnique_answers :
  forall (email : string) (customerId : option string) (w : World),
    (nextFails w = false ->
       exists unique,
         completion (isEmailUnique email customerId w) = Normal unique
         /\ tables (world (isEmailUnique email customerId w)) = tables w
         /\ (customerId = None \/ customerId = Some "" ->
             (unique = true <->
              forall r, In r (customers (tables w)) -> cust_email r <> email))
         /\ (forall id, customerId = Some id -> id <> "" ->
             (unique = true <->
              forall r, In r (customers (tables w)) -> cust_email r = email ->
                        cust_id r = id)))
    /\ (nextFails w = true ->
        exists s, completion (isEmailUnique email customerId w)
                  = Throw (DatabaseError s)).
Proof.
  intros email customerId w. split.
  - intros Hf. rewrite (isEmailUnique_executed _ _ _ Hf).
    cbn [completion world advance tables]. eexists.
    split; [reflexivity|]. split; [reflexivity|]. split.
    + intros [->| ->]; rewrite negb_true_iff;
        exact (emailTaken_create_false email (tables w)).
    + intros id -> Hid. rewrite negb_true_iff. split.
      * apply emailTaken_update_false.
      * now apply emailTaken_own.
  - intros Hf. rewrite (isEmailUnique_rejected _ _ _ Hf). eexists. reflexivity.
Qed.

Lemma isEmailUnique_answers_witness :
  completion (isEmailUnique "b@x.com" (Some "5") (Sample.env []))
  = Normal true
  /\ completion (isEmailUnique "b@x.com" None (Sample.env [])) = Normal false
  /\ exists unique,
       completion (isEmailUnique "b@x.com" (Some "") (Sample.env []))
       = Normal unique.
Proof.
  split; [reflexivity|]. split; [reflexivity|].
  destruct (proj1 (isEmailUnique_answers "b@x.com" (Some "") (Sample.env []))
              eq_refl) as [u [Hu _]].
  exists u. exact Hu.
Defined.

(** ** The breadcrumbs of the edit page *)

Lemma append_inj_l (a b c : string) :
  (a ++ b)%string = (a ++ c)%string -> b = c.
Proof.
  induction a as [|x a IH]; cbn [String.append]; intros H; [exact H|].
  injection H as H. now apply IH.
Qed.

(** X18. For every customer id, the breadcrumb of the edit page that is
    marked active links to /dashboard/customers/<id>edit, which is never
    the path the page itself is served at (/dashboard/customers/<id>/edit:
    the slash before edit is missing); the other breadcrumb links to the
    listing path that [updateCustomer] redirects to after its UPDATE. *)
Theorem edit_breadcrumb_is_not_the_route :
  forall (id : string) (prevState : CustomerState) (formData : FormData)
         (w : World),
    (forall b, In b (EditCustomerPage.breadcrumbs id) ->
               EditCustomerPage.active b = Some true ->
               EditCustomerPage.href b <> EditCustomerPage.route id)
    /\ (forall url,
          completion (updateCustomer id prevState formData w)
          = Throw (NEXT_REDIRECT url) ->
          exists b, In b (EditCustomerPage.breadcrumbs id)
                    /\ EditCustomerPage.active b = None
                    /\ EditCustomerPage.href b = url).
Proof.
  intros id prevState formData w. split.
  - intros b [<-|[<-|[]]]; cbn [EditCustomerPage.active EditCustomerPage.href];
      [discriminate|].
    intros _ H. unfold EditCustomerPage.route in H.
    apply append_inj_l, append_inj_l in H. discriminate.
  - intros url. apply updateCustomer_cases; intros; cbn [completion] in *;
      try discriminate.
    match goal with H : Throw _ = Throw _ |- _ => injection H as <- end.
    eexists. split; [left; reflexivity|]. split; reflexivity.
Qed.

Lemma edit_breadcrumb_is_not_the_route_witness :
  map EditCustomerPage.href (EditCustomerPage.breadcrumbs "42")
  = ["/dashboard/customers"; "/dashboard/customers/42edit"]
  /\ "/dashboard/customers/42edit" <> EditCustomerPage.route "42".
Proof.
  split; [reflexivity|].
  refine (proj1 (edit_breadcrumb_is_not_the_route "42"
                   Sample.noCustomerState [] (Sample.env []))
            {| EditCustomerPage.label := "Edit Customer";
               EditCustomerPage.href := "/dashboard/customers/42edit";
               EditCustomerPage.active := Some true |} _ eq_refl).
  right. left. reflexivity.
Defined.

(** ** The row an invoice is created with *)

(** X19. For a form that validates and an INSERT the store accepts,
    [createInvoice] makes one SQL call, the INSERT, and appends one
    invoice: the customer id as submitted, the coerced amount times one
    hundred, the submitted status, the calendar date of the clock and the
    identifier the store assigns. The earlier invoices and the customers
    are as they were; no customer needs to have the submitted id, the
    action never reads the customers. *)
Theorem createInvoice_appends_row :
  forall (prevState : State) (formData : FormData) (w : World)
         (customer status : string),
    get formData "customerId" = Some (EntryString customer) ->
    positive (Number (get formData "amount")) = true ->
    get formData "status" = Some (EntryString status) ->
    statusValid status ->
    nextFails w = false ->
    completion (createInvoice prevState formData w)
    = Throw (NEXT_REDIRECT "/dashboard/invoices")
    /\ trace (createInvoice prevState formData w)
       = [Executed (INSERT_INTO_invoices customer
                      (mul (Number (get formData "amount")) (of_Z 100))
                      status (isoDate (clock w)));
          Revalidated "/dashboard/invoices"]
    /\ invoices (tables (world (createInvoice prevState formData w)))
       = invoices (tables w) ++
         [{| inv_id := nextId (tables w); inv_customer_id := customer;
             inv_amount := mul (Number (get formData "amount")) (of_Z 100);
             inv_status := status; inv_date := isoDate (clock w) |}]
    /\ customers (tables (world (createInvoice prevState formData w)))
       = customers (tables w).
Proof.
  intros prevState formData w customer status Hc Ha Hs Hst Hf.
  assert (Hv : invoiceForm formData
               = Success {| customerId := customer;
                            amount := Number (get formData "amount");
                            Actions.status := status |}).
  { apply invoiceForm_Success. cbn [customerId amount Actions.status].
    split; [now apply FormSchema_customerId_OK|].
    split; [now apply FormSchema_amount_OK|].
    now apply FormSchema_status_OK. }
  rewrite (createInvoice_executed _ _ _ _ Hv Hf).
  unfold insertInvoice, nextId.
  cbn [completion trace world advance tables execute fst invoices customers
       customerId amount Actions.status].
  repeat split.
Qed.

Lemma createInvoice_appends_row_witness :
  invoices (tables (world (createInvoice Sample.noState
                             [("customerId", EntryString "nobody");
                              ("amount", EntryString "3");
                              ("status", EntryString "paid")]
                             (Sample.env []))))
  = [Sample.invoice1;
     {| inv_id := "a"; inv_customer_id := "nobody"; inv_amount := of_Z 300;
        inv_status := "paid"; inv_date := "2023-11-14" |}].
Proof.
  rewrite (proj1 (proj2 (proj2 (createInvoice_appends_row Sample.noState
             [("customerId", EntryString "nobody");
              ("amount", EntryString "3"); ("status", EntryString "paid")]
             (Sample.env []) "nobody" "paid" eq_refl eq_refl eq_refl
             (or_intror eq_refl) eq_refl)))).
  reflexivity.
Defined.

(** ** The date an invoice is created with *)

Lemma civilFromDays_bounds z :
  0 <= z <= 2932896 ->
  let '(y, m, d) := civilFromDays z in
  1970 <= y <= 9999 /\ 1 <= m <= 12 /\ 1 <= d <= 31.
Proof.
  intros Hz. unfold civilFromDays. cbv zeta.
  set (z' := z + 719468).
  set (era := z' / 146097).
  assert (Hera : 4 <= era <= 24)
    by (subst era z'; Z.div_mod_to_equations; lia).
  set (doe := z' - era * 146097).
  assert (Hdoe : 0 <= doe < 146097)
    by (subst doe era; Z.div_mod_to_equations; lia).
  assert (Hlo : era = 4 -> 135080 <= doe) by (subst doe z'; lia).
  assert (Hhi : era = 24 -> doe <= 146036) by (subst doe z'; lia).
  clearbody doe era. clear z z' Hz.
  set (yoe := (doe - doe / 1460 + doe / 36524 - doe / 146096) / 365).
  assert (Hyoe : 0 <= yoe <= 399)
    by (subst yoe; Z.div_mod_to_equations; lia).
  set (doy := doe - (365 * yoe + yoe / 4 - yoe / 100)).
  assert (Hdoy : 0 <= doy <= 365)
    by (subst doy yoe; Z.div_mod_to_equations; lia).
  assert (Hlo' : era = 4 -> 370 <= yoe \/ (yoe = 369 /\ 306 <= doy))
    by (subst doy yoe; Z.div_mod_to_equations; lia).
  assert (Hhi' : era = 24 -> yoe < 399 \/ (yoe = 399 /\ doy < 306))
    by (subst doy yoe; Z.div_mod_to_equations; lia).
  clearbody doy yoe. clear doe Hdoe Hlo Hhi.
  set (mp := (5 * doy + 2) / 153).
  assert (Hmp : 0 <= mp <= 11 /\ (10 <= mp <-> 306 <= doy))
    by (subst mp; Z.div_mod_to_equations; lia).
  assert (Hd : 1 <= doy - (153 * mp + 2) / 5 + 1 <= 31)
    by (subst mp; Z.div_mod_to_equations; lia).
  clearbody mp.
  destruct (mp <? 10) eqn:E; [apply Z.ltb_lt in E | apply Z.ltb_ge in E].
  - assert (E2 : (mp + 3 <=? 2) = false) by (apply Z.leb_gt; lia).
    rewrite E2. lia.
  - assert (E2 : (mp - 9 <=? 2) = true) by (apply Z.leb_le; lia).
    rewrite E2. lia.
Qed.

Lemma length_append (a b : string) :
  String.length (a ++ b)%string = (String.length a + String.length b)%nat.
Proof. induction a as [|c a IH]; cbn; [reflexivity|now rewrite IH]. Qed.

Lemma length_padDigits w : forall n, String.length (padDigits w n) = w.
Proof.
  induction w as [|w IH]; intros n; cbn [padDigits]; [reflexivity|].
  rewrite length_append, IH. cbn. lia.
Qed.

Lemma isoDate_isCalendarDate t :
  0 <= t < 253402300800000 -> isCalendarDate (isoDate t).
Proof.
  intros Ht. unfold isoDate.
  assert (Hz : 0 <= t / msPerDay <= 2932896)
    by (unfold msPerDay; Z.div_mod_to_equations; lia).
  pose proof (civilFromDays_bounds _ Hz) as Hb.
  destruct (civilFromDays (t / msPerDay)) as [[y m] d].
  destruct Hb as [Hy [Hm Hd]].
  assert (Ey : yearString y = padDigits 4 y).
  { unfold yearString.
    destruct (Z.leb_spec 0 y); [|lia]. destruct (Z.leb_spec y 9999); [|lia].
    reflexivity. }
  rewrite Ey. split.
  - rewrite !length_append, !length_padDigits. reflexivity.
  - exists y, m, d. auto.
Qed.

(** X20. While the clock reads a time from 1970 to the end of the year
    9999, every invoice [createInvoice] adds has a date of ten
    characters, YYYY-MM-DD, with a month from 01 to 12 and a day from 01
    to 31; the earlier invoices keep theirs. *)
Theorem createInvoice_date_is_calendar_date :
  forall (prevState : State) (formData : FormData) (w : World),
    0 <= clock w < 253402300800000 ->
    exists new,
      invoices (tables (world (createInvoice prevState formData w)))
      = invoices (tables w) ++ new
      /\ Forall (fun r => isCalendarDate (inv_date r)) new.
Proof.
  intros prevState formData w Ht.
  apply createInvoice_cases; intros; cbn [world advance tables].
  - exists []. now rewrite app_nil_r.
  - exists []. now rewrite app_nil_r.
  - unfold insertInvoice. cbn [execute fst invoices].
    eexists. split; [reflexivity|].
    constructor; [|constructor]. cbn [inv_date].
    now apply isoDate_isCalendarDate.
Qed.

Lemma createInvoice_date_is_calendar_date_witness :
  0 <= clock (Sample.env []) < 253402300800000
  /\ isoDate (clock (Sample.env [])) = "2023-11-14"
  /\ exists new,
       invoices (tables (world (createInvoice Sample.noState
                                  (Sample.invoiceFields "5" "paid")
                                  (Sample.env []))))
       = invoices (tables (Sample.env [])) ++ new
       /\ Forall (fun r => isCalendarDate (inv_date r)) new.
Proof.
  assert (H : 0 <= clock (Sample.env []) < 253402300800000)
    by (split; [discriminate|reflexivity]).
  split; [exact H|]. split; [reflexivity|].
  exact (createInvoice_date_is_calendar_date Sample.noState
           (Sample.invoiceFields "5" "paid") (Sample.env []) H).
Defined.

(** ** Customers as the schema lets them in *)

Section StripLemmas.

Variable w1 : ascii -> bool.
Variable w2 : ascii -> ascii -> bool.
Variable w3 : ascii -> ascii -> ascii -> bool.

Lemma strip_clean s : headSpace w1 w2 w3 s = false -> strip w1 w2 w3 s = s.
Proof.
  destruct s as [|a [|b [|c r]]]; cbn [headSpace strip];
    try reflexivity;
    destruct (w1 a); try discriminate; try reflexivity;
    destruct (w2 a b); try discriminate; try reflexivity;
    destruct (w3 a b c); try discriminate; reflexivity.
Qed.

Lemma strip_bounded n :
  forall s, (List.length s <= n)%nat ->
    headSpace w1 w2 w3 (strip w1 w2 w3 s) = false
    /\ exists p, s = p ++ strip w1 w2 w3 s.
Proof.
  induction n as [|n IH]; intros s Hn.
  - destruct s; [|cbn in Hn; lia]. split; [reflexivity|now exists []].
  - destruct s as [|a r]; [split; [reflexivity|now exists []]|].
    cbn [List.length] in Hn. cbn [strip].
    destruct (w1 a) eqn:E1.
    { destruct (IH r ltac:(lia)) as [Hc [p Hp]]. split; [exact Hc|].
      exists (a :: p). cbn [app]. now rewrite <- Hp. }
    destruct r as [|b r'].
    { split; [cbn [headSpace]; now rewrite E1|now exists []]. }
    cbn [List.length] in Hn.
    destruct (w2 a b) eqn:E2.
    { destruct (IH r' ltac:(lia)) as [Hc [p Hp]]. split; [exact Hc|].
      exists (a :: b :: p). cbn [app]. now rewrite <- Hp. }
    destruct r' as [|c r''].
    { split; [cbn [headSpace]; now rewrite E1, E2|now exists []]. }
    cbn [List.length] in Hn.
    destruct (w3 a b c) eqn:E3.
    { destruct (IH r'' ltac:(lia)) as [Hc [p Hp]]. split; [exact Hc|].
      exists (a :: b :: c :: p). cbn [app]. now rewrite <- Hp. }
    split; [cbn [headSpace]; now rewrite E1, E2, E3|now exists []].
Qed.

(** what is left does not begin with white space, and is the end of [s] *)
Lemma strip_headSpace s : headSpace w1 w2 w3 (strip w1 w2 w3 s) = false.
Proof. exact (proj1 (strip_bounded _ s (Nat.le_refl _))). Qed.

Lemma strip_suffix s : exists p, s = p ++ strip w1 w2 w3 s.
Proof. exact (proj2 (strip_bounded _ s (Nat.le_refl _))). Qed.

Lemma strip_strip s :
  strip w1 w2 w3 (strip w1 w2 w3 s) = strip w1 w2 w3 s.
Proof. apply strip_clean, strip_headSpace. Qed.

(** a beginning of a list that does not begin with white space does not
    either *)
Lemma headSpace_prefix p q :
  headSpace w1 w2 w3 (p ++ q) = false -> headSpace w1 w2 w3 p = false.
Proof.
  destruct p as [|a [|b [|c p]]]; cbn [app headSpace]; intros H.
  - reflexivity.
  - apply orb_false_iff in H as [H1 _]. now rewrite H1.
  - apply orb_false_iff in H as [H1 H]. rewrite H1.
    destruct q; apply orb_false_iff in H as [H2 _]; now rewrite H2.
  - exact H.
Qed.

End StripLemmas.

(** trimming the end of a list that does not begin with white space
    leaves one that does not either *)
Lemma trimEnd_headSpace l :
  headSpace isSpace1 isSpace2 isSpace3 l = false ->
  headSpace isSpace1 isSpace2 isSpace3 (trimEnd l) = false.
Proof.
  intros H. unfold trimEnd.
  destruct (strip_suffix isSpace1 (fun b a => isSpace2 a b)
              (fun c b a => isSpace3 a b c) (rev l)) as [p Hp].
  apply (headSpace_prefix _ _ _ _ (rev p)).
  rewrite <- rev_app_distr, <- Hp, rev_involutive. exact H.
Qed.

Lemma trimEnd_trimEnd l : trimEnd (trimEnd l) = trimEnd l.
Proof. unfold trimEnd. now rewrite rev_involutive, strip_strip. Qed.

Lemma trim_trimmed s : trimmed (JS.trim s).
Proof.
  unfold trimmed, JS.trim. rewrite list_ascii_of_string_of_list_ascii.
  set (l := trimStart (list_ascii_of_string s)).
  assert (Hs : headSpace isSpace1 isSpace2 isSpace3 (trimEnd l) = false)
    by apply trimEnd_headSpace, strip_headSpace.
  unfold trimStart at 1. rewrite (strip_clean _ _ _ _ Hs).
  now rewrite trimEnd_trimEnd.
Qed.

Lemma customerForm_valid formData d (i : string) (url : string) :
  customerForm formData = Success d ->
  customerValid {| cust_id := i; cust_name := name d; cust_email := email d;
                   cust_image_url := url |}.
Proof.
  intros Hv. apply customerForm_Success in Hv as [Hn He].
  apply CustomerFormSchema_name_OK in Hn as [rn [_ [En Nn]]].
  apply CustomerFormSchema_email_OK in He as [re [_ [Ee Re]]].
  unfold customerValid. cbn [cust_name cust_email].
  rewrite En in *. rewrite Ee in *.
  repeat split; auto using trim_trimmed.
Qed.

(** X21. If every customer has a name that is not empty, an email that
    matches the email pattern, and neither has white space at its ends,
    then so it is after each of the three customer actions, on every
    path: the rows [createCustomer] inserts and [updateCustomer] rewrites
    carry the trimmed, validated name and email of the form. *)
Theorem customers_stay_valid :
  forall (id : string) (prevState : CustomerState) (formData : FormData)
         (w : World),
    customersValid (tables w) ->
    customersValid (tables (world (createCustomer prevState formData w)))
    /\ customersValid (tables (world (updateCustomer id prevState formData w)))
    /\ customersValid (tables (world (deleteCustomer id w))).
Proof.
  intros id prevState formData w Hc. unfold customersValid in *.
  split; [|split].
  - apply createCustomer_cases; intros d Hv; intros;
      cbn [world advance tables]; trivial.
    cbn [execute fst customers].
    destruct (existsb _ (customers (tables w))); [exact Hc|].
    apply Forall_app. split; [exact Hc|]. constructor; [|constructor].
    now apply (customerForm_valid formData d).
  - apply updateCustomer_cases; intros d Hv; intros;
      cbn [world advance tables]; trivial.
    cbn [execute fst customers].
    revert Hc. generalize (customers (tables w)). intros l Hc.
    induction Hc as [|r l Hr Hl IH]; cbn [map]; constructor; [|exact IH].
    destruct (String.eqb (cust_id r) id); [|exact Hr].
    now apply (customerForm_valid formData d).
  - apply deleteCustomer_cases; intros; cbn [world advance tables]; trivial.
    cbn [execute fst customers]. apply Forall_forall. intros r Hin.
    apply filter_In in Hin as [Hin _].
    exact (proj1 (Forall_forall _ _) Hc r Hin).
Qed.

Lemma customers_stay_valid_witness :
  customersValid (tables (Sample.env []))
  /\ customersValid
       (tables (world (createCustomer Sample.noCustomerState
                         (Sample.customerFields " Carol " " c@x.com ")
                         (Sample.env [])))).
Proof.
  assert (Hc : customersValid (tables (Sample.env []))).
  { repeat constructor; discriminate. }
  split; [exact Hc|].
  apply (customers_stay_valid "5" Sample.noCustomerState
           (Sample.customerFields " Carol " " c@x.com ") (Sample.env []) Hc).
Defined.

(** ** Creating, then deleting or updating again *)

(** X22. Creating a row and deleting it again gives the table back. With
    a form that validates, a store that accepts the statements and an
    identifier it has not used: [deleteInvoice] of the id given to the
    invoice that [createInvoice] has just added leaves the invoices as
    they were before the creation; and so does [deleteCustomer] for the
    customers after [createCustomer], the email being free and no invoice
    referencing the new id. *)
Theorem create_then_delete_restores :
  forall (prevState : State) (cState : CustomerState) (formData : FormData)
         (w : World),
    nextCallsSucceed 4 w ->
    (forall d, invoiceForm formData = Success d ->
       (forall r, In r (invoices (tables w)) -> inv_id r <> nextId (tables w)) ->
       invoices (tables (world (deleteInvoice (nextId (tables w))
                                  (world (createInvoice prevState formData w)))))
       = invoices (tables w))
    /\ (forall d, customerForm formData = Success d ->
       (forall r, In r (customers (tables w)) -> cust_email r <> email d) ->
       (forall r, In r (customers (tables w)) ->
                  cust_id r <> nextId (tables w)) ->
       (forall r, In r (invoices (tables w)) ->
                  inv_customer_id r <> nextId (tables w)) ->
       completion (deleteCustomer (nextId (tables w))
                     (world (createCustomer cState formData w)))
       = Normal {| c_errors := None; c_message := Some "Deleted Customer." |}
       /\ customers (tables (world (deleteCustomer (nextId (tables w))
                                      (world (createCustomer cState formData w)))))
          = customers (tables w)).
Proof.
  intros prevState cState formData w Hok.
  assert (Hf := nextCallsSucceed_head _ _ Hok).
  split.
  - intros d Hv Hfresh.
    rewrite (createInvoice_executed _ _ _ _ Hv Hf). cbn [world].
    set (t1 := fst (execute (insertInvoice d w) (tables w))).
    assert (Hf2 : nextFails (advance t1 w) = false)
      by exact (nextCallsSucceed_head _ _ (nextCallsSucceed_advance _ t1 _ Hok)).
    rewrite (deleteInvoice_executed _ _ Hf2).
    subst t1. unfold insertInvoice, nextId in *.
    cbn [world advance tables execute fst invoices].
    rewrite filter_app. cbn [filter inv_id]. unfold neqb at 2.
    rewrite String.eqb_refl. cbn [negb]. rewrite app_nil_r.
    apply filter_all. intros r Hr. unfold neqb.
    apply negb_true_iff, String.eqb_neq. now apply Hfresh.
  - intros d Hv Hfree Hfresh Hunref.
    assert (Hok1 := nextCallsSucceed_advance _ (tables w) _ Hok).
    assert (Hf1 := nextCallsSucceed_head _ _ Hok1).
    apply emailTaken_create_false in Hfree.
    rewrite (createCustomer_executed _ _ _ _ Hv Hf Hfree Hf1). cbn [world].
    set (t1 := fst (execute (INSERT_INTO_customers (name d) (email d))
                      (tables w))).
    set (w1 := advance t1 (advance (tables w) w)).
    assert (Hok2 : nextCallsSucceed 2 w1)
      by exact (nextCallsSucceed_advance _ t1 _ Hok1).
    assert (Hf2 := nextCallsSucceed_head _ _ Hok2).
    assert (Hf3 := nextCallsSucceed_head _ _
                     (nextCallsSucceed_advance _ (tables w1) _ Hok2)).
    assert (Hr : referenced (nextId (tables w)) (tables w1) = false).
    { apply referenced_false. exact Hunref. }
    rewrite (deleteCustomer_executed _ _ Hf2 Hr Hf3).
    subst w1 t1. unfold nextId in *.
    cbn [completion world advance tables execute fst customers].
    split; [reflexivity|].
    rewrite (proj2 (existsb_id_false _ _) Hfresh).
    rewrite filter_app. cbn [filter cust_id]. unfold neqb at 2.
    rewrite String.eqb_refl. cbn [negb]. rewrite app_nil_r.
    apply filter_all. intros r Hin. unfold neqb.
    apply negb_true_iff, String.eqb_neq. now apply Hfresh.
Qed.

Lemma create_then_delete_restores_witness :
  invoices (tables (world (deleteInvoice "a"
                             (world (createInvoice Sample.noState
                                       (Sample.invoiceFields "7" "paid")
                                       (Sample.env []))))))
  = [Sample.invoice1]
  /\ nextId (tables (Sample.env [])) = "a".
Proof.
  split; [|reflexivity].
  refine (proj1 (create_then_delete_restores Sample.noState
                   Sample.noCustomerState (Sample.invoiceFields "7" "paid")
                   (Sample.env []) _)
            {| customerId := "c1"; amount := StringToNumber "7";
               status := "paid" |} eq_refl _).
  - intros i _. destruct i as [|[|[|[|i]]]]; reflexivity.
  - intros r [<-|[]]; discriminate.
Defined.

(** X23. The last update wins: when both forms validate and the store
    accepts the statements, the invoices after two [updateInvoice] of the
    same id in a row are those after the second alone. *)
Theorem updateInvoice_last_wins :
  forall (id : string) (prev1 prev2 : State) (form1 form2 : FormData)
         (w : World) (d1 d2 : InvoiceData),
    invoiceForm form1 = Success d1 ->
    invoiceForm form2 = Success d2 ->
    nextCallsSucceed 2 w ->
    invoices (tables (world (updateInvoice id prev2 form2
                               (world (updateInvoice id prev1 form1 w)))))
    = invoices (tables (world (updateInvoice id prev2 form2 w))).
Proof.
  intros id prev1 prev2 form1 form2 w d1 d2 Hv1 Hv2 Hok.
  assert (Hf := nextCallsSucceed_head _ _ Hok).
  rewrite (updateInvoice_executed _ _ _ _ _ Hv1 Hf). cbn [world].
  set (t1 := fst (execute (updateInvoiceStmt id d1) (tables w))).
  assert (Hf2 : nextFails (advance t1 w) = false)
    by exact (nextCallsSucceed_head _ _ (nextCallsSucceed_advance _ t1 _ Hok)).
  rewrite (updateInvoice_executed _ _ _ _ _ Hv2 Hf2).
  rewrite (updateInvoice_executed _ _ _ _ _ Hv2 Hf).
  subst t1. unfold updateInvoiceStmt.
  cbn [world advance tables execute fst invoices].
  rewrite map_map. apply map_ext. intros r.
  destruct (String.eqb (inv_id r) id) eqn:E; cbn [inv_id inv_date];
    now rewrite E.
Qed.

Lemma updateInvoice_last_wins_witness :
  invoices (tables (world (updateInvoice "i1" Sample.noState
                             (Sample.invoiceFields "2" "paid")
                             (world (updateInvoice "i1" Sample.noState
                                       (Sample.invoiceFields "1" "pending")
                                       (Sample.env []))))))
  = [{| inv_id := "i1"; inv_customer_id := "c1"; inv_amount := of_Z 200;
        inv_status := "paid"; inv_date := "2023-01-31" |}].
Proof.
  rewrite (updateInvoice_last_wins "i1" Sample.noState Sample.noState
             (Sample.invoiceFields "1" "pending")
             (Sample.invoiceFields "2" "paid") (Sample.env [])
             {| customerId := "c1"; amount := StringToNumber "1";
                status := "pending" |}
             {| customerId := "c1"; amount := StringToNumber "2";
                status := "paid" |} eq_refl eq_refl).
  - reflexivity.
  - intros i _. destruct i as [|[|i]]; reflexivity.
Defined.

(** X24. The uniqueness check does not hold across the await: when
    another request inserts a customer with the same email between the
    uniqueness query of [createCustomer] and its INSERT, the action
    still inserts its row and redirects, and the table then holds two
    customers with that email. *)
Theorem createCustomer_race_duplicates_email :
  forall (prevState : CustomerState) (formData : FormData) (w : World)
         (d : CustomerData) (rival : string),
    customerForm formData = Success d ->
    nextCallsSucceed 2 w ->
    emailTaken (email d) None (tables w) = false ->
    nextIdsFresh (tables w) ->
    completion
      (Interleaved.createCustomer
         (meanwhileExecuted (INSERT_INTO_customers rival (email d)))
         prevState formData w)
    = Throw (NEXT_REDIRECT "/dashboard/customers")
    /\ customers
         (tables
            (world
               (Interleaved.createCustomer
                  (meanwhileExecuted (INSERT_INTO_customers rival (email d)))
                  prevState formData w)))
       = customers (tables w)
         ++ [{| cust_id := nextId (tables w); cust_name := rival;
                cust_email := email d; cust_image_url := "" |};
             {| cust_id := idSupply (tables w) (S (assigned (tables w)));
                cust_name := name d; cust_email := email d;
                cust_image_url := "" |}]
    /\ ~ emailsUnique
           (tables
              (world
                 (Interleaved.createCustomer
                    (meanwhileExecuted
                       (INSERT_INTO_customers rival (email d)))
                    prevState formData w))).
Proof.
  intros prevState formData w d rival Hv Hok Ht [Hne Hfresh].
  destruct (createCustomer_interleaved_executed
              (meanwhileExecuted (INSERT_INTO_customers rival (email d)))
              prevState formData w d Hv Hok Ht) as [Hc Hw].
  assert (Hrows :
    customers
      (fst (execute (INSERT_INTO_customers (name d) (email d))
              (meanwhileExecuted (INSERT_INTO_customers rival (email d))
                 (tables w))))
    = customers (tables w)
      ++ [{| cust_id := nextId (tables w); cust_name := rival;
             cust_email := email d; cust_image_url := "" |};
          {| cust_id := idSupply (tables w) (S (assigned (tables w)));
             cust_name := name d; cust_email := email d;
             cust_image_url := "" |}]).
  { unfold meanwhileExecuted, nextId in *.
    cbn [execute fst customers idSupply assigned].
    assert (E1 : existsb
                   (fun r => String.eqb (cust_id r)
                               (idSupply (tables w) (assigned (tables w))))
                   (customers (tables w)) = false).
    { apply existsb_id_false. intros r Hr. now apply Hfresh. }
    rewrite E1.
    assert (E2 : existsb
                   (fun r => String.eqb (cust_id r)
                               (idSupply (tables w) (S (assigned (tables w)))))
                   (customers (tables w)
                    ++ [{| cust_id := idSupply (tables w) (assigned (tables w));
                           cust_name := rival; cust_email := email d;
                           cust_image_url := "" |}]) = false).
    { apply existsb_id_false. intros r Hr.
      apply in_app_or in Hr as [Hr|[<-|[]]]; [now apply Hfresh|exact Hne]. }
    rewrite E2. now rewrite <- app_assoc. }
  split; [exact Hc|]. rewrite Hw, Hrows. split; [reflexivity|].
  unfold emailsUnique. rewrite Hrows, map_app. cbn [map cust_email].
  intros Hn. apply NoDup_remove_2 in Hn. apply Hn.
  apply in_or_app. right. now left.
Qed.

Lemma createCustomer_race_duplicates_email_witness :
  emailsUnique (tables (Sample.env []))
  /\ completion
       (Interleaved.createCustomer
          (meanwhileExecuted (INSERT_INTO_customers "Carl" "c@x.com"))
          Sample.noCustomerState (Sample.customerFields "Carol" "c@x.com")
          (Sample.env []))
     = Throw (NEXT_REDIRECT "/dashboard/customers")
  /\ ~ emailsUnique
         (tables
            (world
               (Interleaved.createCustomer
                  (meanwhileExecuted (INSERT_INTO_customers "Carl" "c@x.com"))
                  Sample.noCustomerState
                  (Sample.customerFields "Carol" "c@x.com")
                  (Sample.env [])))).
Proof.
  split; [repeat constructor; cbn; intuition discriminate|].
  assert (Hv : customerForm (Sample.customerFields "Carol" "c@x.com")
               = Success {| name := "Carol"; email := "c@x.com" |})
    by (vm_compute; reflexivity).
  assert (Hok : nextCallsSucceed 2 (Sample.env []))
    by (intros i _; destruct i as [|[|i]]; reflexivity).
  assert (Hfresh : nextIdsFresh (tables (Sample.env []))).
  { split; [discriminate|].
    intros r [<-|[<-|[]]]; split; discriminate. }
  destruct (createCustomer_race_duplicates_email Sample.noCustomerState
              (Sample.customerFields "Carol" "c@x.com") (Sample.env [])
              {| name := "Carol"; email := "c@x.com" |} "Carl"
              Hv Hok eq_refl Hfresh) as [Hc [_ Hn]].
  split; [exact Hc|exact Hn].
Defined.

(** X25. The delete guard does not hold across the await: when another
    request inserts an invoice for the customer between the guard query
    of [deleteCustomer] and its DELETE, the action still answers
    "Deleted Customer." and an invoice of the table then references no
    customer. *)
Theorem deleteCustomer_race_orphans_invoice :
  forall (id : string) (w : World) (amount : number) (st date : string),
    nextCallsSucceed 2 w ->
    referenced id (tables w) = false ->
    completion
      (Interleaved.deleteCustomer
         (meanwhileExecuted (INSERT_INTO_invoices id amount st date)) id w)
    = Normal {| c_errors := None; c_message := Some "Deleted Customer." |}
    /\ ~ referencesResolve
           (tables
              (world
                 (Interleaved.deleteCustomer
                    (meanwhileExecuted
                       (INSERT_INTO_invoices id amount st date)) id w))).
Proof.
  intros id w amount st date Hok Hr.
  destruct (deleteCustomer_interleaved_executed
              (meanwhileExecuted (INSERT_INTO_invoices id amount st date))
              id w Hok Hr) as [Hc Hw].
  split; [exact Hc|]. rewrite Hw. unfold referencesResolve, meanwhileExecuted.
  cbn [execute fst customers invoices].
  intros H.
  destruct (H {| inv_id := idSupply (tables w) (assigned (tables w));
                 inv_customer_id := id; inv_amount := amount;
                 inv_status := st; inv_date := date |})
    as [c [Hin Ec]].
  { apply in_or_app. right. now left. }
  apply filter_In in Hin as [_ Hn]. cbn [inv_customer_id] in Ec.
  unfold neqb in Hn. apply negb_true_iff, String.eqb_neq in Hn. now apply Hn.
Qed.

Lemma deleteCustomer_race_orphans_invoice_witness :
  referencesResolve (tables (Sample.env []))
  /\ ~ referencesResolve
         (tables
            (world
               (Interleaved.deleteCustomer
                  (meanwhileExecuted
                     (INSERT_INTO_invoices "5" (of_Z 100) "paid" "2023-11-14"))
                  "5" (Sample.env [])))).
Proof.
  split.
  - intros r [<-|[]]. exists Sample.alice. split; [now left|reflexivity].
  - apply (deleteCustomer_race_orphans_invoice "5" (Sample.env [])
             (of_Z 100) "paid" "2023-11-14").
    + intros i _. destruct i as [|[|i]]; reflexivity.
    + reflexivity.
Defined.
